(** * antigravity-claude-proxy: account storage, subscription-tier discovery
      and the streaming retry/failover orchestrator

    A shallow embedding of three source files of the proxy:

      - the account storage module ([loadAccounts], [loadDefaultAccount],
        [loadAccountsFromEnv], [saveAccounts]),
      - [src/cloudcode/model-api.js] ([listModels], [fetchAvailableModels],
        [getModelQuotas], [getSubscriptionTier]),
      - [src/cloudcode/streaming-handler.js] ([sendMessageStream],
        [emitEmptyResponseFallback]).

    JavaScript values are an inductive type, objects are finite maps from
    property names to values, exceptions are [option]/sum results, and the
    collaborators that live outside these three files (the account manager,
    [fetch], the SSE streamer, the error classifiers, the constants) are
    interfaces the handler is parameterised over.  Calls of the logger, and
    values computed only to be logged, are left out. *)

From stdpp Require Import gmap strings list fin_maps.
From Stdlib Require Import ZArith String Ascii DecimalString DecimalZ Lia Bool.

#[local] Set Warnings "-register-all".
#[local] Open Scope string_scope.

(* ===================================================================== *)
(** * Part I. Definitions                                                 *)
(* ===================================================================== *)

(** ** JavaScript strings *)

Module JsString.

(** [s.includes(needle)]: [needle] occurs as a contiguous substring. *)
Fixpoint includes (needle hay : string) : bool :=
  String.prefix needle hay ||
  match hay with
  | EmptyString => false
  | String _ rest => includes needle rest
  end.

(** [toLowerCase] on the ASCII range (bytes outside 'A'..'Z' are kept).
    The lower-cased strings are only searched for 'ultra' and 'pro', and
    no character outside ASCII is lower-cased to one of their letters. *)
Definition lower_ascii (c : ascii) : ascii :=
  let n := nat_of_ascii c in
  if (65 <=? n)%nat && (n <=? 90)%nat then ascii_of_nat (n + 32) else c.

Fixpoint toLowerCase (s : string) : string :=
  match s with
  | EmptyString => EmptyString
  | String c rest => String (lower_ascii c) (toLowerCase rest)
  end.

(** Template-literal rendering of an integer, [`${n}`]. *)
Definition ofZ (z : Z) : string := NilZero.string_of_int (Z.to_int z).

Definition ofNat (n : nat) : string := ofZ (Z.of_nat n).

(** A string holds its text in UTF-8 (a lone surrogate in the three-byte
    form), while JavaScript indexes a string by UTF-16 code units.
    [isContinuation c] tells a continuation byte [10xxxxxx];
    [announced c] is the number of continuation bytes a lead byte
    announces. *)
Definition isContinuation (c : ascii) : bool :=
  let n := N_of_ascii c in (128 <=? n)%N && (n <? 192)%N.

Definition announced (c : ascii) : nat :=
  let n := N_of_ascii c in
  if (n <? 192)%N then 0
  else if (n <? 224)%N then 1
  else if (n <? 240)%N then 2
  else if (n <? 248)%N then 3
  else 0.

(** The three-byte form of a code unit [u] in the range of the
    surrogates. *)
Definition threeBytes (u : N) : string :=
  String (ascii_of_N (224 + u / 4096))
    (String (ascii_of_N (128 + (u / 64) mod 64))
       (String (ascii_of_N (128 + u mod 64)) EmptyString)).

(** The code units of one UTF-8 sequence: a sequence of up to three bytes
    is one code unit; a sequence of four bytes is a code point beyond
    U+FFFF, that is a surrogate pair, two code units. *)
Definition unitsOf (sequence : string) : list string :=
  match sequence with
  | EmptyString => []
  | String b0 (String b1 (String b2 (String b3 EmptyString))) =>
      let point :=
        ((N_of_ascii b0 mod 8) * 262144 + (N_of_ascii b1 mod 64) * 4096
         + (N_of_ascii b2 mod 64) * 64 + N_of_ascii b3 mod 64)%N in
      let offset := (point - 65536)%N in
      [threeBytes (55296 + offset / 1024)%N;
       threeBytes (56320 + offset mod 1024)%N]
  | _ => [sequence]
  end.

(** [codeUnitsFrom s sequence need]: the code units of [sequence ++ s],
    where [sequence] is the UTF-8 sequence being read and [need] the
    number of continuation bytes it still lacks. *)
Fixpoint codeUnitsFrom (s : string) (sequence : string) (need : nat)
  : list string :=
  match s with
  | EmptyString => unitsOf sequence
  | String c rest =>
      match need with
      | S need' =>
          if isContinuation c
          then codeUnitsFrom rest (sequence ++ String c EmptyString) need'
          else unitsOf sequence
               ++ codeUnitsFrom rest (String c EmptyString) (announced c)
      | O => unitsOf sequence
             ++ codeUnitsFrom rest (String c EmptyString) (announced c)
      end
  end.

(** The UTF-16 code units of a string, each as a string of its own: what
    [s[0]], [s[1]], ... are. *)
Definition codeUnits (s : string) : list string :=
  codeUnitsFrom s EmptyString 0.

End JsString.

(** ** JavaScript values

    The number type is left abstract: the code below only tests numbers for
    truthiness, so any representation of IEEE doubles with its own notion of
    "zero or NaN" fits. *)

Module Js.

Inductive JsVal (Num : Type) : Type :=
| VUndef
| VNull
| VBool (b : bool)
| VNum (n : Num)
| VStr (s : string)
| VArr (l : list (JsVal Num))
| VObj (m : gmap string (JsVal Num)).

Arguments VUndef {Num}.
Arguments VNull {Num}.
Arguments VBool {Num} b.
Arguments VNum {Num} n.
Arguments VStr {Num} s.
Arguments VArr {Num} l.
Arguments VObj {Num} m.

Section Values.
Context {Num : Type}.
(** [num_truthy n] is false exactly for [0], [-0] and [NaN]. *)
Variable num_truthy : Num -> bool.

(** [ToBoolean]. *)
Definition truthy (v : JsVal Num) : bool :=
  match v with
  | VUndef | VNull => false
  | VBool b => b
  | VNum n => num_truthy n
  | VStr s => negb (String.eqb s EmptyString)
  | VArr _ | VObj _ => true
  end.

(** [a || b]. *)
Definition jsOr (a b : JsVal Num) : JsVal Num :=
  if truthy a then a else b.

(** [v !== false]. *)
Definition notStrictlyFalse (v : JsVal Num) : bool :=
  match v with
  | VBool false => false
  | _ => true
  end.

(** [typeof v === 'string']. *)
Definition isString (v : JsVal Num) : bool :=
  match v with VStr _ => true | _ => false end.

(** Reading a named field [v.k] of a value that is neither [null] nor
    [undefined].  The field names read by the embedded code (email,
    source, enabled, id, ...) are neither array indices nor names found
    on a built-in prototype, so only objects can hold them. *)
Definition fieldOf (v : JsVal Num) (k : string) : JsVal Num :=
  match v with
  | VObj m => default VUndef (m !! k)
  | _ => VUndef
  end.

(** [v.k]: a [TypeError] ([None]) on [null] and [undefined]. *)
Definition getProp (v : JsVal Num) (k : string) : option (JsVal Num) :=
  match v with
  | VUndef | VNull => None
  | _ => Some (fieldOf v k)
  end.

(** [v?.k]: [undefined] on [null] and [undefined]. *)
Definition optProp (v : JsVal Num) (k : string) : JsVal Num :=
  match v with
  | VUndef | VNull => VUndef
  | _ => fieldOf v k
  end.

(** Own enumerable properties copied by an object spread [{...v}]:
    the properties of an object, the indexed elements of an array, the
    indexed UTF-16 code units of a string, nothing for the other values. *)
Definition indexed (l : list (JsVal Num)) : gmap string (JsVal Num) :=
  list_to_map (imap (fun i x => (JsString.ofNat i, x)) l).

Definition spread (v : JsVal Num) : gmap string (JsVal Num) :=
  match v with
  | VObj m => m
  | VArr l => indexed l
  | VStr s => indexed (VStr <$> JsString.codeUnits s)
  | _ => ∅
  end.

End Values.

End Js.

Import Js.

(** ** Account storage: [loadAccounts] and [loadAccountsFromEnv] *)

Module Storage.

(** What reading the config file can come to: [access] fails with ENOENT,
    [access]/[readFile] fail otherwise, [JSON.parse] raises a SyntaxError,
    or the parsed value. *)
Inductive ConfigFile (Num : Type) : Type :=
| FileMissing
| FileUnreadable
| FileNotJson
| FileJson (config : JsVal Num).

Arguments FileMissing {Num}.
Arguments FileUnreadable {Num}.
Arguments FileNotJson {Num}.
Arguments FileJson {Num} config.

Record Loaded (Num : Type) : Type := mkLoaded {
  accounts : list (JsVal Num);
  settings : JsVal Num;
  activeIndex : JsVal Num
}.

Arguments mkLoaded {Num}.
Arguments accounts {Num}.
Arguments settings {Num}.
Arguments activeIndex {Num}.

Section Storage.
Context {Num : Type}.
Variable num_truthy : Num -> bool.
(** The number literal [0]. *)
Variable num_zero : Num.
(** [v >= n] for a value [v] and an array length [n] (the abstract
    relational comparison, with its coercions). *)
Variable geLength : JsVal Num -> nat -> bool.
(** [JSON.parse]; [None] is a SyntaxError. *)
Variable JSON_parse : string -> option (JsVal Num).
(** [new Date().toISOString()] at the k-th reading of the clock. *)
Variable isoAt : nat -> string.

#[local] Abbreviation truthy := (truthy num_truthy).
#[local] Abbreviation jsOr := (jsOr num_truthy).

Definition emptyObject : JsVal Num := VObj ∅.

(** [{ tier: 'unknown', projectId: null, detectedAt: null }] *)
Definition unknownSubscription : JsVal Num :=
  VObj (<["detectedAt" := VNull]>
       (<["projectId" := VNull]>
       (<["tier" := VStr "unknown"]> ∅))).

(** [{ models: {}, lastChecked: null }] *)
Definition defaultQuota : JsVal Num :=
  VObj (<["lastChecked" := VNull]> (<["models" := emptyObject]> ∅)).

(** The arrow function mapped over [config.accounts]. *)
Definition loadAccountEntry (acc : JsVal Num) : option (JsVal Num) :=
  let base := spread acc in
  lastUsed ← getProp acc "lastUsed";
  enabled ← getProp acc "enabled";
  modelRateLimits ← getProp acc "modelRateLimits";
  subscription ← getProp acc "subscription";
  quota ← getProp acc "quota";
  Some (VObj
    (<["quota" := jsOr quota defaultQuota]>
    (<["subscription" := jsOr subscription unknownSubscription]>
    (<["modelRateLimits" := jsOr modelRateLimits emptyObject]>
    (<["invalidReason" := VNull]>
    (<["isInvalid" := VBool false]>
    (<["enabled" := VBool (notStrictlyFalse enabled)]>
    (<["lastUsed" := jsOr lastUsed VNull]> base)))))))).

(** [v.map(f)]: a TypeError unless [v] is an array. *)
Definition jsMap (f : JsVal Num -> option (JsVal Num)) (v : JsVal Num)
  : option (list (JsVal Num)) :=
  match v with
  | VArr l => mapM f l
  | _ => None
  end.

Definition emptyLoaded : Loaded Num :=
  mkLoaded [] emptyObject (VNum num_zero).

(** The body of the [try] block, after the file was read and parsed. *)
Definition loadAccountsBody (config : JsVal Num) : option (Loaded Num) :=
  stored ← getProp config "accounts";
  accs ← jsMap loadAccountEntry (jsOr stored (VArr []));
  storedSettings ← getProp config "settings";
  storedIndex ← getProp config "activeIndex";
  let idx := jsOr storedIndex (VNum num_zero) in
  let idx := if geLength idx (List.length accs) then VNum num_zero else idx in
  Some (mkLoaded accs (jsOr storedSettings emptyObject) idx).

Definition loadAccounts (file : ConfigFile Num) : Loaded Num :=
  match file with
  | FileJson config => default emptyLoaded (loadAccountsBody config)
  | FileMissing | FileUnreadable | FileNotJson => emptyLoaded
  end.

(** The object pushed for one accepted PROXY_ACCOUNTS entry. *)
Definition envAccount (stamp : string) (email refreshToken apiKey : JsVal Num)
  : JsVal Num :=
  VObj
    (<["fromEnv" := VBool true]>
    (<["addedAt" := VStr stamp]>
    (<["lastUsed" := VNull]>
    (<["modelRateLimits" := emptyObject]>
    (<["invalidReason" := VNull]>
    (<["isInvalid" := VBool false]>
    (<["enabled" := VBool true]>
    (<["apiKey" := apiKey]>
    (<["refreshToken" := refreshToken]>
    (<["source" := VStr (if truthy apiKey then "manual" else "oauth")]>
    (<["email" := email]> ∅))))))))))).

(** The [for (const acc of parsed)] loop; [accounts] is the array built so
    far, [None] an exception escaping the loop. *)
Fixpoint envLoop (parsed : list (JsVal Num)) (accounts : list (JsVal Num))
  : option (list (JsVal Num)) :=
  match parsed with
  | [] => Some accounts
  | acc :: rest =>
      email ← getProp acc "email";
      if negb (truthy email) then envLoop rest accounts
      else
        refresh_token ← getProp acc "refresh_token";
        refreshTokenCamel ← getProp acc "refreshToken";
        let refreshToken := jsOr refresh_token refreshTokenCamel in
        api_key ← getProp acc "api_key";
        apiKeyCamel ← getProp acc "apiKey";
        let apiKey := jsOr api_key apiKeyCamel in
        if negb (truthy refreshToken) && negb (truthy apiKey)
        then envLoop rest accounts
        else envLoop rest
               (accounts ++ [envAccount (isoAt (List.length accounts))
                                        email refreshToken apiKey])
  end.

(** [loadAccountsFromEnv]; the argument is [process.env.PROXY_ACCOUNTS]
    ([None] when unset). *)
Definition loadAccountsFromEnv (envAccounts : option string)
  : list (JsVal Num) :=
  match envAccounts with
  | None => []
  | Some EmptyString => []
  | Some s =>
      default []
        (parsed ← JSON_parse s;
         match parsed with
         | VArr l => envLoop l []
         | _ => Some []
         end)
  end.

End Storage.

End Storage.

(** ** Subscription-tier discovery: [getSubscriptionTier] *)

Module ModelApi.

Record Request := mkRequest {
  url : string;
  method : string;
  headers : gmap string string;
  body : string
}.

(** What [await fetch(url, ...)] followed by [await response.json()] can
    come to: [fetch] rejects, or it resolves to a response whose body
    parses ([Some data]) or does not ([None], [json()] rejects). *)
Inductive Fetched (Num : Type) : Type :=
| FetchRejects
| FetchResponse (ok : bool) (status : Z) (json : option (JsVal Num)).

Arguments FetchRejects {Num}.
Arguments FetchResponse {Num} ok status json.

Record Subscription (Num : Type) : Type := mkSubscription {
  tier : string;
  projectId : JsVal Num
}.

Arguments mkSubscription {Num}.
Arguments tier {Num}.
Arguments projectId {Num}.

Section ModelApi.
Context {Num W : Type}.
Variable num_truthy : Num -> bool.
(** The network, as a transition on the state of the outside world. *)
Variable fetch : Request -> W -> Fetched Num * W.
Variable JSON_stringify : JsVal Num -> string.
(** Constants of [constants.js]. *)
Variable ANTIGRAVITY_ENDPOINT_FALLBACKS : list string.
Variable ANTIGRAVITY_HEADERS : gmap string string.

#[local] Abbreviation truthy := (truthy num_truthy).
#[local] Abbreviation jsOr := (jsOr num_truthy).

(** [{ Authorization, Content-Type, ...ANTIGRAVITY_HEADERS }]: the spread
    comes last and overrides. *)
Definition requestHeaders (token : string) : gmap string string :=
  ANTIGRAVITY_HEADERS ∪
  (<["Content-Type" := "application/json"]>
  (<["Authorization" := "Bearer " ++ token]> ∅)).

Definition loadCodeAssistBody : JsVal Num :=
  VObj (<["metadata" :=
    VObj (<["pluginType" := VStr "GEMINI"]>
         (<["platform" := VStr "PLATFORM_UNSPECIFIED"]>
         (<["ideType" := VStr "IDE_UNSPECIFIED"]> ∅)))]> ∅).

Definition loadCodeAssistRequest (endpoint token : string) : Request :=
  mkRequest (endpoint ++ "/v1internal:loadCodeAssist") "POST"
            (requestHeaders token) (JSON_stringify loadCodeAssistBody).

(** "Extract project ID". *)
Definition extractProjectId (data : JsVal Num) : option (JsVal Num) :=
  project ← getProp data "cloudaicompanionProject";
  if isString project then Some project
  else
    let id := optProp project "id" in
    Some (if truthy id then id else VNull).

(** The [if / else if / else] on [lowerTier]. *)
Definition classifyTier (tierId : string) : string :=
  let lowerTier := JsString.toLowerCase tierId in
  if JsString.includes "ultra" lowerTier then "ultra"
  else if JsString.includes "pro" lowerTier then "pro"
  else "free".

(** [data.paidTier?.id || data.currentTier?.id] *)
Definition tierIdOf (data : JsVal Num) : option (JsVal Num) :=
  paidTier ← getProp data "paidTier";
  let paidId := optProp paidTier "id" in
  if truthy paidId then Some paidId
  else
    currentTier ← getProp data "currentTier";
    Some (optProp currentTier "id").

(** "Extract subscription tier"; a truthy tier id that is not a string has
    no [toLowerCase], the call raises a TypeError. *)
Definition extractTier (data : JsVal Num) : option string :=
  tierId ← tierIdOf data;
  if truthy tierId then
    match tierId with
    | VStr s => Some (classifyTier s)
    | _ => None
    end
  else Some "free".

(** The statements of the [try] block after [response.json()]. *)
Definition detectSubscription (data : JsVal Num)
  : option (Subscription Num) :=
  pid ← extractProjectId data;
  t ← extractTier data;
  Some (mkSubscription t pid).

Definition freeSubscription : Subscription Num :=
  mkSubscription "free" VNull.

(** One iteration of the endpoint loop: [Some] is the [return] inside the
    [try], [None] is [continue] or the [catch]. *)
Definition tryEndpoint (endpoint token : string) (w : W)
  : option (Subscription Num) * W :=
  let '(res, w') := fetch (loadCodeAssistRequest endpoint token) w in
  match res with
  | FetchRejects => (None, w')
  | FetchResponse ok _ json =>
      if negb ok then (None, w')
      else
        match json with
        | None => (None, w')
        | Some data => (detectSubscription data, w')
        end
  end.

Fixpoint tierLoop (endpoints : list string) (token : string) (w : W)
  : Subscription Num * W :=
  match endpoints with
  | [] => (freeSubscription, w)
  | endpoint :: rest =>
      match tryEndpoint endpoint token w with
      | (Some sub, w') => (sub, w')
      | (None, w') => tierLoop rest token w'
      end
  end.

Definition getSubscriptionTier (token : string) (w : W)
  : Subscription Num * W :=
  tierLoop ANTIGRAVITY_ENDPOINT_FALLBACKS token w.

(** Every endpoint of the list fails, along the states the loop visits. *)
Fixpoint allEndpointsFail (endpoints : list string) (token : string) (w : W)
  : Prop :=
  match endpoints with
  | [] => True
  | endpoint :: rest =>
      (tryEndpoint endpoint token w).1 = None /\
      allEndpointsFail rest token (tryEndpoint endpoint token w).2
  end.

End ModelApi.

End ModelApi.

(** ** The streaming orchestrator: [sendMessageStream] *)

Module Stream.

(** A thrown [Error]: its [name] and [message]. *)
Record JsError := mkError {
  errName : string;
  message : string
}.

(** [new Error(msg)] *)
Definition Error (msg : string) : JsError := mkError "Error" msg.

(** [new Error(`API error ${status}: ${errorText}`)] *)
Definition apiError (status : Z) (errorText : string) : JsError :=
  Error ("API error " ++ JsString.ofZ status ++ ": " ++ errorText).

(** A [fetch] response, with its body text already read. *)
Record Response := mkResponse {
  status : Z;
  respHeaders : list (string * string);
  respText : string
}.

(** [response.ok]: the status is in the range 200..299. *)
Definition ok (r : Response) : bool :=
  (200 <=? status r)%Z && (status r <=? 299)%Z.

(** Events and payloads are JavaScript objects over integer numbers. *)
Definition Event : Type := JsVal Z.
Definition Payload : Type := JsVal Z.

Record AnthropicRequest := mkAnthropicRequest {
  model : string;
  otherFields : gmap string (JsVal Z)
}.

(** [{ ...anthropicRequest, model: fallbackModel }] *)
Definition withModel (req : AnthropicRequest) (m : string) : AnthropicRequest :=
  mkAnthropicRequest m (otherFields req).

(** An account of the pool; the handler reads only its [email]. *)
Record Account := mkAccount { email : string }.

(** The collaborators without state: constants of [constants.js], the
    classifiers of [errors.js] and [utils/helpers.js], the rate-limit
    parser, the request builder and the fallback table. *)
Record Deps := mkDeps {
  ANTIGRAVITY_ENDPOINT_FALLBACKS : list string;
  MAX_RETRIES : Z;
  MAX_EMPTY_RESPONSE_RETRIES : Z;
  MAX_WAIT_BEFORE_ERROR_MS : Z;
  isRateLimitError : JsError -> bool;
  isAuthError : JsError -> bool;
  isEmptyResponseError : JsError -> bool;
  isNetworkError : JsError -> bool;
  formatDuration : Z -> string;
  toISOString : Z -> string;
  parseResetTime : Response -> string -> option Z;
  buildCloudCodeRequest : AnthropicRequest -> string -> Payload;
  buildHeaders : string -> string -> string -> list (string * string);
  JSON_stringify : Payload -> string;
  getFallbackModel : string -> option string
}.

(** The collaborators with state, as transitions on a world [W] that holds
    the account pool, the network, the clock and the random source. *)
Record Env (W : Type) := mkEnv {
  getAccountCount : W -> nat;
  pickStickyAccount : string -> W -> (option Account * Z) * W;
  getCurrentStickyAccount : string -> W -> option Account * W;
  pickNext : string -> W -> option Account * W;
  clearExpiredLimits : W -> W;
  resetAllRateLimits : W -> W;
  isAllRateLimited : string -> W -> bool;
  getMinWaitTimeMs : string -> W -> Z;
  getTokenForAccount : Account -> W -> (JsError + string) * W;
  getProjectForAccount : Account -> string -> W -> (JsError + string) * W;
  clearTokenCache : string -> W -> W;
  clearProjectCache : string -> W -> W;
  markRateLimited : string -> option Z -> string -> W -> W;
  fetch : string -> list (string * string) -> string -> W
          -> (JsError + Response) * W;
  streamSSEResponse : Response -> string -> W
                      -> (list Event * option JsError) * W;
  sleep : Z -> W -> W;
  dateNow : W -> Z;
  randomHex16 : W -> string * W
}.

Arguments getAccountCount {W}.
Arguments pickStickyAccount {W}.
Arguments getCurrentStickyAccount {W}.
Arguments pickNext {W}.
Arguments clearExpiredLimits {W}.
Arguments resetAllRateLimits {W}.
Arguments isAllRateLimited {W}.
Arguments getMinWaitTimeMs {W}.
Arguments getTokenForAccount {W}.
Arguments getProjectForAccount {W}.
Arguments clearTokenCache {W}.
Arguments clearProjectCache {W}.
Arguments markRateLimited {W}.
Arguments fetch {W}.
Arguments streamSSEResponse {W}.
Arguments sleep {W}.
Arguments dateNow {W}.
Arguments randomHex16 {W}.

(** The calls the handler makes on its collaborators, in order.  [CEnter]
    records an invocation of [sendMessageStream] with its arguments. *)
Inductive Call :=
| CEnter (model : string) (fallbackEnabled : bool)
| CPickSticky (model : string)
| CGetCurrentSticky (model : string)
| CPickNext (model : string)
| CClearExpired
| CResetAll
| CGetToken (email : string)
| CGetProject (email : string)
| CClearTokenCache (email : string)
| CClearProjectCache (email : string)
| CMarkRateLimited (email : string) (resetMs : option Z) (model : string)
| CFetch (url : string) (headers : list (string * string)) (body : string)
| CStream (response : Response) (model : string)
| CSleep (ms : Z).

(** How a computation ends: normally, by a thrown error, or not at all
    within the fuel given. *)
Inductive Outcome (A : Type) :=
| Normal (a : A)
| Throws (e : JsError)
| Diverges.

Arguments Normal {A} a.
Arguments Throws {A} e.
Arguments Diverges {A}.

(** What a computation started in a world comes to: how it ends, the world
    it leaves, the calls it made and the events it yielded, in order. *)
Record Run (W A : Type) := mkRun {
  outcome : Outcome A;
  final : W;
  calls : list Call;
  events : list Event
}.

Arguments mkRun {W A}.
Arguments outcome {W A}.
Arguments final {W A}.
Arguments calls {W A}.
Arguments events {W A}.

Definition M (W A : Type) : Type := W -> Run W A.

(** [after c e r]: the run [r], preceded by the calls [c] and events [e]. *)
Definition after {W A} (c : list Call) (e : list Event) (r : Run W A)
  : Run W A :=
  mkRun (outcome r) (final r) (c ++ calls r) (e ++ events r).

#[global] Instance M_ret {W} : MRet (M W) :=
  fun A a w => mkRun (Normal a) w [] [].

#[global] Instance M_bind {W} : MBind (M W) :=
  fun A B f m w =>
    let r := m w in
    match outcome r with
    | Normal a => after (calls r) (events r) (f a (final r))
    | Throws e => mkRun (Throws e) (final r) (calls r) (events r)
    | Diverges => mkRun Diverges (final r) (calls r) (events r)
    end.

Definition throw {W A} (e : JsError) : M W A :=
  fun w => mkRun (Throws e) w [] [].

Definition diverge {W A} : M W A :=
  fun w => mkRun Diverges w [] [].

(** [try { m } catch (e) { h e }] *)
Definition tryCatch {W A} (m : M W A) (h : JsError -> M W A) : M W A :=
  fun w =>
    let r := m w in
    match outcome r with
    | Throws e => after (calls r) (events r) (h e (final r))
    | _ => r
    end.

(** What a loop body hands back: the generator executed [return], or the
    loop carries on with a value. *)
Inductive Flow (A : Type) :=
| Return
| Go (a : A).

Arguments Return {A}.
Arguments Go {A} a.

(** The variable [lastError] of the endpoint loop: [null], the object
    literal [{ is429: true, response, errorText, resetMs }], or an Error. *)
Inductive LastError :=
| LastNone
| Last429 (response : Response) (errorText : string) (resetMs : option Z)
| LastErr (e : JsError).

(** Truthiness of a [resetMs] ([null], or a number). *)
Definition resetTruthy (r : option Z) : bool :=
  match r with
  | Some z => negb (z =? 0)%Z
  | None => false
  end.

(** [resetMs < lastError.resetMs] on numbers. *)
Definition resetLt (a b : option Z) : bool :=
  match a, b with
  | Some x, Some y => (x <? y)%Z
  | _, _ => false
  end.

(** [!lastError?.is429 ||
     (resetMs && (!lastError.resetMs || resetMs < lastError.resetMs))] *)
Definition replaces429 (lastError : LastError) (resetMs : option Z) : bool :=
  match lastError with
  | Last429 _ _ old =>
      resetTruthy resetMs && (negb (resetTruthy old) || resetLt resetMs old)
  | LastNone | LastErr _ => true
  end.

Section Handler.
Context {W : Type}.
Variable D : Deps.
Variable E : Env W.

(** *** Primitive steps *)

Definition call (c : Call) : M W unit :=
  fun w => mkRun (Normal tt) w [c] [].

(** [yield* events] *)
Definition yieldAll (evs : list Event) : M W unit :=
  fun w => mkRun (Normal tt) w [] evs.

Definition readW {A} (f : W -> A) : M W A :=
  fun w => mkRun (Normal (f w)) w [] [].

Definition updW (f : W -> W) : M W unit :=
  fun w => mkRun (Normal tt) (f w) [] [].

Definition liftW {A} (f : W -> A * W) : M W A :=
  fun w => mkRun (Normal (f w).1) (f w).2 [] [].

Definition liftE {A} (f : W -> (JsError + A) * W) : M W A :=
  fun w =>
    match (f w).1 with
    | inl e => mkRun (Throws e) (f w).2 [] []
    | inr a => mkRun (Normal a) (f w).2 [] []
    end.

Definition doSleep (ms : Z) : M W unit :=
  call (CSleep ms);; updW (sleep E ms).

Definition doPickSticky (m : string) : M W (option Account * Z) :=
  call (CPickSticky m);; liftW (pickStickyAccount E m).

Definition doGetCurrentSticky (m : string) : M W (option Account) :=
  call (CGetCurrentSticky m);; liftW (getCurrentStickyAccount E m).

Definition doPickNext (m : string) : M W (option Account) :=
  call (CPickNext m);; liftW (pickNext E m).

Definition doClearExpired : M W unit :=
  call CClearExpired;; updW (clearExpiredLimits E).

Definition doResetAll : M W unit :=
  call CResetAll;; updW (resetAllRateLimits E).

Definition doGetToken (a : Account) : M W string :=
  call (CGetToken (email a));; liftE (getTokenForAccount E a).

Definition doGetProject (a : Account) (token : string) : M W string :=
  call (CGetProject (email a));; liftE (getProjectForAccount E a token).

Definition doClearTokenCache (em : string) : M W unit :=
  call (CClearTokenCache em);; updW (clearTokenCache E em).

Definition doClearProjectCache (em : string) : M W unit :=
  call (CClearProjectCache em);; updW (clearProjectCache E em).

Definition doMarkRateLimited (em : string) (resetMs : option Z) (m : string)
  : M W unit :=
  call (CMarkRateLimited em resetMs m);; updW (markRateLimited E em resetMs m).

Definition doFetch (url : string) (hdrs : list (string * string))
           (body : string) : M W Response :=
  call (CFetch url hdrs body);; liftE (fetch E url hdrs body).

(** [yield* streamSSEResponse(response, model)] inside its [try]: the
    events the streamer yields are passed on; the result is the error it
    raised, if any. *)
Definition doStream (response : Response) (m : string)
  : M W (option JsError) :=
  call (CStream response m);;
  '(evs, err) ← liftW (streamSSEResponse E response m);
  yieldAll evs;;
  mret err.

(** *** [emitEmptyResponseFallback] *)

Definition fallbackText : string :=
  "[No response after retries - please try again]".

Definition fallbackEvents (messageId m : string) : list Event :=
  [ VObj (<["message" :=
             VObj (<["usage" := VObj (<["output_tokens" := VNum 0%Z]>
                                      (<["input_tokens" := VNum 0%Z]> ∅))]>
                  (<["stop_sequence" := VNull]>
                  (<["stop_reason" := VNull]>
                  (<["model" := VStr m]>
                  (<["content" := VArr []]>
                  (<["role" := VStr "assistant"]>
                  (<["type" := VStr "message"]>
                  (<["id" := VStr messageId]> ∅))))))))]>
         (<["type" := VStr "message_start"]> ∅));
    VObj (<["content_block" :=
             VObj (<["text" := VStr EmptyString]> (<["type" := VStr "text"]> ∅))]>
         (<["index" := VNum 0%Z]>
         (<["type" := VStr "content_block_start"]> ∅)));
    VObj (<["delta" :=
             VObj (<["text" := VStr fallbackText]>
                  (<["type" := VStr "text_delta"]> ∅))]>
         (<["index" := VNum 0%Z]>
         (<["type" := VStr "content_block_delta"]> ∅)));
    VObj (<["index" := VNum 0%Z]>
         (<["type" := VStr "content_block_stop"]> ∅));
    VObj (<["usage" := VObj (<["output_tokens" := VNum 0%Z]> ∅)]>
         (<["delta" :=
             VObj (<["stop_sequence" := VNull]>
                  (<["stop_reason" := VStr "end_turn"]> ∅))]>
         (<["type" := VStr "message_delta"]> ∅)));
    VObj (<["type" := VStr "message_stop"]> ∅) ].

Definition emitEmptyResponseFallback (m : string) : M W unit :=
  hex ← liftW (randomHex16 E);
  yieldAll (fallbackEvents ("msg_" ++ hex) m).

(** *** The handler, for a fixed request *)

Section Request.
Variable anthropicRequest : AnthropicRequest.
Variable fallbackEnabled : bool.
(** The recursive call [sendMessageStream(request, accountManager, flag)]. *)
Variable self : AnthropicRequest -> bool -> M W unit.

#[local] Abbreviation theModel := (model anthropicRequest).

(** [`${endpoint}/v1internal:streamGenerateContent?alt=sse`] *)
Definition streamUrl (endpoint : string) : string :=
  endpoint ++ "/v1internal:streamGenerateContent?alt=sse".

Definition streamHeaders (token : string) : list (string * string) :=
  buildHeaders D token theModel "text/event-stream".

(** The [for (let emptyRetries = 0; emptyRetries <= MAX; emptyRetries++)]
    loop, entered at its condition with the current counter and
    response.  [Go tt] is the loop running out normally. *)
Fixpoint emptyRetryLoop (fuel : nat) (acct : Account) (url : string)
         (token : string) (payload : Payload)
         (emptyRetries : Z) (currentResponse : Response)
  : M W (Flow unit) :=
  match fuel with
  | O => diverge
  | S fuel' =>
    if (MAX_EMPTY_RESPONSE_RETRIES D <? emptyRetries)%Z then mret (Go tt)
    else
      streamError ← doStream currentResponse theModel;
      match streamError with
      | None => mret Return
      | Some streamError =>
        if negb (isEmptyResponseError D streamError) then throw streamError
        else if (MAX_EMPTY_RESPONSE_RETRIES D <=? emptyRetries)%Z then
          emitEmptyResponseFallback theModel;;
          mret Return
        else
          let backoffMs := (500 * 2 ^ emptyRetries)%Z in
          doSleep backoffMs;;
          refetched ← doFetch url (streamHeaders token)
                              (JSON_stringify D payload);
          if negb (ok refetched) then
            let retryErrorText := respText refetched in
            if (status refetched =? 429)%Z then
              let resetMs := parseResetTime D refetched retryErrorText in
              doMarkRateLimited (email acct) resetMs theModel;;
              throw (Error ("429 RESOURCE_EXHAUSTED during retry: "
                            ++ retryErrorText))
            else if (status refetched =? 401)%Z then
              doClearTokenCache (email acct);;
              doClearProjectCache (email acct);;
              throw (Error ("401 AUTH_INVALID during retry: "
                            ++ retryErrorText))
            else if (500 <=? status refetched)%Z then
              doSleep 1000;;
              again ← doFetch url (streamHeaders token)
                              (JSON_stringify D payload);
              if ok again then
                emptyRetryLoop fuel' acct url token payload
                               (emptyRetries - 1 + 1)%Z again
              else
                throw (Error ("Empty response retry failed: "
                              ++ JsString.ofZ (status again) ++ " - "
                              ++ retryErrorText))
            else
              throw (Error ("Empty response retry failed: "
                            ++ JsString.ofZ (status refetched) ++ " - "
                            ++ retryErrorText))
          else
            emptyRetryLoop fuel' acct url token payload
                           (emptyRetries + 1)%Z refetched
      end
  end.

(** The [try] block of one endpoint. *)
Definition endpointTry (fuel : nat) (acct : Account) (token : string)
           (payload : Payload) (endpoint : string) (lastError : LastError)
  : M W (Flow LastError) :=
  let url := streamUrl endpoint in
  response ← doFetch url (streamHeaders token) (JSON_stringify D payload);
  if negb (ok response) then
    let errorText := respText response in
    if (status response =? 401)%Z then
      doClearTokenCache (email acct);;
      doClearProjectCache (email acct);;
      mret (Go lastError)
    else if (status response =? 429)%Z then
      let resetMs := parseResetTime D response errorText in
      mret (Go (if replaces429 lastError resetMs
                then Last429 response errorText resetMs
                else lastError))
    else
      let lastError := LastErr (apiError (status response) errorText) in
      (if (500 <=? status response)%Z then doSleep 1000 else mret tt);;
      mret (Go lastError)
  else
    flow ← emptyRetryLoop fuel acct url token payload 0%Z response;
    match flow with
    | Return => mret Return
    | Go _ => mret (Go lastError)
    end.

(** The [catch (endpointError)] of one endpoint. *)
Definition endpointCatch (endpointError : JsError) : M W (Flow LastError) :=
  if isRateLimitError D endpointError then throw endpointError
  else if isEmptyResponseError D endpointError then throw endpointError
  else mret (Go (LastErr endpointError)).

(** [for (const endpoint of ANTIGRAVITY_ENDPOINT_FALLBACKS)] *)
Fixpoint endpointLoop (fuel : nat) (acct : Account) (token : string)
         (payload : Payload) (endpoints : list string)
         (lastError : LastError) : M W (Flow LastError) :=
  match endpoints with
  | [] => mret (Go lastError)
  | endpoint :: rest =>
      flow ← tryCatch
               (endpointTry fuel acct token payload endpoint lastError)
               endpointCatch;
      match flow with
      | Return => mret Return
      | Go lastError' =>
          endpointLoop fuel acct token payload rest lastError'
      end
  end.

(** The outer [try] block of one attempt. *)
Definition attemptTry (fuel : nat) (acct : Account) : M W (Flow unit) :=
  token ← doGetToken acct;
  project ← doGetProject acct token;
  let payload := buildCloudCodeRequest D anthropicRequest project in
  flow ← endpointLoop fuel acct token payload
                      (ANTIGRAVITY_ENDPOINT_FALLBACKS D) LastNone;
  match flow with
  | Return => mret Return
  | Go LastNone => mret (Go tt)
  | Go (Last429 _ errorText resetMs) =>
      doMarkRateLimited (email acct) resetMs theModel;;
      throw (Error ("Rate limited: " ++ errorText))
  | Go (LastErr e) => throw e
  end.

(** [error.message.includes('API error 5') || ...('500') || ...('503')] *)
Definition looksLike5xx (error : JsError) : bool :=
  JsString.includes "API error 5" (message error)
  || JsString.includes "500" (message error)
  || JsString.includes "503" (message error).

(** The outer [catch (error)] of one attempt; [Go tt] is [continue]. *)
Definition attemptCatch (error : JsError) : M W (Flow unit) :=
  if isRateLimitError D error then mret (Go tt)
  else if isAuthError D error then mret (Go tt)
  else if looksLike5xx error then
    doPickNext theModel;;
    mret (Go tt)
  else if isNetworkError D error then
    doSleep 1000;;
    doPickNext theModel;;
    mret (Go tt)
  else throw error.

(** [if (fallbackEnabled) { const fallbackModel = getFallbackModel(model);
    if (fallbackModel) { yield* sendMessageStream(...); return; } }]:
    [Return] when the nested call was made and finished, [Go tt] when
    no fallback applies. *)
Definition tryFallback : M W (Flow unit) :=
  if fallbackEnabled then
    match getFallbackModel D theModel with
    | Some fallbackModel =>
        if String.eqb fallbackModel EmptyString then mret (Go tt)
        else
          self (withModel anthropicRequest fallbackModel) false;;
          mret Return
    | None => mret (Go tt)
    end
  else mret (Go tt).

Definition resourceExhausted (allWaitMs : Z) (resetTime : string) : JsError :=
  Error ("RESOURCE_EXHAUSTED: Rate limited on " ++ theModel
         ++ ". Quota will reset after " ++ formatDuration D allWaitMs
         ++ ". Next available: " ++ resetTime).

(** The [if (!account) { ... }] block: "Handle all accounts
    rate-limited". *)
Definition selectWhenNone : M W (Flow Account) :=
  allLimited ← readW (isAllRateLimited E theModel);
  account ←
    (if allLimited : bool then
       allWaitMs ← readW (getMinWaitTimeMs E theModel);
       now ← readW (dateNow E);
       let resetTime := toISOString D (now + allWaitMs)%Z in
       if (MAX_WAIT_BEFORE_ERROR_MS D <? allWaitMs)%Z then
         throw (resourceExhausted allWaitMs resetTime)
       else
         doSleep allWaitMs;;
         doSleep 500;;
         doClearExpired;;
         account ← doPickNext theModel;
         match account with
         | Some _ => mret account
         | None =>
             doResetAll;;
             doPickNext theModel
         end
     else mret None);
  match account with
  | Some a => mret (Go a)
  | None =>
      flow ← tryFallback;
      match flow with
      | Return => mret Return
      | Go _ => throw (Error "No accounts available")
      end
  end.

(** Account selection at the head of one attempt. *)
Definition selectAccount : M W (Flow Account) :=
  '(stickyAccount, waitMs) ← doPickSticky theModel;
  account ←
    (match stickyAccount with
     | None =>
         if (0 <? waitMs)%Z then
           doSleep waitMs;;
           doClearExpired;;
           doGetCurrentSticky theModel
         else mret stickyAccount
     | Some _ => mret stickyAccount
     end);
  match account with
  | Some a => mret (Go a)
  | None => selectWhenNone
  end.

(** The statements after the attempt loop: "All retries exhausted". *)
Definition afterLoop : M W unit :=
  flow ← tryFallback;
  match flow with
  | Return => mret tt
  | Go _ => throw (Error "Max retries exceeded")
  end.

(** [for (let attempt = 0; attempt < maxAttempts; attempt++)], with
    [remaining = maxAttempts - attempt]. *)
Fixpoint attemptLoop (fuel : nat) (remaining : nat) : M W unit :=
  match remaining with
  | O => afterLoop
  | S remaining' =>
      selected ← selectAccount;
      match selected with
      | Return => mret tt
      | Go acct =>
          flow ← tryCatch (attemptTry fuel acct) attemptCatch;
          match flow with
          | Return => mret tt
          | Go _ => attemptLoop fuel remaining'
          end
      end
  end.

(** [Math.max(MAX_RETRIES, accountManager.getAccountCount() + 1)] *)
Definition maxAttempts (w : W) : Z :=
  Z.max (MAX_RETRIES D) (Z.of_nat (getAccountCount E w) + 1).

Definition sendMessageStreamBody (fuel : nat) : M W unit :=
  call (CEnter theModel fallbackEnabled);;
  attempts ← readW maxAttempts;
  attemptLoop fuel (Z.to_nat attempts).

End Request.

(** [sendMessageStream(anthropicRequest, accountManager, fallbackEnabled)].
    The fuel bounds the depth of the nested call and the iterations of
    the empty-response loop, the two places where the source has no
    bound of its own. *)
Fixpoint sendMessageStream (fuel : nat) (anthropicRequest : AnthropicRequest)
         (fallbackEnabled : bool) : M W unit :=
  match fuel with
  | O => diverge
  | S fuel' =>
      sendMessageStreamBody anthropicRequest fallbackEnabled
                            (sendMessageStream fuel') fuel'
  end.

End Handler.

End Stream.

(* ===================================================================== *)
(** * Specification vocabulary                                            *)
(* ===================================================================== *)

(** ** Storage *)

Import Storage.

Definition isDigit (c : ascii) : bool :=
  let n := nat_of_ascii c in (48 <=? n)%nat && (n <=? 57)%nat.

(** A name that starts with a letter is no array index. *)
Definition startsWithNonDigit (k : string) : Prop :=
  match k with
  | EmptyString => True
  | String c _ => isDigit c = false
  end.

Section StorageDefs.
Context {Num : Type}.
Variable num_truthy : Num -> bool.

(** The account records a config file stores: the elements of its
    [accounts] array. *)
Definition storedAccounts (file : ConfigFile Num) : list (JsVal Num) :=
  match file with
  | FileJson config =>
      match jsOr num_truthy (fieldOf config "accounts") (VArr []) with
      | VArr l => l
      | _ => []
      end
  | _ => []
  end.

(** [null] or [undefined]. *)
Definition isNullish (v : JsVal Num) : bool :=
  match v with
  | VUndef | VNull => true
  | _ => false
  end.

(** The load fails as a whole, and the [catch] returns no account: the file
    is missing, unreadable or not JSON; the parsed value is [null]; its
    [accounts] field is truthy and no array; or the array holds a [null]
    (or [undefined]) entry. *)
Definition loadFails (file : ConfigFile Num) : bool :=
  match file with
  | FileJson config =>
      isNullish config ||
      match jsOr num_truthy (fieldOf config "accounts") (VArr []) with
      | VArr l => existsb isNullish l
      | _ => true
      end
  | _ => true
  end.

(** What a loaded account [a] is to the stored record [acc]: it has the
    stored [email] and [source]; its [enabled] is [false] when the stored
    flag is the boolean [false] and [true] for every other stored value,
    an absent flag included; its [modelRateLimits] is the stored value when
    that is truthy, and an empty object otherwise. *)
Definition keepsStored (acc a : JsVal Num) : Prop :=
  fieldOf a "email" = fieldOf acc "email" /\
  fieldOf a "source" = fieldOf acc "source" /\
  (fieldOf acc "enabled" = VBool false -> fieldOf a "enabled" = VBool false) /\
  (fieldOf acc "enabled" <> VBool false -> fieldOf a "enabled" = VBool true) /\
  (truthy num_truthy (fieldOf acc "modelRateLimits") = true ->
   fieldOf a "modelRateLimits" = fieldOf acc "modelRateLimits") /\
  (truthy num_truthy (fieldOf acc "modelRateLimits") = false ->
   fieldOf a "modelRateLimits" = VObj ∅).

Definition invalidCleared (a : JsVal Num) : Prop :=
  fieldOf a "isInvalid" = VBool false /\ fieldOf a "invalidReason" = VNull.
End StorageDefs.


Section EnvDefs.
Context {Num : Type}.
Variable num_truthy : Num -> bool.
Variable isoAt : nat -> string.

(** [acc.refresh_token || acc.refreshToken] and [acc.api_key || acc.apiKey]. *)
Definition entryRefreshToken (acc : JsVal Num) : JsVal Num :=
  jsOr num_truthy (fieldOf acc "refresh_token") (fieldOf acc "refreshToken").

Definition entryApiKey (acc : JsVal Num) : JsVal Num :=
  jsOr num_truthy (fieldOf acc "api_key") (fieldOf acc "apiKey").

(** The entry has an email and at least one of refresh token or API key. *)
Definition entryAccepted (acc : JsVal Num) : bool :=
  truthy num_truthy (fieldOf acc "email") &&
  (truthy num_truthy (entryRefreshToken acc)
   || truthy num_truthy (entryApiKey acc)).

Definition entryAccount (k : nat) (acc : JsVal Num) : JsVal Num :=
  envAccount num_truthy (isoAt k) (fieldOf acc "email")
             (entryRefreshToken acc) (entryApiKey acc).

(** The account pushed for the entry [acc] at the [k]-th reading of the
    clock, field by field. *)
Definition loadedFromEntry (k : nat) (acc a : JsVal Num) : Prop :=
  fieldOf a "email" = fieldOf acc "email" /\
  fieldOf a "source" =
    VStr (if truthy num_truthy (entryApiKey acc) then "manual" else "oauth") /\
  fieldOf a "refreshToken" = entryRefreshToken acc /\
  fieldOf a "apiKey" = entryApiKey acc /\
  fieldOf a "enabled" = VBool true /\
  fieldOf a "isInvalid" = VBool false /\
  fieldOf a "invalidReason" = VNull /\
  fieldOf a "modelRateLimits" = VObj ∅ /\
  fieldOf a "lastUsed" = VNull /\
  fieldOf a "addedAt" = VStr (isoAt k) /\
  fieldOf a "fromEnv" = VBool true.

(** The fixed fields of an account loaded from the environment. *)
Definition envAccountShape (a : JsVal Num) : Prop :=
  fieldOf a "enabled" = VBool true /\
  fieldOf a "isInvalid" = VBool false /\
  fieldOf a "modelRateLimits" = VObj ∅ /\
  fieldOf a "source" =
    VStr (if truthy num_truthy (fieldOf a "apiKey") then "manual" else "oauth").
End EnvDefs.


(** ** Subscription tiers *)

Import ModelApi.

Section TierDefs.
Context {Num W : Type}.
Variable num_truthy : Num -> bool.
Variable fetch : Request -> W -> Fetched Num * W.
Variable JSON_stringify : JsVal Num -> string.
Variable HEADERS : gmap string string.

(** [data.paidTier?.id] and [data.currentTier?.id]. *)
Definition paidTierId (data : JsVal Num) : JsVal Num :=
  optProp (fieldOf data "paidTier") "id".

Definition currentTierId (data : JsVal Num) : JsVal Num :=
  optProp (fieldOf data "currentTier") "id".

Definition knownTier (t : string) : Prop :=
  t = "free" \/ t = "pro" \/ t = "ultra".

(** A response body the statements after [response.json()] can read: it is
    not [null], and the tier id they go by ([paidTier.id] when truthy,
    [currentTier.id] otherwise) is a string unless it is falsy. *)
Definition readable (data : JsVal Num) : bool :=
  negb (isNullish data) &&
  (if truthy num_truthy (paidTierId data) then isString (paidTierId data)
   else negb (truthy num_truthy (currentTierId data))
        || isString (currentTierId data)).

(** What the network answers to one [loadCodeAssist] request sent to
    [endpoint] in the world [w]: the parsed body of an ok response, when it
    is readable.  There is no answer when [fetch] rejects, the response is
    not ok, or its body does not parse or is not readable. *)
Definition answerAt (endpoint token : string) (w : W) : option (JsVal Num) :=
  match (fetch (loadCodeAssistRequest JSON_stringify HEADERS endpoint token) w).1
  with
  | FetchResponse true _ (Some data) =>
      if readable data then Some data else None
  | _ => None
  end.

(** The world that request leaves. *)
Definition worldAfterRequest (endpoint token : string) (w : W) : W :=
  (fetch (loadCodeAssistRequest JSON_stringify HEADERS endpoint token) w).2.

(** The world after one request to each of [endpoints], in order. *)
Definition worldAfterRequests (endpoints : list string) (token : string)
  (w : W) : W :=
  foldl (fun w' endpoint => worldAfterRequest endpoint token w') w endpoints.

(** Asked one after the other from the world [w], none of [endpoints]
    answers. *)
Fixpoint noneAnswers (endpoints : list string) (token : string) (w : W)
  : Prop :=
  match endpoints with
  | [] => True
  | endpoint :: rest =>
      answerAt endpoint token w = None /\
      noneAnswers rest token (worldAfterRequest endpoint token w)
  end.

(** The project of a response body: [cloudaicompanionProject] when it is a
    string, its [id] when that is truthy, [null] otherwise. *)
Definition projectOf (data : JsVal Num) : JsVal Num :=
  let project := fieldOf data "cloudaicompanionProject" in
  if isString project then project
  else if truthy num_truthy (optProp project "id") then optProp project "id"
  else VNull.
End TierDefs.


(** ** Traces of the streaming handler *)

Import Stream.

(** The calls that belong to the inside of one attempt: everything but an
    invocation record and a sticky selection. *)
Definition innerCall (c : Call) : Prop :=
  match c with
  | CEnter _ _ | CPickSticky _ => False
  | _ => True
  end.

Definition notEnter (c : Call) : Prop :=
  match c with
  | CEnter _ _ => False
  | _ => True
  end.

(** The number of sticky selections before the next invocation record: the
    attempts an invocation makes itself, not those of a nested call. *)
Fixpoint picksBeforeEnter (cs : list Call) : nat :=
  match cs with
  | [] => 0
  | CEnter _ _ :: _ => 0
  | CPickSticky _ :: rest => S (picksBeforeEnter rest)
  | _ :: rest => picksBeforeEnter rest
  end.

(** The selections an invocation makes itself: those after its own
    invocation record and before that of a nested call. *)
Definition ownAttempts (cs : list Call) : nat := picksBeforeEnter (tl cs).

(** All the sticky selections of a trace. *)
Fixpoint countPicks (cs : list Call) : nat :=
  match cs with
  | [] => 0
  | CPickSticky _ :: rest => S (countPicks rest)
  | _ :: rest => countPicks rest
  end.

(** The invocations of [sendMessageStream] in a trace, with their arguments. *)
Fixpoint enters (cs : list Call) : list (string * bool) :=
  match cs with
  | [] => []
  | CEnter m b :: rest => (m, b) :: enters rest
  | _ :: rest => enters rest
  end.

(** Properties of traces that hold of the empty trace and are kept by
    concatenation. *)
Class TraceClosed (T : list Call -> Prop) : Prop := {
  closed_nil : T [];
  closed_app : forall a b, T a -> T b -> T (a ++ b)%list
}.

(** The calls of every run of [m] satisfy [T]. *)
Definition Runs {W A} (T : list Call -> Prop) (m : M W A) : Prop :=
  forall w, T (calls (m w)).

(** No sticky selection of the invocation itself. *)
Definition noOwnPick (cs : list Call) : Prop := picksBeforeEnter cs = 0.

(** The nested invocations a run may contain: none, or one, of the fallback
    model, with fallback disabled. *)
Definition nestedOnce (D : Deps) (req : AnthropicRequest)
           (fallbackEnabled : bool) (es : list (string * bool)) : Prop :=
  es = [] \/
  (fallbackEnabled = true /\
   exists fm, getFallbackModel D (model req) = Some fm /\ es = [(fm, false)]).

(** A loop body that made a nested invocation does not carry on. *)
Definition stops {A} (o : Outcome (Flow A)) : Prop :=
  match o with
  | Normal (Go _) => False
  | _ => True
  end.

Definition nestedThenStops {W A} (D : Deps) (req : AnthropicRequest)
           (fallbackEnabled : bool) (r : Run W (Flow A)) : Prop :=
  enters (calls r) = [] \/
  (stops (outcome r) /\ nestedOnce D req fallbackEnabled (enters (calls r))).

(** The durations slept and the requests fetched, in order. *)
Fixpoint sleepsOf (cs : list Call) : list Z :=
  match cs with
  | [] => []
  | CSleep ms :: rest => ms :: sleepsOf rest
  | _ :: rest => sleepsOf rest
  end.

Fixpoint fetchesOf (cs : list Call)
  : list (string * list (string * string) * string) :=
  match cs with
  | [] => []
  | CFetch url hdrs body :: rest => (url, hdrs, body) :: fetchesOf rest
  | _ :: rest => fetchesOf rest
  end.

(** The call is not a request, or it is the request [(url, hdrs, body)]. *)
Definition sameRequest (url : string) (hdrs : list (string * string))
           (body : string) (c : Call) : Prop :=
  match c with
  | CFetch u h b => u = url /\ h = hdrs /\ b = body
  | _ => True
  end.

Fixpoint streamsOf (cs : list Call) : list Response :=
  match cs with
  | [] => []
  | CStream resp _ :: rest => resp :: streamsOf rest
  | _ :: rest => streamsOf rest
  end.

Section Scenarios.
Context {W : Type}.
Variable D : Deps.
Variable E : Env W.
Variable req : AnthropicRequest.

(** The request sent to one endpoint for an account's token and project. *)
Definition streamBody (project : string) : string :=
  JSON_stringify D (buildCloudCodeRequest D req project).

Section Streak.
Variables (url token body : string).

(** A streak of empty responses: streaming [resp] in world [w] yields
    no event and raises an EmptyResponseError, and so does each response
    of [refetched] in turn, each obtained with status ok by re-issuing
    the request after the backoff of retry [k], [k+1], ... *)
Fixpoint emptyStreak (refetched : list Response) (k : Z)
         (resp : Response) (w : W) : Prop :=
  let streamed := streamSSEResponse E resp (model req) w in
  streamed.1.1 = [] /\
  (exists e, streamed.1.2 = Some e /\ isEmptyResponseError D e = true) /\
  match refetched with
  | [] => True
  | resp' :: more =>
      ok resp' = true /\
      exists w',
        fetch E url (streamHeaders D req token) body
              (sleep E (500 * 2 ^ k) streamed.2) = (inr resp', w') /\
        emptyStreak more (k + 1) resp' w'
  end.

(** The world after the last streaming attempt of the streak. *)
Fixpoint streakEnd (refetched : list Response) (k : Z)
         (resp : Response) (w : W) : W :=
  let streamed := streamSSEResponse E resp (model req) w in
  match refetched with
  | [] => streamed.2
  | resp' :: more =>
      streakEnd more (k + 1) resp'
        (fetch E url (streamHeaders D req token) body
               (sleep E (500 * 2 ^ k) streamed.2)).2
  end.

(** The calls of the streak. *)
Fixpoint streakCalls (refetched : list Response) (k : Z) (resp : Response)
  : list Call :=
  CStream resp (model req) ::
  match refetched with
  | [] => []
  | resp' :: more =>
      CSleep (500 * 2 ^ k)
      :: CFetch url (streamHeaders D req token) body
      :: streakCalls more (k + 1) resp'
  end.
End Streak.

(** The first attempt of a request selects [acct] at once, resolves its
    token and project, gets an ok response [resp] from the first endpoint,
    and then meets a streak of [MAX_EMPTY_RESPONSE_RETRIES + 1] empty
    responses. *)
Record EmptyResponseScenario (w : W) (acct : Account) (token project : string)
       (endpoint : string) (resp : Response) (refetched : list Response)
       (w4 : W) : Prop := {
  scn_endpoint : exists rest, ANTIGRAVITY_ENDPOINT_FALLBACKS D = endpoint :: rest;
  scn_retries :
    Z.of_nat (List.length refetched) = MAX_EMPTY_RESPONSE_RETRIES D;
  scn_world :
    exists waitMs w1 w2 w3,
      pickStickyAccount E (model req) w = ((Some acct, waitMs), w1) /\
      getTokenForAccount E acct w1 = (inr token, w2) /\
      getProjectForAccount E acct token w2 = (inr project, w3) /\
      fetch E (streamUrl endpoint) (streamHeaders D req token)
            (streamBody project) w3 = (inr resp, w4);
  scn_ok : ok resp = true;
  scn_streak :
    emptyStreak (streamUrl endpoint) token (streamBody project)
                refetched 0 resp w4
}.
End Scenarios.

Definition eventType (ev : Event) : JsVal Z := fieldOf ev "type".

(** A complete message of one text block at index 0 that ends normally. *)
Definition oneTextBlockMessage (evs : list Event) : Prop :=
  exists start blockStart delta blockStop messageDelta stop,
    evs = [start; blockStart; delta; blockStop; messageDelta; stop] /\
    eventType start = VStr "message_start" /\
    (eventType blockStart = VStr "content_block_start" /\
     fieldOf blockStart "index" = VNum 0%Z /\
     fieldOf (fieldOf blockStart "content_block") "type" = VStr "text") /\
    (eventType delta = VStr "content_block_delta" /\
     fieldOf delta "index" = VNum 0%Z /\
     fieldOf (fieldOf delta "delta") "type" = VStr "text_delta") /\
    (eventType blockStop = VStr "content_block_stop" /\
     fieldOf blockStop "index" = VNum 0%Z) /\
    (eventType messageDelta = VStr "message_delta" /\
     fieldOf (fieldOf messageDelta "delta") "stop_reason" = VStr "end_turn") /\
    eventType stop = VStr "message_stop".

(** The earlier of two reset times, either of which may be missing. *)
Definition earlier (a b : option Z) : option Z :=
  match a, b with
  | Some x, Some y => Some (Z.min x y)
  | Some x, None => Some x
  | None, _ => b
  end.

(** The earliest reset time among those observed. *)
Definition earliestReset (resets : list (option Z)) : option Z :=
  foldr earlier None resets.

(** The reset time a response offers: the number [parseResetTime] finds in
    it, if it finds one other than 0. *)
Definition offered (resetMs : option Z) : option Z :=
  if resetTruthy resetMs then resetMs else None.

Section RateLimitScenario.
Context {W : Type}.
Variable D : Deps.
Variable E : Env W.
Variable req : AnthropicRequest.

Definition resetOf (resp : Response) : option Z :=
  parseResetTime D resp (respText resp).

Definition streamFetch (token project endpoint : string) : Call :=
  CFetch (streamUrl endpoint) (streamHeaders D req token)
         (streamBody D req project).

(** Every endpoint of the list answers 429: [resps] are the responses, in
    the order of the endpoints, from world [w] to world [wf]. *)
Fixpoint allAnswer429 (token project : string) (endpoints : list string)
         (resps : list Response) (w wf : W) : Prop :=
  match endpoints, resps with
  | [], [] => wf = w
  | endpoint :: rest, resp :: more =>
      status resp = 429%Z /\
      exists w',
        fetch E (streamUrl endpoint) (streamHeaders D req token)
              (streamBody D req project) w = (inr resp, w') /\
        allAnswer429 token project rest more w' wf
  | _, _ => False
  end.

(** An attempt that selects [acct] at once, resolves its token and
    project, and gets 429 from every endpoint; and [isRateLimitError]
    recognises the error the handler throws for the account. *)
Record AllEndpoints429 (w : W) (acct : Account) (token project : string)
       (resps : list Response) (wf : W) : Prop := {
  rl_endpoints : ANTIGRAVITY_ENDPOINT_FALLBACKS D <> [];
  rl_world :
    exists waitMs w1 w2 w3,
      pickStickyAccount E (model req) w = ((Some acct, waitMs), w1) /\
      getTokenForAccount E acct w1 = (inr token, w2) /\
      getProjectForAccount E acct token w2 = (inr project, w3) /\
      allAnswer429 token project (ANTIGRAVITY_ENDPOINT_FALLBACKS D)
                   resps w3 wf;
  rl_classified :
    forall errorText,
      isRateLimitError D (Error ("Rate limited: " ++ errorText)) = true
}.
End RateLimitScenario.

(** The value of [lastError] after the 429 answers [resps]. *)
Definition keep429 (D : Deps) (lastError : LastError) (resps : list Response)
  : LastError :=
  foldl (fun le resp =>
           if replaces429 le (resetOf D resp)
           then Last429 resp (respText resp) (resetOf D resp)
           else le)
        lastError resps.

(** The accounts an attempt was made with: those whose token was asked for. *)
Fixpoint triedAccounts (cs : list Call) : list string :=
  match cs with
  | [] => []
  | CGetToken em :: rest => em :: triedAccounts rest
  | _ :: rest => triedAccounts rest
  end.

Definition everyAccountTried (pool : list Account) (cs : list Call) : Prop :=
  forall a, In a pool -> In (email a) (triedAccounts cs).

Section Attempts.
Context {W : Type}.
Variable D : Deps.
Variable E : Env W.
Variable req : AnthropicRequest.
Variable fallbackEnabled : bool.
Variable self : AnthropicRequest -> bool -> M W unit.

(** [k] iterations of the attempt loop in a row, the first one starting in
    the world [w]: each of them selects an account and ends in [continue]
    (its [try] block or its [catch] carries on with the next iteration);
    [wk] is the world the last of them leaves. *)
Fixpoint attemptsContinue (fuel k : nat) (w wk : W) : Prop :=
  match k with
  | O => wk = w
  | S k' =>
      exists acct w1 c1 e1 w2 c2 e2,
        selectAccount D E req fallbackEnabled self w
        = mkRun (Normal (Go acct)) w1 c1 e1 /\
        tryCatch (attemptTry D E req fuel acct) (attemptCatch D E req) w1
        = mkRun (Normal (Go tt)) w2 c2 e2 /\
        attemptsContinue fuel k' w2 wk
  end.
End Attempts.

(** The calls of [pickNext] in a trace. *)
Definition pickNexts (cs : list Call) : nat :=
  List.length
    (List.filter (fun c => match c with CPickNext _ => true | _ => false end)
                 cs).

(** ** A simulated environment

    Stand-ins for the collaborators, to run the handler on concrete inputs:
    a pool that stays on its current account while that account is neither
    rate-limited nor removed, and an upstream that answers by URL and time. *)

Module Sim.

(** [limited] holds the rate-limited accounts with the time their limit
    ends; [upstream] answers a URL at a time of the clock; [streamed] is what
    streaming any response comes to. *)
Record World := mkWorld {
  pool : list Account;
  current : nat;
  limited : list (string * Z);
  upstream : Z -> string -> JsError + Response;
  streamed : list Event * option JsError;
  clock : Z
}.

Definition isLimited (w : World) (a : Account) : bool :=
  existsb (fun l => String.eqb l.1 (email a)) (limited w).

Definition usable (w : World) (a : Account) : bool := negb (isLimited w a).

Definition setCurrent (w : World) (i : nat) : World :=
  mkWorld (pool w) i (limited w) (upstream w) (streamed w) (clock w).

Definition setLimited (w : World) (l : list (string * Z)) : World :=
  mkWorld (pool w) (current w) l (upstream w) (streamed w) (clock w).

Definition currentSticky (w : World) : option Account :=
  match pool w !! current w with
  | Some a => if usable w a then Some a else None
  | None => None
  end.

(** The first usable account after the current one, going round. *)
Definition nextUsable (w : World) : option (nat * Account) :=
  let n := List.length (pool w) in
  list_find (fun ia : nat * Account => usable w ia.2 = true)
    ((fun k => let i := (current w + S k) mod n in
               (i, default (mkAccount EmptyString) (pool w !! i)))
       <$> seq 0 n)
  ≫= fun found => Some found.2.

Definition simPickNext (w : World) : option Account * World :=
  match nextUsable w with
  | Some (i, a) => (Some a, setCurrent w i)
  | None => (None, w)
  end.

Definition simPickSticky (w : World) : (option Account * Z) * World :=
  match currentSticky w with
  | Some a => ((Some a, 0%Z), w)
  | None => let '(a, w') := simPickNext w in ((a, 0%Z), w')
  end.

Definition simMinWait (w : World) : Z :=
  foldr (fun l acc => Z.min (l.2 - clock w) acc) 600000%Z (limited w).

Definition env : Env World := {|
  getAccountCount w := List.length (pool w);
  pickStickyAccount _ w := simPickSticky w;
  getCurrentStickyAccount _ w := (currentSticky w, w);
  pickNext _ w := simPickNext w;
  clearExpiredLimits w :=
    setLimited w (List.filter (fun l => (clock w <? l.2)%Z) (limited w));
  resetAllRateLimits w := setLimited w [];
  isAllRateLimited _ w := forallb (isLimited w) (pool w);
  getMinWaitTimeMs _ w := simMinWait w;
  getTokenForAccount a w := (inr ("token-of-" ++ email a), w);
  getProjectForAccount _ _ w := (inr "project-1", w);
  clearTokenCache _ w := w;
  clearProjectCache _ w := w;
  markRateLimited em resetMs _ w :=
    setLimited w ((em, clock w + default 60000%Z resetMs)%Z :: limited w);
  fetch url _ _ w := (upstream w (clock w) url, w);
  streamSSEResponse _ _ w := (streamed w, w);
  sleep ms w :=
    mkWorld (pool w) (current w) (limited w) (upstream w) (streamed w)
            (clock w + ms);
  dateNow w := clock w;
  randomHex16 w := ("000102030405060708090a0b0c0d0e0f", w)
|}.

Definition daily : string := "https://daily.example".
Definition prod : string := "https://prod.example".

Definition deps : Deps := {|
  ANTIGRAVITY_ENDPOINT_FALLBACKS := [daily; prod];
  MAX_RETRIES := 5;
  MAX_EMPTY_RESPONSE_RETRIES := 2;
  MAX_WAIT_BEFORE_ERROR_MS := 120000;
  isRateLimitError e :=
    JsString.includes "Rate limited" (message e)
    || JsString.includes "RESOURCE_EXHAUSTED" (message e);
  isAuthError e := JsString.includes "AUTH_INVALID" (message e);
  isEmptyResponseError e := String.eqb (errName e) "EmptyResponseError";
  isNetworkError e := JsString.includes "fetch failed" (message e);
  formatDuration ms := JsString.ofZ ms ++ "ms";
  toISOString t := "T+" ++ JsString.ofZ t;
  parseResetTime resp _ :=
    match respHeaders resp with
    | ("retry-after", "60") :: _ => Some 60000%Z
    | ("retry-after", "30") :: _ => Some 30000%Z
    | _ => None
    end;
  buildCloudCodeRequest r project :=
    VObj (<["request" := VObj (otherFields r)]>
         (<["model" := VStr (model r)]>
         (<["project" := VStr project]> ∅)));
  buildHeaders token _ accept :=
    [("Authorization", "Bearer " ++ token); ("Accept", accept)];
  JSON_stringify p :=
    match fieldOf p "project" with
    | VStr s => "payload-for-" ++ s
    | _ => "payload"
    end;
  getFallbackModel m :=
    if String.eqb m "claude-opus-4-5-thinking" then Some "gemini-3-pro-high"
    else if String.eqb m "gemini-3-pro-high" then Some "gemini-3-flash"
    else None
|}.

Definition alice : Account := mkAccount "alice@example.com".
Definition bob : Account := mkAccount "bob@example.com".

Definition request : AnthropicRequest :=
  mkAnthropicRequest "claude-sonnet-4-5" ∅.

Definition respond (st : Z) (hdrs : list (string * string)) (text : string)
  : JsError + Response :=
  inr (mkResponse st hdrs text).

Definition emptyError : JsError :=
  mkError "EmptyResponseError" "No content received from API".

(** Two usable accounts; every endpoint answers 401. *)
Definition unauthorized : World :=
  mkWorld [alice; bob] 0 [] (fun _ _ => respond 401 [] "unauthorized")
          ([], None) 0.

(** One account; every response is ok and streams nothing. *)
Definition silent : World :=
  mkWorld [alice] 0 [] (fun _ _ => respond 200 [] EmptyString)
          ([], Some emptyError) 0.

(** Both endpoints answer 429, offering 60 s and 30 s. *)
Definition throttled : World :=
  mkWorld [alice; bob] 0 []
          (fun _ url => if String.prefix daily url
                      then respond 429 [("retry-after", "60")] "quota"
                      else respond 429 [("retry-after", "30")] "quota")
          ([], None) 0.

(** The only account is rate-limited for five more minutes. *)
Definition exhausted : World :=
  mkWorld [alice] 0 [("alice@example.com", 300000%Z)]
          (fun _ _ => respond 200 [] EmptyString) ([], None) 0.

(** Every endpoint answers 503. *)
Definition unavailable : World :=
  mkWorld [alice; bob] 0 [] (fun _ _ => respond 503 [] "overloaded")
          ([], None) 0.

(** Every response streams nothing; a request made half a second after a
    multiple of 1.5 s is answered 503, any other request is answered ok. *)
Definition flapping (t : Z) : World :=
  mkWorld [alice] 0 []
          (fun now _ => if (now mod 1500 =? 500)%Z
                        then respond 503 [] "overloaded"
                        else respond 200 [] EmptyString)
          ([], Some emptyError) t.

Definition carol : Account := mkAccount "carol@example.com".
Definition dan : Account := mkAccount "dan@example.com".
Definition eve : Account := mkAccount "eve@example.com".

(** Five usable accounts; every endpoint answers 503. *)
Definition crowd : World :=
  mkWorld [alice; bob; carol; dan; eve] 0 []
          (fun _ _ => respond 503 [] "overloaded") ([], None) 0.

(** The first endpoint answers 401.  The second answers ok and streams
    nothing; from half a second on it answers 502. *)
Definition gatewayDown : World :=
  mkWorld [alice; bob] 0 []
          (fun now url => if String.prefix daily url
                          then respond 401 [] "unauthorized"
                          else if (now <? 500)%Z
                               then respond 200 [] EmptyString
                               else respond 502 [] "bad gateway")
          ([], Some emptyError) 0.

(** Every endpoint answers 503, with a text that names an exhausted
    resource. *)
Definition refusing : World :=
  mkWorld [alice; bob] 0 []
          (fun _ _ => respond 503 [] "RESOURCE_EXHAUSTED: no capacity")
          ([], None) 0.

(** A request for a model that has a fallback, whose fallback has one too. *)
Definition opusRequest : AnthropicRequest :=
  mkAnthropicRequest "claude-opus-4-5-thinking" ∅.

(** Responses of the simulated upstream. *)
Definition okEmpty : Response := mkResponse 200 [] EmptyString.
Definition quota60 : Response := mkResponse 429 [("retry-after", "60")] "quota".
Definition quota30 : Response := mkResponse 429 [("retry-after", "30")] "quota".

End Sim.

(** ** Sample inputs of the storage and tier functions, over integers *)

Module Sample.

Definition zTruthy (z : Z) : bool := negb (z =? 0)%Z.

Definition zGeLength (v : JsVal Z) (n : nat) : bool :=
  match v with
  | VNum z => (Z.of_nat n <=? z)%Z
  | _ => false
  end.

(** An account stored as disabled and invalid, with a rate limit. *)
Definition carol : JsVal Z :=
  VObj (<["modelRateLimits" :=
           VObj (<["claude-sonnet-4-5" :=
                    VObj (<["resetAt" := VNum 1700000000000%Z]> ∅)]> ∅)]>
       (<["invalidReason" := VStr "token revoked"]>
       (<["isInvalid" := VBool true]>
       (<["enabled" := VBool false]>
       (<["source" := VStr "oauth"]>
       (<["email" := VStr "carol@example.com"]> ∅)))))).

(** An account stored with an email only. *)
Definition dave : JsVal Z := VObj (<["email" := VStr "dave@example.com"]> ∅).

Definition config (stored : list (JsVal Z)) : JsVal Z :=
  VObj (<["activeIndex" := VNum 7%Z]> (<["accounts" := VArr stored]> ∅)).

Definition summary (a : JsVal Z) : list (JsVal Z) :=
  [fieldOf a "email"; fieldOf a "source"; fieldOf a "enabled";
   fieldOf a "isInvalid"; fieldOf a "invalidReason"].

(** Entries of PROXY_ACCOUNTS. *)
Definition withApiKey : JsVal Z :=
  VObj (<["api_key" := VStr "sk-1"]> (<["email" := VStr "erin@example.com"]> ∅)).
Definition withRefreshToken : JsVal Z :=
  VObj (<["refreshToken" := VStr "rt-1"]>
       (<["email" := VStr "frank@example.com"]> ∅)).
Definition withoutCredential : JsVal Z :=
  VObj (<["email" := VStr "gina@example.com"]> ∅).
Definition withoutEmail : JsVal Z := VObj (<["api_key" := VStr "sk-2"]> ∅).

Definition parsesTo (v : JsVal Z) (_ : string) : option (JsVal Z) := Some v.

(** Two texts of PROXY_ACCOUNTS, an array with the entry [withApiKey] and
    the same array with [null] after it, and [JSON.parse] on them. *)
Definition quoted (s : string) : string :=
  String (ascii_of_nat 34) (s ++ String (ascii_of_nat 34) EmptyString).

Definition withApiKeyText : string :=
  "{" ++ quoted "email" ++ ":" ++ quoted "erin@example.com" ++ ","
      ++ quoted "api_key" ++ ":" ++ quoted "sk-1" ++ "}".

Definition oneEntry : string := "[" ++ withApiKeyText ++ "]".
Definition entryThenNull : string := "[" ++ withApiKeyText ++ ",null]".

Definition parse (s : string) : option (JsVal Z) :=
  if String.eqb s oneEntry then Some (VArr [withApiKey])
  else if String.eqb s entryThenNull then Some (VArr [withApiKey; VNull])
  else None.

Definition reading (k : nat) : string := "reading-" ++ JsString.ofNat k.

(** A [loadCodeAssist] answer with both tiers and a project. *)
Definition codeAssist (paid current : string) : JsVal Z :=
  VObj (<["cloudaicompanionProject" := VStr "project-9"]>
       (<["currentTier" := VObj (<["id" := VStr current]> ∅)]>
       (<["paidTier" := VObj (<["id" := VStr paid]> ∅)]> ∅))).

(** The first endpoint is down, the second answers [data]. *)
Definition secondAnswers (data : JsVal Z) (r : Request) (w : unit)
  : Fetched Z * unit :=
  if String.prefix "https://daily.example" (url r)
  then (FetchResponse false 503 None, w)
  else (FetchResponse true 200 (Some data), w).

(** The first endpoint answers a body the code cannot read (its tier id is a
    number), the second answers [data]. *)
Definition firstUnreadable (data : JsVal Z) (r : Request) (w : nat)
  : Fetched Z * nat :=
  if String.prefix "https://daily.example" (url r)
  then (FetchResponse true 200
          (Some (VObj (<["paidTier" := VObj (<["id" := VNum 3%Z]> ∅)]> ∅))),
        S w)
  else (FetchResponse true 200 (Some data), S w).

Definition tierOf (data : JsVal Z) : Subscription Z :=
  (getSubscriptionTier zTruthy (secondAnswers data) (fun _ => EmptyString)
     ["https://daily.example"; "https://prod.example"] ∅ "token" tt).1.

End Sample.

(* ===================================================================== *)
(** * Part I, continued. The other functions of the three modules        *)
(* ===================================================================== *)

(** ** Model listing and quotas: [fetchAvailableModels], [listModels],
       [getModelQuotas] *)

Module Models.

(** What these functions throw: the [Error] raised when every endpoint
    failed, or the TypeError of reading a property of [null] or
    [undefined]. *)
Inductive Thrown :=
| AllEndpointsFailed
| TypeError.

Section Models.
Context {Num W : Type}.
Variable num_truthy : Num -> bool.
Variable fetch : Request -> W -> Fetched Num * W.
Variable JSON_stringify : JsVal Num -> string.
Variable ANTIGRAVITY_ENDPOINT_FALLBACKS : list string.
Variable ANTIGRAVITY_HEADERS : gmap string string.
(** [getModelFamily] of [constants.js]. *)
Variable getModelFamily : string -> string.
(** The order in which [Object.entries] enumerates the properties of an
    object (a finite map does not record it). *)
Variable ownEntries : gmap string (JsVal Num) -> list (string * JsVal Num).
(** [Math.floor(Date.now() / 1000)] at the k-th reading of the clock. *)
Variable epochAt : nat -> Num.

#[local] Abbreviation truthy := (truthy num_truthy).
#[local] Abbreviation jsOr := (jsOr num_truthy).

Definition isSupportedModel (modelId : string) : bool :=
  let family := getModelFamily modelId in
  String.eqb family "claude" || String.eqb family "gemini".

Definition fetchAvailableModelsRequest (endpoint token : string) : Request :=
  mkRequest (endpoint ++ "/v1internal:fetchAvailableModels") "POST"
            (requestHeaders ANTIGRAVITY_HEADERS token)
            (JSON_stringify (VObj ∅)).

(** One iteration of the endpoint loop: [Some] is the [return] inside the
    [try], [None] is [continue] or the [catch] (a response that is not ok,
    whether or not its text can be read, and a body that does not parse). *)
Definition tryModelsEndpoint (endpoint token : string) (w : W)
  : option (JsVal Num) * W :=
  let '(res, w') := fetch (fetchAvailableModelsRequest endpoint token) w in
  match res with
  | FetchRejects => (None, w')
  | FetchResponse ok _ json => if negb ok then (None, w') else (json, w')
  end.

Fixpoint modelsLoop (endpoints : list string) (token : string) (w : W)
  : (Thrown + JsVal Num) * W :=
  match endpoints with
  | [] => (inl AllEndpointsFailed, w)
  | endpoint :: rest =>
      match tryModelsEndpoint endpoint token w with
      | (Some data, w') => (inr data, w')
      | (None, w') => modelsLoop rest token w'
      end
  end.

Definition fetchAvailableModels (token : string) (w : W)
  : (Thrown + JsVal Num) * W :=
  modelsLoop ANTIGRAVITY_ENDPOINT_FALLBACKS token w.

(** [Object.entries(v)] for a value that is neither [null] nor
    [undefined]: the properties of an object, the indexed elements of an
    array, the indexed UTF-16 code units of a string, nothing otherwise. *)
Definition Object_entries (v : JsVal Num) : list (string * JsVal Num) :=
  match v with
  | VObj m => ownEntries m
  | VArr l => imap (fun i x => (JsString.ofNat i, x)) l
  | VStr s => imap (fun i x => (JsString.ofNat i, x)) (VStr <$> JsString.codeUnits s)
  | _ => []
  end.

(** [v ?? null] *)
Definition orNull (v : JsVal Num) : JsVal Num :=
  match v with
  | VUndef => VNull
  | _ => v
  end.

(** [{ remainingFraction: quotaInfo.remainingFraction ?? null,
       resetTime: quotaInfo.resetTime ?? null }] *)
Definition quotaOf (quotaInfo : JsVal Num) : JsVal Num :=
  VObj (<["resetTime" := orNull (fieldOf quotaInfo "resetTime")]>
       (<["remainingFraction" :=
            orNull (fieldOf quotaInfo "remainingFraction")]> ∅)).

(** [quotas[modelId] = value] on an object literal: the name '__proto__'
    sets the prototype and adds no property. *)
Definition assign (quotas : gmap string (JsVal Num)) (modelId : string)
           (value : JsVal Num) : gmap string (JsVal Num) :=
  if String.eqb modelId "__proto__" then quotas
  else <[modelId := value]> quotas.

(** [for (const [modelId, modelData] of Object.entries(data.models))] *)
Fixpoint quotaLoop (entries : list (string * JsVal Num))
         (quotas : gmap string (JsVal Num))
  : Thrown + gmap string (JsVal Num) :=
  match entries with
  | [] => inr quotas
  | (modelId, modelData) :: rest =>
      if negb (isSupportedModel modelId) then quotaLoop rest quotas
      else
        match getProp modelData "quotaInfo" with
        | None => inl TypeError
        | Some quotaInfo =>
            if truthy quotaInfo
            then quotaLoop rest (assign quotas modelId (quotaOf quotaInfo))
            else quotaLoop rest quotas
        end
  end.

(** [getModelQuotas], after the data was fetched. *)
Definition quotasOf (data : JsVal Num) : Thrown + gmap string (JsVal Num) :=
  if negb (truthy data) then inr ∅
  else
    let models := fieldOf data "models" in
    if negb (truthy models) then inr ∅
    else quotaLoop (Object_entries models) ∅.

Definition getModelQuotas (token : string) (w : W)
  : (Thrown + gmap string (JsVal Num)) * W :=
  match fetchAvailableModels token w with
  | (inl e, w') => (inl e, w')
  | (inr data, w') => (quotasOf data, w')
  end.

(** The object built for one model by the [map] callback of [listModels],
    at the k-th reading of the clock. *)
Definition modelEntry (k : nat) (modelId : string) (displayName : JsVal Num)
  : JsVal Num :=
  VObj (<["description" := jsOr displayName (VStr modelId)]>
       (<["owned_by" := VStr "anthropic"]>
       (<["created" := VNum (epochAt k)]>
       (<["object" := VStr "model"]>
       (<["id" := VStr modelId]> ∅))))).

(** [.map(([modelId, modelData]) => ({ ... }))] from the k-th call on. *)
Fixpoint describeFrom (k : nat) (entries : list (string * JsVal Num))
  : Thrown + list (JsVal Num) :=
  match entries with
  | [] => inr []
  | (modelId, modelData) :: rest =>
      match getProp modelData "displayName" with
      | None => inl TypeError
      | Some displayName =>
          match describeFrom (S k) rest with
          | inl e => inl e
          | inr tail => inr (modelEntry k modelId displayName :: tail)
          end
      end
  end.

(** [{ object: 'list', data: modelList }] *)
Definition modelList (data : list (JsVal Num)) : JsVal Num :=
  VObj (<["data" := VArr data]> (<["object" := VStr "list"]> ∅)).

(** [listModels], after the data was fetched. *)
Definition listOf (data : JsVal Num) : Thrown + list (JsVal Num) :=
  if negb (truthy data) then inr []
  else
    let models := fieldOf data "models" in
    if negb (truthy models) then inr []
    else describeFrom 0
           (List.filter (fun e => isSupportedModel e.1) (Object_entries models)).

Definition listModels (token : string) (w : W) : (Thrown + JsVal Num) * W :=
  match fetchAvailableModels token w with
  | (inl e, w') => (inl e, w')
  | (inr data, w') =>
      match listOf data with
      | inl e => (inl e, w')
      | inr l => (inr (modelList l), w')
      end
  end.

(** What the network answers to one [fetchAvailableModels] request sent to
    [endpoint] in the world [w]: the parsed body of an ok response.  There
    is no answer when [fetch] rejects, the response is not ok, or its body
    does not parse. *)
Definition modelsAnswerAt (endpoint token : string) (w : W)
  : option (JsVal Num) :=
  match (fetch (fetchAvailableModelsRequest endpoint token) w).1 with
  | FetchResponse true _ (Some data) => Some data
  | _ => None
  end.

(** The world that request leaves. *)
Definition modelsWorldAfterRequest (endpoint token : string) (w : W) : W :=
  (fetch (fetchAvailableModelsRequest endpoint token) w).2.

(** Asked one after the other from the world [w], none of [endpoints]
    answers. *)
Fixpoint modelsEndpointsFail (endpoints : list string) (token : string) (w : W)
  : Prop :=
  match endpoints with
  | [] => True
  | endpoint :: rest =>
      modelsAnswerAt endpoint token w = None /\
      modelsEndpointsFail rest token (modelsWorldAfterRequest endpoint token w)
  end.

(** The world after one request to each of [endpoints], in order. *)
Definition modelsWorldAfter (endpoints : list string) (token : string) (w : W)
  : W :=
  foldl (fun w endpoint => modelsWorldAfterRequest endpoint token w)
        w endpoints.

(** A model of the answer that gets a quota entry. *)
Definition hasQuota (entries : list (string * JsVal Num)) (id : string)
           (v : JsVal Num) : Prop :=
  id <> "__proto__" /\
  isSupportedModel id = true /\
  exists modelData,
    (id, modelData) ∈ entries /\
    truthy (fieldOf modelData "quotaInfo") = true /\
    v = quotaOf (fieldOf modelData "quotaInfo").

(** The [id] fields of a list of objects. *)
Definition idsOf (l : list (JsVal Num)) : list (JsVal Num) :=
  (fun a => fieldOf a "id") <$> l.

(** The entries of the answer that [listModels] shows. *)
Definition shownEntries (data : JsVal Num) : list (string * JsVal Num) :=
  List.filter (fun e => isSupportedModel e.1)
              (Object_entries (fieldOf data "models")).

End Models.

End Models.

(** ** Sample answers of the model API *)

Module SampleModels.

Definition family (modelId : string) : string :=
  if String.prefix "claude" modelId then "claude"
  else if String.prefix "gemini" modelId then "gemini"
  else "unknown".

(** An answer with a Claude model that has a quota and a display name, a
    Gemini model with an empty quota record, and an unsupported model. *)
Definition answer : JsVal Z :=
  VObj (<["models" :=
    VObj (<["chat-bison" :=
             VObj (<["quotaInfo" :=
                      VObj (<["remainingFraction" := VNum 1%Z]> ∅)]> ∅)]>
         (<["gemini-3-flash" :=
             VObj (<["quotaInfo" := VObj ∅]> ∅)]>
         (<["claude-sonnet-4-5" :=
             VObj (<["displayName" := VStr "Claude Sonnet 4.5"]>
                  (<["quotaInfo" :=
                      VObj (<["resetTime" := VStr "2026-01-01T00:00:00Z"]>
                           (<["remainingFraction" := VNum 1%Z]> ∅))]> ∅))]>
          ∅)))]> ∅).

(** The enumeration order of the samples: that of the finite map. *)
Definition entries (m : gmap string (JsVal Z)) : list (string * JsVal Z) :=
  map_to_list m.

Definition endpoints : list string :=
  ["https://daily.example"; "https://prod.example"].

Definition quotas : Models.Thrown + gmap string (JsVal Z) :=
  Models.quotasOf Sample.zTruthy family entries answer.

Definition listed : Models.Thrown + list (JsVal Z) :=
  Models.listOf Sample.zTruthy family entries (fun k => Z.of_nat k) answer.

Definition fetchedQuotas : (Models.Thrown + gmap string (JsVal Z)) * unit :=
  Models.getModelQuotas Sample.zTruthy (Sample.secondAnswers answer)
    (fun _ => EmptyString) endpoints ∅ family entries "token" tt.

Definition fetchedList : (Models.Thrown + JsVal Z) * unit :=
  Models.listModels Sample.zTruthy (Sample.secondAnswers answer)
    (fun _ => EmptyString) endpoints ∅ family entries (fun k => Z.of_nat k)
    "token" tt.

End SampleModels.

(** ** Account storage: [saveAccounts] and [loadDefaultAccount] *)

Module Saving.

(** The result of [loadDefaultAccount]: the accounts and the token cache, a
    [Map] from keys to entries in insertion order. *)
Record DefaultAccount (Num : Type) : Type := mkDefaultAccount {
  defaultAccounts : list (JsVal Num);
  tokenCache : list (JsVal Num * JsVal Num)
}.

Arguments mkDefaultAccount {Num}.
Arguments defaultAccounts {Num}.
Arguments tokenCache {Num}.

Section Saving.
Context {Num : Type}.
Variable num_truthy : Num -> bool.
(** What a number is read back as after [JSON.stringify] and [JSON.parse]:
    itself for a finite number, [null] for [NaN] and the infinities. *)
Variable num_json : Num -> JsVal Num.

#[local] Abbreviation truthy := (truthy num_truthy).
#[local] Abbreviation jsOr := (jsOr num_truthy).

(** [a === 'literal'] *)
Definition isStr (literal : string) (v : JsVal Num) : bool :=
  match v with
  | VStr s => String.eqb s literal
  | _ => false
  end.

(** The arrow function mapped over [accounts] by [saveAccounts]. *)
Definition saveAccountEntry (acc : JsVal Num) : option (JsVal Num) :=
  email ← getProp acc "email";
  source ← getProp acc "source";
  enabled ← getProp acc "enabled";
  dbPath ← getProp acc "dbPath";
  refreshToken ← getProp acc "refreshToken";
  apiKey ← getProp acc "apiKey";
  projectId ← getProp acc "projectId";
  addedAt ← getProp acc "addedAt";
  isInvalid ← getProp acc "isInvalid";
  invalidReason ← getProp acc "invalidReason";
  modelRateLimits ← getProp acc "modelRateLimits";
  lastUsed ← getProp acc "lastUsed";
  subscription ← getProp acc "subscription";
  quota ← getProp acc "quota";
  Some (VObj
    (<["quota" := jsOr quota (defaultQuota : JsVal Num)]>
    (<["subscription" := jsOr subscription unknownSubscription]>
    (<["lastUsed" := lastUsed]>
    (<["modelRateLimits" := jsOr modelRateLimits emptyObject]>
    (<["invalidReason" := jsOr invalidReason VNull]>
    (<["isInvalid" := jsOr isInvalid (VBool false)]>
    (<["addedAt" := jsOr addedAt VUndef]>
    (<["projectId" := jsOr projectId VUndef]>
    (<["apiKey" := if isStr "manual" source then apiKey else VUndef]>
    (<["refreshToken" := if isStr "oauth" source then refreshToken else VUndef]>
    (<["dbPath" := jsOr dbPath VNull]>
    (<["enabled" := VBool (notStrictlyFalse enabled)]>
    (<["source" := source]>
    (<["email" := email]> ∅))))))))))))))).

(** The object [config] built in the [try] block; [None] is a TypeError of
    [accounts.map]. *)
Definition savedConfig (accounts settings activeIndex : JsVal Num)
  : option (JsVal Num) :=
  entries ← jsMap saveAccountEntry accounts;
  Some (VObj (<["activeIndex" := activeIndex]>
             (<["settings" := settings]>
             (<["accounts" := VArr entries]> ∅)))).

(** [saveAccounts]: the value it serialises and hands to [writeFile], or
    [None] when it writes nothing ([mkdir] failed, or building the config
    raised; the [catch] logs the error).  [mkdirOk] tells whether
    [mkdir(dir, { recursive: true })] succeeds. *)
Definition saveAccounts (mkdirOk : bool)
           (accounts settings activeIndex : JsVal Num)
  : option (JsVal Num) :=
  if mkdirOk then savedConfig accounts settings activeIndex else None.

(** What [JSON.parse(JSON.stringify(v))] is for a value [v] other than
    [undefined]: a property whose value is [undefined] is left out, an
    array element that is [undefined] becomes [null]. *)
Fixpoint jsonValue (v : JsVal Num) : JsVal Num :=
  match v with
  | VUndef => VNull
  | VNull => VNull
  | VBool b => VBool b
  | VNum n => num_json n
  | VStr s => VStr s
  | VArr l => VArr (jsonValue <$> l)
  | VObj m =>
      VObj (omap (fun x => match x with
                           | VUndef => None
                           | _ => Some (jsonValue x)
                           end) m)
  end.

(** [loadDefaultAccount]; [authStatus] is what [getAuthStatus(dbPath)]
    comes to ([None] when it throws), [now] is [Date.now()]. *)
Definition loadDefaultAccount (authStatus : option (JsVal Num)) (now : Num)
  : DefaultAccount Num :=
  match authStatus with
  | Some authData =>
      let apiKey := optProp authData "apiKey" in
      if truthy apiKey then
        let email := jsOr (fieldOf authData "email")
                          (VStr "default@antigravity") in
        let account :=
          VObj (<["modelRateLimits" := emptyObject]>
               (<["lastUsed" := VNull]>
               (<["source" := VStr "database"]>
               (<["email" := email]> ∅)))) in
        mkDefaultAccount [account]
          [(fieldOf account "email",
            VObj (<["extractedAt" := VNum now]> (<["token" := apiKey]> ∅)))]
      else mkDefaultAccount [] []
  | None => mkDefaultAccount [] []
  end.

(** The property names [saveAccounts] writes for an account. *)
Definition savedNames : gset string :=
  list_to_set ["email"; "source"; "enabled"; "dbPath"; "refreshToken";
               "apiKey"; "projectId"; "addedAt"; "isInvalid";
               "invalidReason"; "modelRateLimits"; "lastUsed";
               "subscription"; "quota"].

End Saving.

End Saving.

(** ** Vocabulary for saved accounts *)

Section SavingDefs.
Context {Num : Type}.
Variable num_truthy : Num -> bool.

(** What the entry [e] written for the account [acc] holds: the listed
    names and no other, a boolean [enabled], and a credential only under
    the name that matches the account's source. *)
Definition savedFrom (acc e : JsVal Num) : Prop :=
  (exists m, e = VObj m /\ dom m = Saving.savedNames) /\
  fieldOf e "email" = fieldOf acc "email" /\
  fieldOf e "source" = fieldOf acc "source" /\
  fieldOf e "enabled" = VBool (notStrictlyFalse (fieldOf acc "enabled")) /\
  fieldOf e "refreshToken"
  = (if Saving.isStr "oauth" (fieldOf acc "source")
     then fieldOf acc "refreshToken" else VUndef) /\
  fieldOf e "apiKey"
  = (if Saving.isStr "manual" (fieldOf acc "source")
     then fieldOf acc "apiKey" else VUndef).

(** What the account [a], loaded from the entry saved for [acc], keeps of
    [acc], for an email, a source and credentials that are strings. *)
Definition reloadedFrom (acc a : JsVal Num) : Prop :=
  (forall s, fieldOf acc "email" = VStr s -> fieldOf a "email" = VStr s) /\
  (forall s, fieldOf acc "source" = VStr s -> fieldOf a "source" = VStr s) /\
  fieldOf a "enabled" = VBool (notStrictlyFalse (fieldOf acc "enabled")) /\
  fieldOf a "isInvalid" = VBool false /\
  fieldOf a "invalidReason" = VNull /\
  (forall t, fieldOf acc "source" = VStr "oauth" ->
             fieldOf acc "refreshToken" = VStr t ->
             fieldOf a "refreshToken" = VStr t) /\
  (forall t, fieldOf acc "source" = VStr "manual" ->
             fieldOf acc "apiKey" = VStr t ->
             fieldOf a "apiKey" = VStr t) /\
  (fieldOf acc "source" <> VStr "oauth" -> fieldOf a "refreshToken" = VUndef) /\
  (fieldOf acc "source" <> VStr "manual" -> fieldOf a "apiKey" = VUndef).

(** What the record [e] saved for an account loaded from the entry [acc]
    of PROXY_ACCOUNTS holds: the entry's email, no [fromEnv] mark, and one
    credential: the API key under source 'manual' when the entry has one,
    the refresh token under source 'oauth' otherwise. *)
Definition savedCredential (acc e : JsVal Num) : Prop :=
  fieldOf e "email" = fieldOf acc "email" /\
  fieldOf e "fromEnv" = VUndef /\
  (truthy num_truthy (entryApiKey num_truthy acc) = true ->
   fieldOf e "source" = VStr "manual" /\
   fieldOf e "apiKey" = entryApiKey num_truthy acc /\
   fieldOf e "refreshToken" = VUndef) /\
  (truthy num_truthy (entryApiKey num_truthy acc) = false ->
   fieldOf e "source" = VStr "oauth" /\
   fieldOf e "apiKey" = VUndef /\
   fieldOf e "refreshToken" = entryRefreshToken num_truthy acc).
End SavingDefs.

(** ** Sample inputs for saving *)

Module SampleSaving.

(** A manual account that also carries a refresh token and a field the
    storage does not know. *)
Definition heidi : JsVal Z :=
  VObj (<["sessionCookie" := VStr "c-1"]>
       (<["refreshToken" := VStr "rt-2"]>
       (<["apiKey" := VStr "sk-3"]>
       (<["source" := VStr "manual"]>
       (<["email" := VStr "heidi@example.com"]> ∅))))).

(** An oauth account, marked invalid. *)
Definition ivan : JsVal Z :=
  VObj (<["isInvalid" := VBool true]>
       (<["refreshToken" := VStr "rt-3"]>
       (<["source" := VStr "oauth"]>
       (<["email" := VStr "ivan@example.com"]> ∅)))).

Definition saved : option (JsVal Z) :=
  Saving.saveAccounts Sample.zTruthy true (VArr [heidi; ivan]) (VObj ∅)
                      (VNum 1%Z).

(** An entry of PROXY_ACCOUNTS with both credentials. *)
Definition bothCredentials : JsVal Z :=
  VObj (<["refresh_token" := VStr "rt-4"]>
       (<["api_key" := VStr "sk-4"]>
       (<["email" := VStr "judy@example.com"]> ∅))).

Definition fromEnv : list (JsVal Z) :=
  loadAccountsFromEnv Sample.zTruthy (Sample.parsesTo (VArr [bothCredentials]))
                      (fun _ => "2026-01-01T00:00:00.000Z") (Some "[...]").

End SampleSaving.

(** ** Vocabulary for loaded accounts *)

(** The property names [loadAccounts] sets itself on every account. *)
Definition normalisedNames : list string :=
  ["lastUsed"; "enabled"; "isInvalid"; "invalidReason"; "modelRateLimits";
   "subscription"; "quota"].

(** The loaded account [a] has every other property of the stored record
    [acc], an object, and no property besides those and the normalised
    ones. *)
Definition passesOtherFields {Num : Type} (acc a : JsVal Num) : Prop :=
  forall m, acc = VObj m ->
    exists m', a = VObj m' /\
      forall k, ~ In k normalisedNames -> m' !! k = m !! k.

(** ** Endpoint answers that are not ok *)

Section EndpointAnswers.
Context {W : Type}.
Variable D : Deps.
Variable E : Env W.
Variable req : AnthropicRequest.

(** An attempt starts: the sticky selection returns [acct] at once, and
    its token and project resolve; [w3] is the world the endpoint loop
    starts in. *)
Definition attemptStarts (w : W) (acct : Account) (token project : string)
           (w3 : W) : Prop :=
  exists waitMs w1 w2,
    pickStickyAccount E (model req) w = ((Some acct, waitMs), w1) /\
    getTokenForAccount E acct w1 = (inr token, w2) /\
    getProjectForAccount E acct token w2 = (inr project, w3).

Definition startCalls (acct : Account) : list Call :=
  [CPickSticky (model req); CGetToken (email acct); CGetProject (email acct)].

(** What the handler does with a response that is not ok: the world it
    leaves, the value of [lastError], and its calls. *)
Definition notOkWorld (acct : Account) (resp : Response) (w : W) : W :=
  if (status resp =? 401)%Z then
    clearProjectCache E (email acct) (clearTokenCache E (email acct) w)
  else if (status resp =? 429)%Z then w
  else if (500 <=? status resp)%Z then sleep E 1000 w
  else w.

Definition notOkLastError (lastError : LastError) (resp : Response)
  : LastError :=
  if (status resp =? 401)%Z then lastError
  else if (status resp =? 429)%Z then
    if replaces429 lastError (resetOf D resp)
    then Last429 resp (respText resp) (resetOf D resp)
    else lastError
  else LastErr (apiError (status resp) (respText resp)).

Definition notOkCalls (acct : Account) (token project endpoint : string)
           (resp : Response) : list Call :=
  streamFetch D req token project endpoint ::
  (if (status resp =? 401)%Z then
     [CClearTokenCache (email acct); CClearProjectCache (email acct)]
   else if (status resp =? 429)%Z then []
   else if (500 <=? status resp)%Z then [CSleep 1000]
   else []).

(** Every endpoint of the list answers, and no answer is ok: [resps] are
    the responses, in the order of the endpoints, from world [w] to world
    [wf]. *)
Fixpoint allAnswerNotOk (acct : Account) (token project : string)
         (endpoints : list string) (resps : list Response) (w wf : W)
  : Prop :=
  match endpoints, resps with
  | [], [] => wf = w
  | endpoint :: rest, resp :: more =>
      ok resp = false /\
      exists w',
        fetch E (streamUrl endpoint) (streamHeaders D req token)
              (streamBody D req project) w = (inr resp, w') /\
        allAnswerNotOk acct token project rest more
                       (notOkWorld acct resp w') wf
  | _, _ => False
  end.

Fixpoint answersCalls (acct : Account) (token project : string)
         (endpoints : list string) (resps : list Response) : list Call :=
  match endpoints, resps with
  | endpoint :: rest, resp :: more =>
      (notOkCalls acct token project endpoint resp
       ++ answersCalls acct token project rest more)%list
  | _, _ => []
  end.

(** The value of [lastError] after the answers [resps]. *)
Definition lastErrorAfter (lastError : LastError) (resps : list Response)
  : LastError :=
  foldl notOkLastError lastError resps.

(** How an attempt ends after the endpoint loop, by the value of
    [lastError]. *)
Definition verdict (acct : Account) (lastError : LastError) (w : W)
  : Run W (Flow unit) :=
  match lastError with
  | LastNone => mkRun (Normal (Go tt)) w [] []
  | Last429 _ errorText resetMs =>
      mkRun (Throws (Error ("Rate limited: " ++ errorText)))
            (markRateLimited E (email acct) resetMs (model req) w)
            [CMarkRateLimited (email acct) resetMs (model req)] []
  | LastErr e => mkRun (Throws e) w [] []
  end.

(** The value kept in [lastError] as a 429 is one of the answers. *)
Definition from429 (resps : list Response) (lastError : LastError) : Prop :=
  match lastError with
  | Last429 kept text reset =>
      In kept resps /\ status kept = 429%Z /\
      text = respText kept /\ reset = resetOf D kept
  | _ => True
  end.

End EndpointAnswers.

(** A call that changes what the pool thinks of an account: a rate-limit
    mark or a forced rotation. *)
Definition penalises (c : Call) : bool :=
  match c with
  | CMarkRateLimited _ _ _ | CPickNext _ => true
  | _ => false
  end.

(** A request goes to the streaming URL of one of the configured
    endpoints. *)
Definition toConfiguredEndpoint (D : Deps) (c : Call) : Prop :=
  match c with
  | CFetch url _ _ =>
      exists endpoint,
        In endpoint (ANTIGRAVITY_ENDPOINT_FALLBACKS D) /\
        url = endpoint ++ "/v1internal:streamGenerateContent?alt=sse"
  | _ => True
  end.

(** ** A simulated streamer with a script

    The environment of [Sim], with a streamer whose result depends on the
    text of the response, a pool in which an empty list of accounts is
    not "all rate-limited", and a pool that reports a wait of at most one
    second. *)

Module Scripted.

Definition started : Event := VObj (<["type" := VStr "message_start"]> ∅).
Definition stopped : Event := VObj (<["type" := VStr "message_stop"]> ∅).

Definition brokenStream : JsError := mkError "Error" "stream closed".

(** The text 'hello' streams a message, 'partial' streams its first event
    and breaks, any other text streams nothing. *)
Definition streamOf (resp : Response) : list Event * option JsError :=
  if String.eqb (respText resp) "hello" then ([started; stopped], None)
  else if String.eqb (respText resp) "partial"
       then ([started], Some brokenStream)
       else ([], Some Sim.emptyError).

Definition env : Env Sim.World := {|
  getAccountCount := getAccountCount Sim.env;
  pickStickyAccount := pickStickyAccount Sim.env;
  getCurrentStickyAccount := getCurrentStickyAccount Sim.env;
  pickNext := pickNext Sim.env;
  clearExpiredLimits := clearExpiredLimits Sim.env;
  resetAllRateLimits := resetAllRateLimits Sim.env;
  isAllRateLimited _ w :=
    match Sim.pool w with
    | [] => false
    | _ => forallb (Sim.isLimited w) (Sim.pool w)
    end;
  getMinWaitTimeMs _ w := Z.min (Sim.simMinWait w) 1000;
  getTokenForAccount := getTokenForAccount Sim.env;
  getProjectForAccount := getProjectForAccount Sim.env;
  clearTokenCache := clearTokenCache Sim.env;
  clearProjectCache := clearProjectCache Sim.env;
  markRateLimited := markRateLimited Sim.env;
  fetch := fetch Sim.env;
  streamSSEResponse resp _ w := (streamOf resp, w);
  sleep := sleep Sim.env;
  dateNow := dateNow Sim.env;
  randomHex16 := randomHex16 Sim.env
|}.

Definition world (upstream : Z -> string -> JsError + Response) : Sim.World :=
  Sim.mkWorld [Sim.alice; Sim.bob] 0 [] upstream ([], None) 0.

(** The first endpoint answers 429, the second streams 'hello'. *)
Definition secondServes : Sim.World :=
  world (fun _ url => if String.prefix Sim.daily url
                      then Sim.respond 429 [("retry-after", "60")] "quota"
                      else Sim.respond 200 [] "hello").

(** The first endpoint answers 429, the second 400. *)
Definition badRequest : Sim.World :=
  world (fun _ url => if String.prefix Sim.daily url
                      then Sim.respond 429 [("retry-after", "60")] "quota"
                      else Sim.respond 400 [] "bad request").

(** The stream of the first endpoint breaks, the second streams 'hello'. *)
Definition breaksThenServes : Sim.World :=
  world (fun _ url => if String.prefix Sim.daily url
                      then Sim.respond 200 [] "partial"
                      else Sim.respond 200 [] "hello").

(** An empty stream first; from half a second on, 429. *)
Definition emptyThenLimited : Sim.World :=
  world (fun now _ => if (now <? 500)%Z
                      then Sim.respond 200 [] EmptyString
                      else Sim.respond 429 [("retry-after", "30")] "quota").

(** No account at all. *)
Definition nobody : Sim.World :=
  Sim.mkWorld [] 0 [] (fun _ _ => Sim.respond 200 [] "hello") ([], None) 0.

(** The only account is rate-limited for five more seconds. *)
Definition limitedForLong : Sim.World :=
  Sim.mkWorld [Sim.alice] 0 [("alice@example.com", 5000%Z)]
              (fun _ _ => Sim.respond 200 [] "hello") ([], None) 0.

Definition quota60 : Response := Sim.quota60.
Definition badRequestResponse : Response := mkResponse 400 [] "bad request".
Definition helloResponse : Response := mkResponse 200 [] "hello".
Definition partialResponse : Response := mkResponse 200 [] "partial".

End Scripted.

(* ===================================================================== *)
(** * Part II. Theorems                                                   *)
(* ===================================================================== *)

Ltac read_named :=
  cbn [fieldOf];
  repeat (rewrite lookup_insert_ne by (intro; discriminate));
  try rewrite lookup_insert_eq; cbn [default].


(** ** Rendering of array indices *)

Lemma string_of_uint_head (d : Decimal.uint) :
  exists c rest, NilZero.string_of_uint d = String c rest /\ isDigit c = true.
Proof.
  destruct d; simpl; eexists _, _; split; try reflexivity; reflexivity.
Qed.

Lemma ofNat_head (i : nat) :
  exists c rest, JsString.ofNat i = String c rest /\ isDigit c = true.
Proof.
  unfold JsString.ofNat, JsString.ofZ.
  destruct (Z.of_nat i) eqn:Hz; [ | | lia ]; unfold Z.to_int;
    cbn [NilZero.string_of_int]; apply string_of_uint_head.
Qed.

Lemma ofNat_ne (i : nat) (k : string) : startsWithNonDigit k -> JsString.ofNat i <> k.
Proof.
  intros Hk Heq. destruct (ofNat_head i) as (c & rest & Hc & Hd).
  rewrite Hc in Heq. subst k. simpl in Hk. congruence.
Qed.

Section Values.
Context {Num : Type}.

Lemma indexed_lookup_name (l : list (JsVal Num)) (k : string) :
  startsWithNonDigit k -> indexed l !! k = None.
Proof.
  intros Hk. unfold indexed. apply not_elem_of_list_to_map_1.
  rewrite list_elem_of_fmap. intros ([k' v] & -> & Hin).
  apply elem_of_lookup_imap_1 in Hin as (i & x & Heq & _).
  inversion Heq; subst. simpl in Hk. eapply ofNat_ne; eauto.
Qed.

(** An object spread copies the named fields of its source. *)
Lemma spread_field (v : JsVal Num) (k : string) :
  startsWithNonDigit k ->
  default VUndef (spread v !! k) = fieldOf v k.
Proof.
  intros Hk. destruct v; simpl; try (rewrite lookup_empty; reflexivity);
    try reflexivity; rewrite indexed_lookup_name; auto.
Qed.
End Values.


(** ** Account storage *)

Section StorageProofs.
Context {Num : Type}.
Variable num_truthy : Num -> bool.
Variable num_zero : Num.
Variable geLength : JsVal Num -> nat -> bool.

Lemma getProp_not_nullish (v : JsVal Num) (k : string) :
  isNullish v = false -> getProp v k = Some (fieldOf v k).
Proof. destruct v; try reflexivity; discriminate. Qed.

Lemma getProp_nullish (v : JsVal Num) (k : string) :
  isNullish v = true -> getProp v k = None.
Proof. destruct v; try reflexivity; discriminate. Qed.

Lemma loadAccountEntry_inv (acc a : JsVal Num) :
  loadAccountEntry num_truthy acc = Some a ->
  invalidCleared a /\ keepsStored num_truthy acc a.
Proof.
  unfold loadAccountEntry. intros H.
  assert (Hp : forall k, getProp acc k = Some (fieldOf acc k)).
  { intros k. destruct acc; try reflexivity; discriminate. }
  rewrite !Hp in H. cbn in H. injection H as <-.
  unfold invalidCleared, keepsStored.
  repeat split.
  - read_named. reflexivity.
  - read_named. reflexivity.
  - read_named. apply spread_field. reflexivity.
  - read_named. apply spread_field. reflexivity.
  - intros Hb. read_named. rewrite Hb. reflexivity.
  - intros Hb. read_named.
    destruct (fieldOf acc "enabled") as [| |[|]| | | |]; try reflexivity.
    congruence.
  - intros Ht. read_named. unfold jsOr. rewrite Ht. reflexivity.
  - intros Ht. read_named. unfold jsOr. rewrite Ht. reflexivity.
Qed.

Lemma loadAccountEntry_nullish (acc : JsVal Num) :
  isNullish acc = true -> loadAccountEntry num_truthy acc = None.
Proof.
  intros Hn. unfold loadAccountEntry.
  rewrite (getProp_nullish acc "lastUsed" Hn). reflexivity.
Qed.

Lemma loadAccountEntry_is_Some (acc : JsVal Num) :
  isNullish acc = false -> is_Some (loadAccountEntry num_truthy acc).
Proof.
  intros Hn. unfold loadAccountEntry.
  rewrite !getProp_not_nullish by exact Hn. cbn. eauto.
Qed.

(** The [map] over the stored array completes exactly when no entry is
    [null] or [undefined]. *)
Lemma loadAccountEntries (stored : list (JsVal Num)) :
  if existsb isNullish stored
  then mapM (loadAccountEntry num_truthy) stored = None
  else is_Some (mapM (loadAccountEntry num_truthy) stored).
Proof.
  destruct (existsb isNullish stored) eqn:He.
  - apply mapM_None. apply existsb_exists in He as (acc & Hin & Hn).
    apply Exists_exists. exists acc. split; [by apply list_elem_of_In|].
    by apply loadAccountEntry_nullish.
  - apply mapM_is_Some. apply Forall_forall. intros acc Hin.
    apply loadAccountEntry_is_Some.
    destruct (isNullish acc) eqn:Hn; [|reflexivity].
    assert (existsb isNullish stored = true); [|congruence].
    apply existsb_exists. exists acc. split; [by apply list_elem_of_In|done].
Qed.

Lemma loadAccountsBody_accounts (config : JsVal Num) (loaded : Loaded Num) :
  loadAccountsBody num_truthy num_zero geLength config = Some loaded ->
  Forall2 (fun acc a => loadAccountEntry num_truthy acc = Some a)
          (storedAccounts num_truthy (FileJson config)) (accounts loaded).
Proof.
  unfold loadAccountsBody, storedAccounts. intros H.
  destruct (getProp config "accounts") as [stored|] eqn:Hs; [|discriminate].
  assert (stored = fieldOf config "accounts") as ->.
  { destruct config; try discriminate; cbn in Hs; injection Hs as <-;
      reflexivity. }
  cbn in H.
  destruct (jsOr num_truthy (fieldOf config "accounts") (VArr [])) eqn:Hj;
    try discriminate.
  cbn in H.
  destruct (mapM (loadAccountEntry num_truthy) l) as [accs|] eqn:Hm;
    [|discriminate].
  cbn in H.
  destruct (getProp config "settings"); [|discriminate]. cbn in H.
  destruct (getProp config "activeIndex"); [|discriminate]. cbn in H.
  injection H as <-. cbn. by apply mapM_Some.
Qed.

(** The [try] block completes exactly when the load does not fail. *)
Lemma loadAccountsBody_completes (config : JsVal Num) :
  if loadFails num_truthy (FileJson config)
  then loadAccountsBody num_truthy num_zero geLength config = None
  else is_Some (loadAccountsBody num_truthy num_zero geLength config).
Proof.
  unfold loadFails, loadAccountsBody.
  destruct (isNullish config) eqn:Hn; cbn [orb].
  - rewrite (getProp_nullish config "accounts" Hn). reflexivity.
  - rewrite !getProp_not_nullish by exact Hn. cbn [mbind option_bind].
    destruct (jsOr num_truthy (fieldOf config "accounts") (VArr []));
      try reflexivity.
    cbn [jsMap]. pose proof (loadAccountEntries l) as Hl.
    destruct (existsb isNullish l).
    + rewrite Hl. reflexivity.
    + destruct Hl as [accs ->]. cbn. eauto.
Qed.

End StorageProofs.

Section EnvProofs.
Context {Num : Type}.
Variable num_truthy : Num -> bool.
Variable JSON_parse : string -> option (JsVal Num).
Variable isoAt : nat -> string.

Lemma envLoop_spec (entries accounts : list (JsVal Num)) :
  envLoop num_truthy isoAt entries accounts =
  if existsb isNullish entries then None
  else Some (accounts ++
             imap (fun j => entryAccount num_truthy isoAt (List.length accounts + j))
                  (List.filter (entryAccepted num_truthy) entries))%list.
Proof.
  revert accounts. induction entries as [|acc rest IH]; intros accounts.
  - cbn. by rewrite app_nil_r.
  - cbn [envLoop existsb List.filter].
    destruct (isNullish acc) eqn:Hn.
    + rewrite (getProp_nullish acc "email") by done. reflexivity.
    + rewrite !getProp_not_nullish by done. cbn [mbind option_bind orb].
      unfold entryAccepted at 1.
      fold (entryRefreshToken num_truthy acc).
      fold (entryApiKey num_truthy acc).
      destruct (truthy num_truthy (fieldOf acc "email")) eqn:He;
        cbn [negb andb]; [|apply IH].
      destruct (truthy num_truthy (entryRefreshToken num_truthy acc)) eqn:Hr;
        destruct (truthy num_truthy (entryApiKey num_truthy acc)) eqn:Hk;
        cbn [negb andb orb]; try apply IH;
        rewrite IH; destruct (existsb isNullish rest); try reflexivity;
        rewrite <- app_assoc; cbn [app imap]; unfold entryAccount at 2;
        rewrite Nat.add_0_r; do 3 f_equal;
        apply imap_ext; intros j x _; cbn; f_equal;
        rewrite length_app; cbn; lia.
Qed.

Lemma envAccount_shape (stamp : string) (em rt key : JsVal Num) :
  envAccountShape num_truthy (envAccount num_truthy stamp em rt key).
Proof.
  unfold envAccountShape, envAccount. repeat split; read_named; reflexivity.
Qed.

Lemma entryAccount_fields (k : nat) (acc : JsVal Num) :
  loadedFromEntry num_truthy isoAt k acc (entryAccount num_truthy isoAt k acc).
Proof.
  unfold loadedFromEntry, entryAccount, envAccount.
  repeat split; read_named; reflexivity.
Qed.

End EnvProofs.

(** ** Subscription tiers *)

Section TierProofs.
Context {Num W : Type}.
Variable num_truthy : Num -> bool.
Variable fetch : Request -> W -> Fetched Num * W.
Variable JSON_stringify : JsVal Num -> string.
Variable ENDPOINTS : list string.
Variable HEADERS : gmap string string.

#[local] Abbreviation getTier :=
  (getSubscriptionTier num_truthy fetch JSON_stringify ENDPOINTS HEADERS).
#[local] Abbreviation tryOne :=
  (tryEndpoint num_truthy fetch JSON_stringify HEADERS).

Lemma classifyTier_known (s : string) : knownTier (classifyTier s).
Proof.
  unfold classifyTier, knownTier.
  destruct (JsString.includes "ultra" _); [tauto|].
  destruct (JsString.includes "pro" _); tauto.
Qed.

Lemma classifyTier_cases (s : string) :
  let lower := JsString.toLowerCase s in
  (JsString.includes "ultra" lower = true -> classifyTier s = "ultra") /\
  (JsString.includes "ultra" lower = false ->
   JsString.includes "pro" lower = true -> classifyTier s = "pro") /\
  (JsString.includes "ultra" lower = false ->
   JsString.includes "pro" lower = false -> classifyTier s = "free").
Proof.
  cbn zeta. unfold classifyTier.
  repeat split; intros; repeat match goal with H : _ = _ |- _ => rewrite H end;
    reflexivity.
Qed.

Lemma tierIdOf_eq (data tierId : JsVal Num) :
  tierIdOf num_truthy data = Some tierId ->
  tierId = jsOr num_truthy (paidTierId data) (currentTierId data).
Proof.
  unfold tierIdOf, jsOr, paidTierId, currentTierId.
  destruct data; try discriminate; cbn [getProp mbind option_bind];
    destruct (truthy num_truthy _); intros [= <-]; reflexivity.
Qed.

Lemma extractTier_inv (data : JsVal Num) (t : string) :
  extractTier num_truthy data = Some t ->
  let tierId := jsOr num_truthy (paidTierId data) (currentTierId data) in
  (truthy num_truthy tierId = false /\ t = "free") \/
  (truthy num_truthy tierId = true /\
   exists s, tierId = VStr s /\ t = classifyTier s).
Proof.
  unfold extractTier. intros H.
  destruct (tierIdOf num_truthy data) as [tierId|] eqn:Hid; [|discriminate].
  apply tierIdOf_eq in Hid. subst tierId. cbn zeta.
  cbn [mbind option_bind] in H.
  destruct (truthy num_truthy _) eqn:Ht.
  - right. split; [reflexivity|]. destruct (jsOr _ _ _); try discriminate.
    injection H as <-. eauto.
  - left. injection H as <-. auto.
Qed.

Lemma detectSubscription_tier (data : JsVal Num) (sub : Subscription Num) :
  detectSubscription num_truthy data = Some sub ->
  extractTier num_truthy data = Some (tier sub).
Proof.
  unfold detectSubscription.
  destruct (extractProjectId num_truthy data); [|discriminate].
  cbn [mbind option_bind].
  destruct (extractTier num_truthy data); [|discriminate].
  cbn [mbind option_bind]. intros [= <-]. reflexivity.
Qed.

Lemma tierLoop_result (endpoints : list string) (token : string) (w : W) :
  let sub := (tierLoop num_truthy fetch JSON_stringify HEADERS endpoints token w).1 in
  sub = freeSubscription \/
  exists data, detectSubscription num_truthy data = Some sub.
Proof.
  revert w. induction endpoints as [|e rest IH]; intros w; cbn zeta.
  - left. reflexivity.
  - cbn [tierLoop].
    destruct (tryOne e token w) as [[sub|] w'] eqn:Ht; [|apply IH].
    right. unfold tryEndpoint in Ht.
    destruct (fetch _ w) as [[|okk st [data|]] w1]; try discriminate;
      destruct okk; try discriminate; cbn in Ht.
    injection Ht as Hd _. eauto.
Qed.

Lemma tierLoop_all_fail (endpoints : list string) (token : string) (w : W) :
  allEndpointsFail num_truthy fetch JSON_stringify HEADERS endpoints token w ->
  (tierLoop num_truthy fetch JSON_stringify HEADERS endpoints token w).1
  = freeSubscription.
Proof.
  revert w. induction endpoints as [|e rest IH]; intros w; [reflexivity|].
  cbn [allEndpointsFail tierLoop]. intros [Hf Hrest].
  destruct (tryOne e token w) as [[sub|] w'] eqn:Ht; [discriminate|].
  apply IH. exact Hrest.
Qed.

Lemma detectSubscription_project (data : JsVal Num) (sub : Subscription Num) :
  detectSubscription num_truthy data = Some sub ->
  projectId sub = projectOf num_truthy data.
Proof.
  unfold detectSubscription, extractProjectId, projectOf.
  destruct (getProp data "cloudaicompanionProject") as [project|] eqn:Hp;
    [|discriminate].
  assert (project = fieldOf data "cloudaicompanionProject") as ->.
  { destruct data; try discriminate; cbn in Hp; by injection Hp as <-. }
  cbn [mbind option_bind].
  destruct (isString _); cbn [mbind option_bind];
    (destruct (extractTier num_truthy data); [|discriminate]);
    cbn [mbind option_bind]; intros [= <-]; reflexivity.
Qed.

(** The statements after [response.json()] complete exactly on a readable
    body. *)
Lemma detectSubscription_readable (data : JsVal Num) :
  if readable num_truthy data
  then is_Some (detectSubscription num_truthy data)
  else detectSubscription num_truthy data = None.
Proof.
  unfold readable, detectSubscription, extractProjectId, extractTier, tierIdOf.
  destruct (isNullish data) eqn:Hn; cbn [negb andb].
  - destruct data; try discriminate; reflexivity.
  - rewrite !getProp_not_nullish by exact Hn. cbn [mbind option_bind].
    fold (paidTierId data). fold (currentTierId data).
    assert (Hpid : forall (pid : JsVal Num) (t : option string),
      (pid' ← Some pid; t' ← t; Some (mkSubscription t' pid'))
      = (t' ← t; Some (mkSubscription t' pid))) by reflexivity.
    destruct (isString (fieldOf data "cloudaicompanionProject"));
      rewrite Hpid;
      destruct (truthy num_truthy (paidTierId data)) eqn:Hp;
      cbn [mbind option_bind]; rewrite ?Hp;
      try (destruct (paidTierId data); cbn; eauto; fail);
      destruct (truthy num_truthy (currentTierId data)) eqn:Hc;
      cbn [negb orb]; try (cbn; eauto; fail);
      destruct (currentTierId data); cbn; eauto.
Qed.

(** One iteration of the loop, read off the network's answer. *)
Lemma tryEndpoint_answer (endpoint token : string) (w : W) :
  tryOne endpoint token w
  = (match answerAt num_truthy fetch JSON_stringify HEADERS endpoint token w with
     | Some data => detectSubscription num_truthy data
     | None => None
     end,
     worldAfterRequest fetch JSON_stringify HEADERS endpoint token w).
Proof.
  unfold tryEndpoint, answerAt, worldAfterRequest.
  destruct (fetch _ w) as [[|okk st [data|]] w1]; cbn [fst snd];
    try reflexivity; destruct okk; cbn [negb]; try reflexivity.
  pose proof (detectSubscription_readable data) as Hr.
  destruct (readable num_truthy data); [reflexivity|]. by rewrite Hr.
Qed.

Lemma tierLoop_none_answers (endpoints : list string) (token : string) (w : W) :
  noneAnswers num_truthy fetch JSON_stringify HEADERS endpoints token w ->
  tierLoop num_truthy fetch JSON_stringify HEADERS endpoints token w
  = (freeSubscription,
     worldAfterRequests fetch JSON_stringify HEADERS endpoints token w).
Proof.
  revert w. induction endpoints as [|e rest IH]; intros w; [reflexivity|].
  cbn [noneAnswers tierLoop]. intros [Hf Hrest].
  rewrite tryEndpoint_answer, Hf. by rewrite IH.
Qed.

Lemma tierLoop_first_answer (before : list string) (endpoint : string)
  (later : list string) (token : string) (w : W) (data : JsVal Num) :
  noneAnswers num_truthy fetch JSON_stringify HEADERS before token w ->
  answerAt num_truthy fetch JSON_stringify HEADERS endpoint token
    (worldAfterRequests fetch JSON_stringify HEADERS before token w)
  = Some data ->
  exists sub,
    detectSubscription num_truthy data = Some sub /\
    tierLoop num_truthy fetch JSON_stringify HEADERS
             (before ++ endpoint :: later) token w
    = (sub,
       worldAfterRequest fetch JSON_stringify HEADERS endpoint token
         (worldAfterRequests fetch JSON_stringify HEADERS before token w)).
Proof.
  revert w. induction before as [|e rest IH]; intros w.
  - intros _ Ha. cbn [app tierLoop]. rewrite tryEndpoint_answer.
    cbn in Ha. rewrite Ha.
    assert (Hr : readable num_truthy data = true).
    { unfold answerAt in Ha.
      destruct (fetch _ w) as [[|[|] st [d|]] w1]; cbn in Ha;
        try discriminate.
      destruct (readable num_truthy d) eqn:Hd; [|discriminate].
      by injection Ha as <-. }
    pose proof (detectSubscription_readable data) as Hd. rewrite Hr in Hd.
    destruct Hd as [sub Hd]. exists sub. rewrite Hd. done.
  - cbn [noneAnswers]. intros [Hf Hrest] Ha.
    destruct (IH _ Hrest Ha) as (sub & Hd & Hl).
    exists sub. split; [exact Hd|].
    cbn [app tierLoop]. rewrite tryEndpoint_answer, Hf. exact Hl.
Qed.

End TierProofs.

(** ** The storage and tier functions on sample inputs *)

(** A string is spread by UTF-16 code units: a character of two UTF-8 bytes
    is one property, a character outside the basic plane is two. *)
Example spread_string_code_units :
  let eacute := String (ascii_of_nat 195) (String (ascii_of_nat 169) EmptyString) in
  let smiley :=
    String (ascii_of_nat 240) (String (ascii_of_nat 159)
      (String (ascii_of_nat 152) (String (ascii_of_nat 128) EmptyString))) in
  dom (spread (VStr ("a" ++ eacute) : JsVal Z)) = ({["0"; "1"]} : gset string)
  /\ spread (VStr ("a" ++ eacute) : JsVal Z) !! "1" = Some (VStr eacute)
  /\ dom (spread (VStr smiley : JsVal Z)) = ({["0"; "1"]} : gset string).
Proof. vm_compute. repeat split; reflexivity. Qed.

Example loadAccounts_sample :
  Sample.summary
    <$> accounts (loadAccounts Sample.zTruthy 0%Z Sample.zGeLength
                    (FileJson (Sample.config [Sample.carol; Sample.dave])))
  = [ [VStr "carol@example.com"; VStr "oauth"; VBool false; VBool false; VNull];
      [VStr "dave@example.com"; VUndef; VBool true; VBool false; VNull] ].
Proof. vm_compute. reflexivity. Qed.

Example loadAccounts_clamps_index :
  activeIndex (loadAccounts Sample.zTruthy 0%Z Sample.zGeLength
                 (FileJson (Sample.config [Sample.carol; Sample.dave])))
  = VNum 0%Z.
Proof. vm_compute. reflexivity. Qed.

Example loadAccounts_null_entry :
  accounts (loadAccounts Sample.zTruthy 0%Z Sample.zGeLength
              (FileJson (Sample.config [Sample.carol; VNull])))
  = [].
Proof. vm_compute. reflexivity. Qed.

Example loadAccounts_flag_not_boolean :
  (fun a => [fieldOf a "enabled"; fieldOf a "modelRateLimits"])
    <$> accounts (loadAccounts Sample.zTruthy 0%Z Sample.zGeLength
                    (FileJson (Sample.config
                       [VObj (<["modelRateLimits" := VNull]>
                             (<["enabled" := VNum 0%Z]> ∅))])))
  = [ [VBool true; VObj ∅] ].
Proof. vm_compute. reflexivity. Qed.

Example loadAccounts_accounts_not_array :
  accounts (loadAccounts Sample.zTruthy 0%Z Sample.zGeLength
              (FileJson (VObj (<["accounts" := VObj ∅]> ∅))))
  = [].
Proof. vm_compute. reflexivity. Qed.

Example loadAccountsFromEnv_sample :
  (fun a => [fieldOf a "email"; fieldOf a "source"; fieldOf a "addedAt"])
    <$> loadAccountsFromEnv Sample.zTruthy
          (Sample.parsesTo (VArr [Sample.withApiKey; Sample.withoutCredential;
                                  Sample.withoutEmail; Sample.withRefreshToken]))
          (fun k => "reading-" ++ JsString.ofNat k) (Some "[...]")
  = [ [VStr "erin@example.com"; VStr "manual"; VStr "reading-0"];
      [VStr "frank@example.com"; VStr "oauth"; VStr "reading-1"] ].
Proof. vm_compute. reflexivity. Qed.

(** Claim C9.  The claim fails on the code for an array with a [null]
    entry.  The entry [{ email: 'erin@example.com', api_key: 'sk-1' }] has
    an email and an API key, and an array that holds it alone is loaded as
    one 'manual' account.  With [null] after it, reading [null.email]
    raises a TypeError inside the loop, the [catch] written for the parse
    failure takes it, and [loadAccountsFromEnv] returns [[]]: the entry is
    not included. *)
Theorem loadAccountsFromEnv_null_entry_drops_all :
  let load :=
    loadAccountsFromEnv Sample.zTruthy Sample.parse Sample.reading in
  entryAccepted Sample.zTruthy Sample.withApiKey = true /\
  (fun a => [fieldOf a "email"; fieldOf a "source"])
    <$> load (Some Sample.oneEntry)
  = [ [VStr "erin@example.com"; VStr "manual"] ] /\
  load (Some Sample.entryThenNull) = [].
Proof. vm_compute. repeat split; reflexivity. Qed.

Example tier_paid_before_current :
  Sample.tierOf (Sample.codeAssist "g1-ULTRA-tier" "free-tier")
  = mkSubscription "ultra" (VStr "project-9").
Proof. vm_compute. reflexivity. Qed.

Example tier_ultra_before_pro :
  tier (Sample.tierOf (Sample.codeAssist "pro-ultra" "free-tier")) = "ultra"
  /\ tier (Sample.tierOf (Sample.codeAssist "standard-pro" "ultra")) = "pro"
  /\ tier (Sample.tierOf (Sample.codeAssist EmptyString "legacy")) = "free".
Proof. vm_compute. repeat split; reflexivity. Qed.

Example tier_after_unreadable_answer :
  getSubscriptionTier Sample.zTruthy
    (Sample.firstUnreadable (Sample.codeAssist "g1-pro-tier" "free-tier"))
    (fun _ => EmptyString) ["https://daily.example"; "https://prod.example"]
    ∅ "token" 0
  = (mkSubscription "pro" (VStr "project-9"), 2).
Proof. vm_compute. reflexivity. Qed.

(** ** The streaming handler: runs and traces *)


Section RunLemmas.
Context {W : Type}.

Lemma after_mkRun {A} c e (o : Outcome A) (w : W) c' e' :
  after c e (mkRun o w c' e') = mkRun o w (c ++ c') (e ++ e').
Proof. reflexivity. Qed.

Lemma after_after {A} c1 e1 c2 e2 (r : Run W A) :
  after c1 e1 (after c2 e2 r) = after (c1 ++ c2) (e1 ++ e2) r.
Proof. unfold after. cbn. by rewrite !app_assoc. Qed.

Lemma after_nil {A} (r : Run W A) : after [] [] r = r.
Proof. by destruct r. Qed.

Lemma bind_normal {A B} (m : M W A) (k : A -> M W B) w a w1 c e :
  m w = mkRun (Normal a) w1 c e ->
  (m ≫= k) w = after c e (k a w1).
Proof. intros H. unfold mbind, M_bind. rewrite H. reflexivity. Qed.

Lemma bind_throws {A B} (m : M W A) (k : A -> M W B) w x w1 c e :
  m w = mkRun (Throws x) w1 c e ->
  (m ≫= k) w = mkRun (Throws x) w1 c e.
Proof. intros H. unfold mbind, M_bind. rewrite H. reflexivity. Qed.

Lemma tryCatch_normal {A} (m : M W A) h w a w1 c e :
  m w = mkRun (Normal a) w1 c e ->
  tryCatch m h w = mkRun (Normal a) w1 c e.
Proof. intros H. unfold tryCatch. rewrite H. reflexivity. Qed.

Lemma tryCatch_throws {A} (m : M W A) h w x w1 c e :
  m w = mkRun (Throws x) w1 c e ->
  tryCatch m h w = after c e (h x w1).
Proof. intros H. unfold tryCatch. rewrite H. reflexivity. Qed.

Lemma calls_bind {A B} (m : M W A) (k : A -> M W B) w :
  calls ((m ≫= k) w) =
  (calls (m w) ++
   match outcome (m w) with
   | Normal a => calls (k a (final (m w)))
   | _ => []
   end)%list.
Proof.
  unfold mbind, M_bind. destruct (outcome (m w)); cbn; by rewrite ?app_nil_r.
Qed.

Lemma calls_tryCatch {A} (m : M W A) h w :
  calls (tryCatch m h w) =
  (calls (m w) ++
   match outcome (m w) with
   | Throws e => calls (h e (final (m w)))
   | _ => []
   end)%list.
Proof.
  unfold tryCatch. destruct (outcome (m w)); cbn; by rewrite ?app_nil_r.
Qed.

End RunLemmas.

#[global] Instance Forall_closed (P : Call -> Prop) : TraceClosed (Forall P).
Proof. split; [constructor | intros a b Ha Hb; apply Forall_app; auto]. Qed.

Lemma picksBeforeEnter_app (a b : list Call) :
  picksBeforeEnter (a ++ b) <= picksBeforeEnter a + picksBeforeEnter b.
Proof.
  induction a as [|c a IH]; cbn; [lia|]. destruct c; cbn; lia.
Qed.

#[global] Instance noOwnPick_closed : TraceClosed noOwnPick.
Proof.
  split; [reflexivity|]. unfold noOwnPick. intros a b Ha Hb.
  pose proof (picksBeforeEnter_app a b). lia.
Qed.

Lemma inner_noOwnPick (cs : list Call) : Forall innerCall cs -> noOwnPick cs.
Proof.
  unfold noOwnPick. induction 1 as [|c cs Hc _ IH]; [reflexivity|].
  destruct c; cbn; try exact IH; destruct Hc.
Qed.

Lemma inner_notEnter (cs : list Call) : Forall innerCall cs -> Forall notEnter cs.
Proof.
  intros H. eapply Forall_impl; [exact H|]. intros c; destruct c; cbn; auto.
Qed.

Lemma notEnter_enters (cs : list Call) : Forall notEnter cs -> enters cs = [].
Proof.
  induction 1 as [|c cs Hc _ IH]; [reflexivity|].
  destruct c; cbn; try exact IH; destruct Hc.
Qed.

Lemma enters_app (a b : list Call) : enters (a ++ b) = (enters a ++ enters b)%list.
Proof.
  induction a as [|c a IH]; [reflexivity|]. destruct c; cbn; by rewrite ?IH.
Qed.

Section Closure.
Context {W : Type} (T : list Call -> Prop) `{!TraceClosed T}.

Lemma Runs_bind {A B} (m : M W A) (k : A -> M W B) :
  Runs T m -> (forall a, Runs T (k a)) -> Runs T (m ≫= k).
Proof.
  intros Hm Hk w. rewrite calls_bind. apply closed_app; [apply Hm|].
  destruct (outcome (m w)); [apply Hk | apply closed_nil | apply closed_nil].
Qed.

Lemma Runs_tryCatch {A} (m : M W A) h :
  Runs T m -> (forall e, Runs T (h e)) -> Runs T (tryCatch m h).
Proof.
  intros Hm Hh w. rewrite calls_tryCatch. apply closed_app; [apply Hm|].
  destruct (outcome (m w)); [apply closed_nil | apply Hh | apply closed_nil].
Qed.

Lemma Runs_ret {A} (a : A) : Runs T (mret a : M W A).
Proof. intros w. apply closed_nil. Qed.

Lemma Runs_throw {A} e : Runs T (throw e : M W A).
Proof. intros w. apply closed_nil. Qed.

Lemma Runs_diverge {A} : Runs T (diverge : M W A).
Proof. intros w. apply closed_nil. Qed.

Lemma Runs_call c : T [c] -> Runs T (call c : M W unit).
Proof. intros H w. exact H. Qed.

Lemma Runs_yieldAll evs : Runs T (yieldAll evs : M W unit).
Proof. intros w. apply closed_nil. Qed.

Lemma Runs_readW {A} (f : W -> A) : Runs T (readW f).
Proof. intros w. apply closed_nil. Qed.

Lemma Runs_updW (f : W -> W) : Runs T (updW f).
Proof. intros w. apply closed_nil. Qed.

Lemma Runs_liftW {A} (f : W -> A * W) : Runs T (liftW f).
Proof. intros w. apply closed_nil. Qed.

Lemma Runs_liftE {A} (f : W -> (JsError + A) * W) : Runs T (liftE f).
Proof. intros w. unfold liftE. destruct (f w).1; apply closed_nil. Qed.
End Closure.

Lemma Runs_impl {W A} (T U : list Call -> Prop) (m : M W A) :
  (forall cs, T cs -> U cs) -> Runs T m -> Runs U m.
Proof. intros HTU Hm w. apply HTU, Hm. Qed.

Lemma inner_runs_noOwnPick {W A} (m : M W A) :
  Runs (Forall innerCall) m -> Runs noOwnPick m.
Proof. apply Runs_impl, inner_noOwnPick. Qed.

Lemma inner_runs_notEnter {W A} (m : M W A) :
  Runs (Forall innerCall) m -> Runs (Forall notEnter) m.
Proof. apply Runs_impl, inner_notEnter. Qed.

Create HintDb runs.
#[export] Hint Resolve Forall_closed noOwnPick_closed Runs_ret Runs_throw
  Runs_diverge Runs_yieldAll Runs_readW Runs_updW Runs_liftW Runs_liftE : runs.

(** Structural decomposition of a [Runs] goal along binds, handlers and case
    distinctions. *)
Ltac runs_step :=
  match goal with
  | |- Runs _ (mbind _ _) => apply Runs_bind; [apply _| |intros]
  | |- Runs _ (tryCatch _ _) => apply Runs_tryCatch; [apply _| |intros]
  | |- Runs (Forall _) (call _) =>
      apply Runs_call; constructor; [exact I | constructor]
  | |- Runs _ (if ?b then _ else _) => destruct b
  | |- Runs _ (match ?x with _ => _ end) => destruct x
  | |- Runs _ _ =>
      solve [ auto with runs
            | apply inner_runs_noOwnPick; auto with runs
            | apply inner_runs_notEnter; auto with runs ]
  end.

Ltac runs := repeat runs_step.

Section HandlerCalls.
Context {W : Type}.
Variable D : Deps.
Variable E : Env W.
Variable req : AnthropicRequest.

(** *** Runs of the primitive steps *)

Lemma doSleep_run ms w :
  doSleep E ms w = mkRun (Normal tt) (sleep E ms w) [CSleep ms] [].
Proof. reflexivity. Qed.

Lemma doPickSticky_run m w :
  doPickSticky E m w =
  mkRun (Normal (pickStickyAccount E m w).1) (pickStickyAccount E m w).2
        [CPickSticky m] [].
Proof. reflexivity. Qed.

Lemma doGetCurrentSticky_run m w :
  doGetCurrentSticky E m w =
  mkRun (Normal (getCurrentStickyAccount E m w).1)
        (getCurrentStickyAccount E m w).2 [CGetCurrentSticky m] [].
Proof. reflexivity. Qed.

Lemma doPickNext_run m w :
  doPickNext E m w =
  mkRun (Normal (pickNext E m w).1) (pickNext E m w).2 [CPickNext m] [].
Proof. reflexivity. Qed.

Lemma doClearExpired_run w :
  doClearExpired E w =
  mkRun (Normal tt) (clearExpiredLimits E w) [CClearExpired] [].
Proof. reflexivity. Qed.

Lemma doResetAll_run w :
  doResetAll E w = mkRun (Normal tt) (resetAllRateLimits E w) [CResetAll] [].
Proof. reflexivity. Qed.

Lemma doClearTokenCache_run em w :
  doClearTokenCache E em w =
  mkRun (Normal tt) (clearTokenCache E em w) [CClearTokenCache em] [].
Proof. reflexivity. Qed.

Lemma doClearProjectCache_run em w :
  doClearProjectCache E em w =
  mkRun (Normal tt) (clearProjectCache E em w) [CClearProjectCache em] [].
Proof. reflexivity. Qed.

Lemma doMarkRateLimited_run em r m w :
  doMarkRateLimited E em r m w =
  mkRun (Normal tt) (markRateLimited E em r m w) [CMarkRateLimited em r m] [].
Proof. reflexivity. Qed.

Lemma doGetToken_ok a w token w' :
  getTokenForAccount E a w = (inr token, w') ->
  doGetToken E a w = mkRun (Normal token) w' [CGetToken (email a)] [].
Proof.
  intros H. unfold doGetToken, liftE, call, mbind, M_bind. cbn.
  rewrite H. reflexivity.
Qed.

Lemma doGetProject_ok a token w project w' :
  getProjectForAccount E a token w = (inr project, w') ->
  doGetProject E a token w =
  mkRun (Normal project) w' [CGetProject (email a)] [].
Proof.
  intros H. unfold doGetProject, liftE, call, mbind, M_bind. cbn.
  rewrite H. reflexivity.
Qed.

Lemma doFetch_ok url hdrs body w resp w' :
  fetch E url hdrs body w = (inr resp, w') ->
  doFetch E url hdrs body w = mkRun (Normal resp) w' [CFetch url hdrs body] [].
Proof.
  intros H. unfold doFetch, liftE, call, mbind, M_bind. cbn.
  rewrite H. reflexivity.
Qed.

Lemma doFetch_err url hdrs body w e w' :
  fetch E url hdrs body w = (inl e, w') ->
  doFetch E url hdrs body w = mkRun (Throws e) w' [CFetch url hdrs body] [].
Proof.
  intros H. unfold doFetch, liftE, call, mbind, M_bind. cbn.
  rewrite H. reflexivity.
Qed.

Lemma doStream_run resp m w :
  doStream E resp m w =
  mkRun (Normal (streamSSEResponse E resp m w).1.2)
        (streamSSEResponse E resp m w).2
        [CStream resp m] (streamSSEResponse E resp m w).1.1.
Proof.
  unfold doStream, liftW, call, yieldAll, mbind, M_bind, mret, M_ret, after.
  cbn. destruct (streamSSEResponse E resp m w) as [[evs err] w']. cbn.
  by rewrite app_nil_r.
Qed.

Lemma emitEmptyResponseFallback_inner m :
  Runs (Forall innerCall) (emitEmptyResponseFallback E m).
Proof. unfold emitEmptyResponseFallback. runs. Qed.

Lemma doStream_inner r m : Runs (Forall innerCall) (doStream E r m).
Proof. unfold doStream. runs. Qed.

Lemma doFetch_inner u h b : Runs (Forall innerCall) (doFetch E u h b).
Proof. unfold doFetch. runs. Qed.

Lemma doSleep_inner ms : Runs (Forall innerCall) (doSleep E ms).
Proof. unfold doSleep. runs. Qed.

Lemma doMarkRateLimited_inner em r m :
  Runs (Forall innerCall) (doMarkRateLimited E em r m).
Proof. unfold doMarkRateLimited. runs. Qed.

Lemma doClearTokenCache_inner em : Runs (Forall innerCall) (doClearTokenCache E em).
Proof. unfold doClearTokenCache. runs. Qed.

Lemma doClearProjectCache_inner em :
  Runs (Forall innerCall) (doClearProjectCache E em).
Proof. unfold doClearProjectCache. runs. Qed.

Lemma doGetToken_inner a : Runs (Forall innerCall) (doGetToken E a).
Proof. unfold doGetToken. runs. Qed.

Lemma doGetProject_inner a t : Runs (Forall innerCall) (doGetProject E a t).
Proof. unfold doGetProject. runs. Qed.

Lemma doPickNext_inner m : Runs (Forall innerCall) (doPickNext E m).
Proof. unfold doPickNext. runs. Qed.

Lemma doClearExpired_inner : Runs (Forall innerCall) (doClearExpired E).
Proof. unfold doClearExpired. runs. Qed.

Lemma doResetAll_inner : Runs (Forall innerCall) (doResetAll E).
Proof. unfold doResetAll. runs. Qed.

Lemma doGetCurrentSticky_inner m : Runs (Forall innerCall) (doGetCurrentSticky E m).
Proof. unfold doGetCurrentSticky. runs. Qed.

Hint Resolve emitEmptyResponseFallback_inner doStream_inner doFetch_inner
  doSleep_inner doMarkRateLimited_inner doClearTokenCache_inner
  doClearProjectCache_inner doGetToken_inner doGetProject_inner
  doPickNext_inner doClearExpired_inner doResetAll_inner
  doGetCurrentSticky_inner : runs.

Lemma emptyRetryLoop_inner fuel acct url token payload k resp :
  Runs (Forall innerCall) (emptyRetryLoop D E req fuel acct url token payload k resp).
Proof.
  revert k resp. induction fuel as [|fuel IH]; intros k resp; cbn [emptyRetryLoop].
  - runs.
  - runs.
Qed.

Hint Resolve emptyRetryLoop_inner : runs.

Lemma endpointTry_inner fuel acct token payload endpoint lastError :
  Runs (Forall innerCall)
       (endpointTry D E req fuel acct token payload endpoint lastError).
Proof. unfold endpointTry. runs. Qed.

Lemma endpointCatch_inner e :
  Runs (Forall innerCall) (endpointCatch D (W:=W) e).
Proof. unfold endpointCatch. runs. Qed.

Hint Resolve endpointTry_inner endpointCatch_inner : runs.

Lemma endpointLoop_inner fuel acct token payload endpoints lastError :
  Runs (Forall innerCall)
       (endpointLoop D E req fuel acct token payload endpoints lastError).
Proof.
  revert lastError. induction endpoints as [|endpoint rest IH];
    intros lastError; cbn [endpointLoop]; runs.
Qed.

Hint Resolve endpointLoop_inner : runs.

Lemma attemptTry_inner fuel acct :
  Runs (Forall innerCall) (attemptTry D E req fuel acct).
Proof. unfold attemptTry. runs. Qed.

Lemma attemptCatch_inner e :
  Runs (Forall innerCall) (attemptCatch D E req e).
Proof. unfold attemptCatch. runs. Qed.

(** One attempt, once its account is selected, makes only inner calls. *)
Lemma attempt_inner fuel acct :
  Runs (Forall innerCall)
       (tryCatch (attemptTry D E req fuel acct) (attemptCatch D E req)).
Proof.
  apply Runs_tryCatch; [apply _ | apply attemptTry_inner
                       | apply attemptCatch_inner].
Qed.

(** *** Attempts of one invocation *)

Section OwnPicks.
Variable fallbackEnabled : bool.
Variable self : AnthropicRequest -> bool -> M W unit.
Hypothesis self_noOwnPick : forall r b, Runs noOwnPick (self r b).

Hint Resolve self_noOwnPick : runs.

Lemma tryFallback_noOwnPick :
  Runs noOwnPick (tryFallback D req fallbackEnabled self).
Proof. unfold tryFallback. runs. Qed.

Hint Resolve tryFallback_noOwnPick : runs.

Lemma selectWhenNone_noOwnPick :
  Runs noOwnPick (selectWhenNone D E req fallbackEnabled self).
Proof. unfold selectWhenNone. runs. Qed.

Lemma afterLoop_noOwnPick :
  Runs noOwnPick (afterLoop D req fallbackEnabled self).
Proof. unfold afterLoop. runs. Qed.

Lemma selectAccount_picks w :
  picksBeforeEnter (calls (selectAccount D E req fallbackEnabled self w)) <= 1.
Proof.
  unfold selectAccount.
  rewrite (bind_normal _ _ _ _ _ _ _ (doPickSticky_run _ _)).
  cbn [after calls app picksBeforeEnter].
  match goal with
  | |- S (picksBeforeEnter (calls (?m ?w'))) <= 1 =>
      enough (Runs noOwnPick m) as ->; [lia|]
  end.
  destruct (pickStickyAccount E (model req) w).1 as [sticky waitMs].
  pose proof selectWhenNone_noOwnPick. runs.
Qed.

Lemma attemptLoop_picks fuel n w :
  picksBeforeEnter
    (calls (attemptLoop D E req fallbackEnabled self fuel n w)) <= n.
Proof.
  revert w. induction n as [|n IH]; intros w; cbn [attemptLoop].
  - rewrite afterLoop_noOwnPick. lia.
  - rewrite calls_bind.
    pose proof (selectAccount_picks w) as Hsel.
    set (sel := selectAccount D E req fallbackEnabled self w) in *.
    etransitivity; [apply picksBeforeEnter_app|].
    enough (picksBeforeEnter
              match outcome sel with
              | Normal a =>
                  calls
                    (match a with
                     | Return => mret ()
                     | Go acct =>
                         tryCatch (attemptTry D E req fuel acct)
                                  (attemptCatch D E req)
                         ≫= λ flow,
                           match flow with
                           | Return => mret ()
                           | Go _ =>
                               attemptLoop D E req fallbackEnabled self
                                           fuel n
                           end
                     end (final sel))
              | _ => []
              end <= n) by lia.
    destruct (outcome sel) as [[|acct]| |]; cbn; try lia.
    rewrite calls_bind.
    etransitivity; [apply picksBeforeEnter_app|].
    rewrite (inner_noOwnPick _ (attempt_inner fuel acct (final sel))).
    destruct (outcome _) as [[|u]| |]; cbn; try lia. apply IH.
Qed.
End OwnPicks.

(** *** Nested invocations *)

Section Nested.
Variable fallbackEnabled : bool.
Variable self : AnthropicRequest -> bool -> M W unit.
Hypothesis self_enters : forall r w,
  enters (calls (self r false w)) = [] \/
  enters (calls (self r false w)) = [(model r, false)].

#[local] Abbreviation nestedOnce := (nestedOnce D req fallbackEnabled).
#[local] Abbreviation nestedThenStops :=
  (nestedThenStops D req fallbackEnabled).

Lemma outcome_bind {A B} (m : M W A) (k : A -> M W B) w :
  outcome ((m ≫= k) w) =
  match outcome (m w) with
  | Normal a => outcome (k a (final (m w)))
  | Throws e => Throws e
  | Diverges => Diverges
  end.
Proof. unfold mbind, M_bind. destruct (outcome (m w)); reflexivity. Qed.

Lemma nested_bind_silent {A B} (m : M W A) (k : A -> M W (Flow B)) w :
  Runs (Forall notEnter) m ->
  (forall a w', nestedThenStops (k a w')) ->
  nestedThenStops ((m ≫= k) w).
Proof.
  intros Hm Hk. unfold nestedThenStops.
  rewrite calls_bind, enters_app, outcome_bind.
  rewrite (notEnter_enters _ (Hm w)). cbn [app].
  destruct (outcome (m w)); [apply Hk | by left | by left].
Qed.

Lemma tryFallback_nested w :
  nestedThenStops (tryFallback D req fallbackEnabled self w).
Proof.
  unfold tryFallback, nestedThenStops, nestedOnce.
  destruct fallbackEnabled; [|by left].
  destruct (getFallbackModel D (model req)) as [fm|] eqn:Hfm; [|by left].
  destruct (String.eqb fm EmptyString); [by left|].
  rewrite calls_bind, outcome_bind, enters_app.
  assert (Hnil : enters
            match outcome (self (withModel req fm) false w) with
            | Normal _ => calls (mret (M:=M W) (Return (A:=unit))
                                      (final (self (withModel req fm) false w)))
            | _ => []
            end = []).
  { destruct (outcome _); reflexivity. }
  rewrite Hnil, app_nil_r.
  destruct (self_enters (withModel req fm) w) as [->| ->]; [by left|].
  right. split.
  - destruct (outcome _); exact I.
  - right. split; [reflexivity|]. exists fm. split; reflexivity.
Qed.

Lemma selectWhenNone_nested w :
  nestedThenStops (selectWhenNone D E req fallbackEnabled self w).
Proof.
  unfold selectWhenNone.
  apply nested_bind_silent; [runs|]. intros allLimited w1.
  apply nested_bind_silent; [runs|]. intros [a|] w2; [by left|].
  pose proof (tryFallback_nested w2) as H. unfold nestedThenStops in *.
  rewrite calls_bind, outcome_bind.
  destruct (outcome (tryFallback D req fallbackEnabled self w2))
    as [[|u]| |]; cbn [calls mret M_ret throw]; rewrite ?app_nil_r;
    destruct H as [H|[Hs H]]; auto; try destruct Hs;
    try (right; split; [exact I | exact H]).
Qed.

Lemma selectAccount_nested w :
  nestedThenStops (selectAccount D E req fallbackEnabled self w).
Proof.
  unfold selectAccount.
  apply nested_bind_silent.
  { unfold doPickSticky. runs. }
  intros [sticky waitMs] w1.
  apply nested_bind_silent; [runs|].
  intros [a|] w2; [by left | apply selectWhenNone_nested].
Qed.

Lemma nestedThenStops_once {A} (r : Run W (Flow A)) :
  nestedThenStops r -> nestedOnce (enters (calls r)).
Proof. intros [->|[_ H]]; [by left | exact H]. Qed.

Lemma afterLoop_nested w :
  nestedOnce (enters (calls (afterLoop D req fallbackEnabled self w))).
Proof.
  unfold afterLoop. rewrite calls_bind.
  pose proof (nestedThenStops_once _ (tryFallback_nested w)) as H.
  destruct (outcome _) as [[|u]| |]; cbn [calls mret M_ret throw];
    rewrite app_nil_r; exact H.
Qed.

Lemma attemptLoop_nested fuel n w :
  nestedOnce
    (enters (calls (attemptLoop D E req fallbackEnabled self fuel n w))).
Proof.
  revert w. induction n as [|n IH]; intros w; cbn [attemptLoop];
    [apply afterLoop_nested|].
  rewrite calls_bind, enters_app.
  pose proof (selectAccount_nested w) as Hsel.
  set (sel := selectAccount D E req fallbackEnabled self w) in *.
  destruct Hsel as [Hnil|[Hstop Honce]].
  - rewrite Hnil. cbn [app].
    destruct (outcome sel) as [[|acct]| |]; try by left.
    rewrite calls_bind, enters_app.
    rewrite (notEnter_enters _
               (inner_notEnter _ (attempt_inner fuel acct (final sel)))).
    cbn [app].
    destruct (outcome _) as [[|u]| |]; try by left. apply IH.
  - destruct (outcome sel) as [[|acct]| |]; try destruct Hstop;
      cbn [calls mret M_ret]; rewrite app_nil_r; exact Honce.
Qed.

Lemma sendMessageStreamBody_enters fuel w :
  exists es,
    enters (calls (sendMessageStreamBody D E req fallbackEnabled self fuel w))
    = (model req, fallbackEnabled) :: es /\ nestedOnce es.
Proof.
  unfold sendMessageStreamBody.
  erewrite bind_normal by reflexivity.
  erewrite bind_normal by reflexivity.
  cbn [after calls app enters].
  eexists. split; [reflexivity|]. apply attemptLoop_nested.
Qed.
End Nested.
End HandlerCalls.

Section Invocations.
Context {W : Type}.
Variable D : Deps.
Variable E : Env W.

Lemma sendMessageStream_disabled_enters fuel req w :
  enters (calls (sendMessageStream D E fuel req false w)) = [] \/
  enters (calls (sendMessageStream D E fuel req false w)) = [(model req, false)].
Proof.
  revert req w. induction fuel as [|fuel IH]; intros req w; [by left|].
  right. cbn [sendMessageStream].
  destruct (sendMessageStreamBody_enters D E req false
              (sendMessageStream D E fuel) IH fuel w) as (es & -> & Hes).
  destruct Hes as [->|[Hfalse _]]; [reflexivity | discriminate].
Qed.

(** Claim C2.  Model fallback fires at most once per original request: a run
    of [sendMessageStream] contains its own invocation and at most one
    nested invocation, which is for the mapped fallback model and has
    [fallbackEnabled = false]; so the nested call never falls back again,
    whatever the fallback table maps the fallback model to and however the
    nested call ends. *)
Theorem fallback_fires_at_most_once fuel req fallbackEnabled w :
  let es := enters (calls (sendMessageStream D E fuel req fallbackEnabled w)) in
  es = [] \/
  es = [(model req, fallbackEnabled)] \/
  (fallbackEnabled = true /\
   exists fm, getFallbackModel D (model req) = Some fm /\
              es = [(model req, true); (fm, false)]).
Proof.
  cbn zeta. destruct fuel as [|fuel]; [by left|]. right.
  cbn [sendMessageStream].
  destruct (sendMessageStreamBody_enters D E req fallbackEnabled
              (sendMessageStream D E fuel)
              (sendMessageStream_disabled_enters fuel) fuel w)
    as (es & -> & Hes).
  destruct Hes as [->|(-> & fm & Hfm & ->)]; [by left|].
  right. split; [reflexivity|]. exists fm. split; [exact Hfm | reflexivity].
Qed.

Lemma sendMessageStream_noOwnPick fuel req fallbackEnabled :
  Runs noOwnPick (sendMessageStream D E fuel req fallbackEnabled).
Proof.
  intros w. destruct fuel as [|fuel]; [reflexivity|].
  cbn [sendMessageStream]. unfold sendMessageStreamBody.
  erewrite bind_normal by reflexivity. reflexivity.
Qed.

Lemma picks_without_enters (cs : list Call) :
  enters cs = [] -> picksBeforeEnter cs = countPicks cs.
Proof.
  induction cs as [|c cs IH]; [reflexivity|].
  destruct c; cbn; intros H; try discriminate; rewrite ?IH; auto.
Qed.

Lemma sendMessageStream_calls fuel req fallbackEnabled w :
  exists rest,
    calls (sendMessageStream D E (S fuel) req fallbackEnabled w)
    = CEnter (model req) fallbackEnabled :: rest /\
    picksBeforeEnter rest
    <= Z.to_nat (Z.max (MAX_RETRIES D) (Z.of_nat (getAccountCount E w) + 1)).
Proof.
  cbn [sendMessageStream]. unfold sendMessageStreamBody.
  erewrite bind_normal by reflexivity.
  erewrite bind_normal by reflexivity.
  cbn [after calls app]. eexists. split; [reflexivity|].
  apply attemptLoop_picks. apply sendMessageStream_noOwnPick.
Qed.

End Invocations.

(** Normal form of a run assembled by [after]. *)
Ltac norm_run :=
  unfold after, mret, M_ret, throw;
  cbn [outcome final calls events app];
  rewrite ?app_nil_r.


Section ScenarioProofs.
Context {W : Type}.
Variable D : Deps.
Variable E : Env W.
Variable req : AnthropicRequest.

Lemma emitEmptyResponseFallback_run w :
  emitEmptyResponseFallback E (model req) w =
  mkRun (Normal tt) (randomHex16 E w).2 []
        (fallbackEvents ("msg_" ++ (randomHex16 E w).1) (model req)).
Proof. reflexivity. Qed.

Lemma emptyRetryLoop_streak acct url token project refetched :
  forall fuel k resp w,
    let body := streamBody D req project in
    emptyStreak D E req url token body refetched k resp w ->
    (k + Z.of_nat (List.length refetched) = MAX_EMPTY_RESPONSE_RETRIES D)%Z ->
    List.length refetched < fuel ->
    let wf := streakEnd D E req url token body refetched k resp w in
    emptyRetryLoop D E req fuel acct url token
                   (buildCloudCodeRequest D req project) k resp w =
    mkRun (Normal Return) (randomHex16 E wf).2
          (streakCalls D req url token body refetched k resp)
          (fallbackEvents ("msg_" ++ (randomHex16 E wf).1) (model req)).
Proof.
  induction refetched as [|resp' more IH]; intros fuel k resp w body Hs Hk Hf wf;
    (destruct fuel as [|fuel]; [cbn in Hf; lia|]);
    cbn [emptyStreak] in Hs; destruct Hs as (Hev & (e & He & Hemp) & Hrest);
    cbn [emptyRetryLoop].
  - cbn [List.length] in Hk.
    replace (MAX_EMPTY_RESPONSE_RETRIES D <? k)%Z with false by lia.
    rewrite (bind_normal _ _ _ _ _ _ _ (doStream_run E _ _ _)).
    rewrite He, Hemp. cbn [negb].
    replace (MAX_EMPTY_RESPONSE_RETRIES D <=? k)%Z with true by lia.
    rewrite (bind_normal _ _ _ _ _ _ _ (emitEmptyResponseFallback_run _)).
    rewrite Hev. reflexivity.
  - destruct Hrest as (Hok & w' & Hfetch & Hmore).
    cbn [List.length] in Hk, Hf.
    replace (MAX_EMPTY_RESPONSE_RETRIES D <? k)%Z with false by lia.
    rewrite (bind_normal _ _ _ _ _ _ _ (doStream_run E _ _ _)).
    rewrite He, Hemp. cbn [negb].
    replace (MAX_EMPTY_RESPONSE_RETRIES D <=? k)%Z with false by lia.
    rewrite (bind_normal _ _ _ _ _ _ _ (doSleep_run E _ _)).
    rewrite (bind_normal _ _ _ _ _ _ _ (doFetch_ok E _ _ _ _ _ _ Hfetch)).
    rewrite Hok. cbn [negb].
    rewrite (IH fuel (k + 1)%Z resp' w' Hmore) by lia.
    subst wf body. cbn [streakEnd streakCalls after_mkRun].
    rewrite Hfetch, Hev. reflexivity.
Qed.
End ScenarioProofs.

Section Propagation.
Context {W : Type}.
Variable D : Deps.
Variable E : Env W.
Variable req : AnthropicRequest.
Variable fallbackEnabled : bool.
Variable self : AnthropicRequest -> bool -> M W unit.

Lemma endpointTry_streams fuel acct token project endpoint lastError w
      resp w' wf c e :
  fetch E (streamUrl endpoint) (streamHeaders D req token)
        (streamBody D req project) w = (inr resp, w') ->
  ok resp = true ->
  emptyRetryLoop D E req fuel acct (streamUrl endpoint) token
                 (buildCloudCodeRequest D req project) 0 resp w'
  = mkRun (Normal Return) wf c e ->
  endpointTry D E req fuel acct token (buildCloudCodeRequest D req project)
              endpoint lastError w =
  mkRun (Normal Return) wf
        (CFetch (streamUrl endpoint) (streamHeaders D req token)
                (streamBody D req project) :: c) e.
Proof.
  intros Hfetch Hok Hloop. unfold endpointTry.
  rewrite (bind_normal _ _ _ _ _ _ _ (doFetch_ok E _ _ _ _ _ _ Hfetch)).
  rewrite Hok. cbn [negb].
  rewrite (bind_normal _ _ _ _ _ _ _ Hloop). norm_run. reflexivity.
Qed.

Lemma endpointLoop_returns fuel acct token payload endpoint rest lastError w
      wf c e :
  endpointTry D E req fuel acct token payload endpoint lastError w
  = mkRun (Normal Return) wf c e ->
  endpointLoop D E req fuel acct token payload (endpoint :: rest) lastError w
  = mkRun (Normal Return) wf c e.
Proof.
  intros Htry. cbn [endpointLoop].
  erewrite bind_normal by (apply tryCatch_normal; exact Htry).
  norm_run. reflexivity.
Qed.

Lemma attemptTry_returns fuel acct w token w1 project w2 wf c e :
  getTokenForAccount E acct w = (inr token, w1) ->
  getProjectForAccount E acct token w1 = (inr project, w2) ->
  endpointLoop D E req fuel acct token (buildCloudCodeRequest D req project)
               (ANTIGRAVITY_ENDPOINT_FALLBACKS D) LastNone w2
  = mkRun (Normal Return) wf c e ->
  attemptTry D E req fuel acct w =
  mkRun (Normal Return) wf
        (CGetToken (email acct) :: CGetProject (email acct) :: c) e.
Proof.
  intros Htok Hproj Hloop. unfold attemptTry.
  rewrite (bind_normal _ _ _ _ _ _ _ (doGetToken_ok E _ _ _ _ Htok)).
  rewrite (bind_normal _ _ _ _ _ _ _ (doGetProject_ok E _ _ _ _ _ Hproj)).
  rewrite (bind_normal _ _ _ _ _ _ _ Hloop). norm_run. reflexivity.
Qed.

Lemma selectAccount_sticky w acct waitMs w1 :
  pickStickyAccount E (model req) w = ((Some acct, waitMs), w1) ->
  selectAccount D E req fallbackEnabled self w =
  mkRun (Normal (Go acct)) w1 [CPickSticky (model req)] [].
Proof.
  intros Hpick. unfold selectAccount.
  rewrite (bind_normal _ _ _ _ _ _ _ (doPickSticky_run E _ _)).
  rewrite Hpick. reflexivity.
Qed.

(** An attempt whose [try] block returns ends the generator. *)
Lemma attemptLoop_returns fuel n w acct w1 c1 e1 w2 c2 e2 :
  selectAccount D E req fallbackEnabled self w
  = mkRun (Normal (Go acct)) w1 c1 e1 ->
  attemptTry D E req fuel acct w1 = mkRun (Normal Return) w2 c2 e2 ->
  attemptLoop D E req fallbackEnabled self fuel (S n) w =
  mkRun (Normal tt) w2 (c1 ++ c2) (e1 ++ e2).
Proof.
  intros Hsel Htry. cbn [attemptLoop].
  rewrite (bind_normal _ _ _ _ _ _ _ Hsel).
  erewrite bind_normal by (apply tryCatch_normal; exact Htry).
  norm_run. reflexivity.
Qed.

(** An attempt whose [try] block or handler says "continue" is followed
    by the next attempt. *)
Lemma attemptLoop_continues fuel n w acct w1 c1 e1 w2 c2 e2 :
  selectAccount D E req fallbackEnabled self w
  = mkRun (Normal (Go acct)) w1 c1 e1 ->
  tryCatch (attemptTry D E req fuel acct) (attemptCatch D E req) w1
  = mkRun (Normal (Go tt)) w2 c2 e2 ->
  attemptLoop D E req fallbackEnabled self fuel (S n) w =
  after (c1 ++ c2) (e1 ++ e2)
        (attemptLoop D E req fallbackEnabled self fuel n w2).
Proof.
  intros Hsel Htry. cbn [attemptLoop].
  rewrite (bind_normal _ _ _ _ _ _ _ Hsel).
  rewrite (bind_normal _ _ _ _ _ _ _ Htry).
  by rewrite after_after.
Qed.

(** An error the handler rethrows ends the generator with that error. *)
Lemma attemptLoop_throws fuel n w acct w1 c1 e1 x w2 c2 e2 :
  selectAccount D E req fallbackEnabled self w
  = mkRun (Normal (Go acct)) w1 c1 e1 ->
  tryCatch (attemptTry D E req fuel acct) (attemptCatch D E req) w1
  = mkRun (Throws x) w2 c2 e2 ->
  attemptLoop D E req fallbackEnabled self fuel (S n) w =
  mkRun (Throws x) w2 (c1 ++ c2) (e1 ++ e2).
Proof.
  intros Hsel Htry. cbn [attemptLoop].
  rewrite (bind_normal _ _ _ _ _ _ _ Hsel).
  rewrite (bind_throws _ _ _ _ _ _ _ Htry). reflexivity.
Qed.
End Propagation.

Section TopLevel.
Context {W : Type}.
Variable D : Deps.
Variable E : Env W.

Lemma maxAttempts_pos w : exists n, Z.to_nat (maxAttempts D E w) = S n.
Proof.
  unfold maxAttempts. exists (Z.to_nat (Z.max (MAX_RETRIES D)
                                (Z.of_nat (getAccountCount E w) + 1)) - 1).
  lia.
Qed.

Lemma sendMessageStream_unfold fuel req fallbackEnabled w :
  sendMessageStream D E (S fuel) req fallbackEnabled w =
  after [CEnter (model req) fallbackEnabled] []
        (attemptLoop D E req fallbackEnabled (sendMessageStream D E fuel)
                     fuel (Z.to_nat (maxAttempts D E w)) w).
Proof.
  cbn [sendMessageStream]. unfold sendMessageStreamBody.
  erewrite bind_normal by reflexivity.
  erewrite bind_normal by reflexivity.
  by rewrite after_after.
Qed.

(** The run of the whole scenario. *)
Lemma scenario_run fuel req fallbackEnabled w acct token project endpoint
      resp refetched w4 :
  EmptyResponseScenario D E req w acct token project endpoint resp refetched w4 ->
  List.length refetched + 2 <= fuel ->
  let url := streamUrl endpoint in
  let body := streamBody D req project in
  let wf := streakEnd D E req url token body refetched 0 resp w4 in
  sendMessageStream D E fuel req fallbackEnabled w =
  mkRun (Normal tt) (randomHex16 E wf).2
        ([CEnter (model req) fallbackEnabled; CPickSticky (model req);
          CGetToken (email acct); CGetProject (email acct);
          CFetch url (streamHeaders D req token) body]
         ++ streakCalls D req url token body refetched 0 resp)
        (fallbackEvents ("msg_" ++ (randomHex16 E wf).1) (model req)).
Proof.
  intros [[rest Hend] Hretries (waitMs & w1 & w2 & w3 & Hpick & Htok & Hproj
                                  & Hfetch) Hok Hstreak] Hfuel url body wf.
  destruct fuel as [|fuel]; [lia|].
  rewrite sendMessageStream_unfold.
  destruct (maxAttempts_pos w) as [n ->].
  pose proof (emptyRetryLoop_streak D E req acct url token project refetched
                fuel 0%Z resp w4 Hstreak ltac:(lia) ltac:(lia)) as Hloop.
  cbn zeta in Hloop. fold body wf in Hloop.
  pose proof (endpointTry_streams D E req fuel acct token project endpoint
                LastNone w3 resp w4 _ _ _ Hfetch Hok Hloop) as Htry.
  pose proof (endpointLoop_returns D E req fuel acct token _ endpoint rest
                LastNone w3 _ _ _ Htry) as Hends.
  rewrite <- Hend in Hends.
  pose proof (attemptTry_returns D E req fuel acct w1 token w2 project w3
                _ _ _ Htok Hproj Hends) as Hatt.
  erewrite attemptLoop_returns;
    [ | eapply selectAccount_sticky; exact Hpick | exact Hatt ].
  reflexivity.
Qed.
End TopLevel.

(** ** The attempt budget *)

Lemma picksBeforeEnter_notEnter (a b : list Call) :
  Forall notEnter a ->
  picksBeforeEnter (a ++ b) = picksBeforeEnter a + picksBeforeEnter b.
Proof.
  induction 1 as [|c a Hc _ IH]; [reflexivity|].
  destruct c; cbn; try exact IH; [destruct Hc | by rewrite IH].
Qed.

Lemma enters_nil_notEnter (cs : list Call) :
  enters cs = [] -> Forall notEnter cs.
Proof.
  induction cs as [|c cs IH]; [constructor|].
  destruct c; cbn; intros H; try discriminate; constructor; auto; exact I.
Qed.

Section Budget.
Context {W : Type}.
Variable D : Deps.
Variable E : Env W.
Variable req : AnthropicRequest.
Variable fallbackEnabled : bool.
Variable self : AnthropicRequest -> bool -> M W unit.
Hypothesis self_noOwnPick : forall r b, Runs noOwnPick (self r b).
Hypothesis self_enters : forall r w,
  enters (calls (self r false w)) = [] \/
  enters (calls (self r false w)) = [(model r, false)].

(** A selection that offers an account made one sticky selection and no
    nested call. *)
Lemma selectAccount_go w acct w1 c1 e1 :
  selectAccount D E req fallbackEnabled self w
  = mkRun (Normal (Go acct)) w1 c1 e1 ->
  Forall notEnter c1 /\ picksBeforeEnter c1 = 1.
Proof.
  intros Hsel.
  pose proof (selectAccount_nested D E req fallbackEnabled self self_enters w)
    as Hn.
  pose proof (selectAccount_picks D E req fallbackEnabled self self_noOwnPick w)
    as Hle.
  assert (Hge : 1 <= picksBeforeEnter
                       (calls (selectAccount D E req fallbackEnabled self w))).
  { unfold selectAccount.
    rewrite (bind_normal _ _ _ _ _ _ _ (doPickSticky_run _ _ _)).
    cbn [after calls app picksBeforeEnter]. lia. }
  rewrite Hsel in Hn, Hle, Hge. cbn [calls] in Hle, Hge.
  split; [|lia].
  destruct Hn as [Hn|[Hs _]]; [|destruct Hs].
  apply enters_nil_notEnter. exact Hn.
Qed.

(** After [k] attempts that carry on, the loop is where it would be with
    [k] iterations less to go, and has made [k] selections. *)
Lemma attemptLoop_after_attempts fuel k n w wk :
  attemptsContinue D E req fallbackEnabled self fuel k w wk ->
  exists cs es,
    attemptLoop D E req fallbackEnabled self fuel (k + n) w
    = after cs es (attemptLoop D E req fallbackEnabled self fuel n wk) /\
    forall rest, picksBeforeEnter (cs ++ rest) = k + picksBeforeEnter rest.
Proof.
  revert w. induction k as [|k IH]; intros w; cbn [attemptsContinue].
  - intros ->. exists [], []. split; [|reflexivity].
    cbn [Nat.add]. by rewrite after_nil.
  - intros (acct & w1 & c1 & e1 & w2 & c2 & e2 & Hsel & Htry & Hrest).
    destruct (IH _ Hrest) as (cs & es & Hloop & Hpicks).
    exists (c1 ++ c2 ++ cs)%list, (e1 ++ e2 ++ es)%list. split.
    + cbn [Nat.add].
      rewrite (attemptLoop_continues D E req fallbackEnabled self fuel (k + n)
                 w acct w1 c1 e1 w2 c2 e2 Hsel Htry).
      rewrite Hloop, after_after. by rewrite <- !app_assoc.
    + intros rest. destruct (selectAccount_go _ _ _ _ _ Hsel) as [Hne H1].
      rewrite <- !app_assoc.
      rewrite (picksBeforeEnter_notEnter _ _ Hne), H1.
      pose proof (attempt_inner D E req fuel acct w1) as Hin.
      rewrite Htry in Hin. cbn [calls] in Hin.
      rewrite (picksBeforeEnter_notEnter _ _ (inner_notEnter _ Hin)).
      rewrite (inner_noOwnPick _ Hin). rewrite Hpicks. lia.
Qed.
End Budget.

Section BudgetTop.
Context {W : Type}.
Variable D : Deps.
Variable E : Env W.

End BudgetTop.

Lemma fallbackEvents_well_formed (messageId m : string) :
  oneTextBlockMessage (fallbackEvents messageId m).
Proof.
  unfold oneTextBlockMessage, fallbackEvents, eventType.
  do 6 eexists. split; [reflexivity|].
  repeat split; vm_compute; reflexivity.
Qed.

Section EmptyResponses.
Context {W : Type}.
Variable D : Deps.
Variable E : Env W.
Variable req : AnthropicRequest.

Lemma streamsOf_streak url token body refetched k resp :
  streamsOf (streakCalls D req url token body refetched k resp)
  = resp :: refetched.
Proof.
  revert k resp. induction refetched as [|resp' more IH]; intros k resp;
    cbn; [reflexivity|]. by rewrite IH.
Qed.

Lemma sleepsOf_streak url token body refetched k resp :
  sleepsOf (streakCalls D req url token body refetched k resp)
  = (fun i => 500 * 2 ^ (k + Z.of_nat i))%Z <$> seq 0 (List.length refetched).
Proof.
  revert k resp. induction refetched as [|resp' more IH]; intros k resp;
    cbn [streakCalls sleepsOf List.length seq fmap list_fmap];
    [reflexivity|].
  rewrite IH, Z.add_0_r. f_equal.
  rewrite <- fmap_S_seq, <- list_fmap_compose.
  apply list_fmap_ext. intros _ i _. cbn. do 2 f_equal. lia.
Qed.

Lemma fetchesOf_streak url token body refetched k resp :
  fetchesOf (streakCalls D req url token body refetched k resp)
  = replicate (List.length refetched) (url, streamHeaders D req token, body).
Proof.
  revert k resp. induction refetched as [|resp' more IH]; intros k resp;
    cbn; [reflexivity|]. by rewrite IH.
Qed.

(** Claim C3.  With [R = MAX_EMPTY_RESPONSE_RETRIES]: when the response of
    the first endpoint and the [R] responses re-fetched after it each stream
    nothing and raise an EmptyResponseError, [sendMessageStream] returns
    normally after exactly those [R + 1] streaming attempts, and what it
    yielded is exactly the synthetic fallback message: one [message_start],
    one text block at index 0 (start, one delta, stop), one [message_delta]
    with stop reason 'end_turn', one [message_stop]. *)
Theorem empty_streak_yields_fallback fuel fallbackEnabled w acct token project
        endpoint resp refetched w4 :
  EmptyResponseScenario D E req w acct token project endpoint resp refetched w4 ->
  List.length refetched + 2 <= fuel ->
  let r := sendMessageStream D E fuel req fallbackEnabled w in
  outcome r = Normal tt /\
  streamsOf (calls r) = resp :: refetched /\
  (exists messageId, events r = fallbackEvents messageId (model req)) /\
  oneTextBlockMessage (events r).
Proof.
  intros Hscn Hfuel. cbn zeta.
  rewrite (scenario_run D E fuel req fallbackEnabled w acct token project
             endpoint resp refetched w4 Hscn Hfuel).
  cbn [outcome calls events app streamsOf].
  rewrite streamsOf_streak.
  repeat split; eauto using fallbackEvents_well_formed.
Qed.

(** Whatever the upstream answers, every request the empty-response loop
    issues is the one it was entered with. *)
Lemma emptyRetryLoop_same_request fuel acct url token payload k resp :
  Runs (Forall (sameRequest url (streamHeaders D req token)
                            (JSON_stringify D payload)))
       (emptyRetryLoop D E req fuel acct url token payload k resp).
Proof.
  revert k resp. induction fuel as [|fuel IH]; intros k resp;
    cbn [emptyRetryLoop];
    unfold doStream, doSleep, doFetch, doMarkRateLimited, doClearTokenCache,
      doClearProjectCache, emitEmptyResponseFallback;
    repeat first
      [ runs_step
      | apply Runs_call; constructor; [repeat split | constructor] ].
Qed.

Lemma fetchesOf_same_request url hdrs body cs :
  Forall (sameRequest url hdrs body) cs ->
  Forall (eq (url, hdrs, body)) (fetchesOf cs).
Proof.
  induction 1 as [|c cs Hc _ IH]; [constructor|].
  destruct c; cbn [fetchesOf]; try exact IH.
  destruct Hc as (-> & -> & ->). by constructor.
Qed.

(** Claim C6.  In the empty-response retry loop the backoff before
    zero-based retry [k] is [500 * 2^k] ms (500, 1000, 2000, ...), and every
    request of the run, the original and each re-issued one, goes to the
    same endpoint URL with the same headers and the same payload.  The last
    part holds of the retry loop whatever the upstream answers: each request
    it issues is the one it was entered with. *)
Theorem empty_retry_backoff_doubles fuel fallbackEnabled w acct token project
        endpoint resp refetched w4 :
  EmptyResponseScenario D E req w acct token project endpoint resp refetched w4 ->
  List.length refetched + 2 <= fuel ->
  let r := sendMessageStream D E fuel req fallbackEnabled w in
  sleepsOf (calls r)
  = (fun k => 500 * 2 ^ Z.of_nat k)%Z <$> seq 0 (List.length refetched) /\
  fetchesOf (calls r)
  = replicate (S (List.length refetched))
              (streamUrl endpoint, streamHeaders D req token,
               streamBody D req project) /\
  forall n acct' url token' payload k resp' w',
    Forall (eq (url, streamHeaders D req token', JSON_stringify D payload))
           (fetchesOf (calls (emptyRetryLoop D E req n acct' url token'
                                             payload k resp' w'))).
Proof.
  intros Hscn Hfuel. cbn zeta.
  rewrite (scenario_run D E fuel req fallbackEnabled w acct token project
             endpoint resp refetched w4 Hscn Hfuel).
  cbn [outcome calls events app sleepsOf fetchesOf].
  rewrite sleepsOf_streak, fetchesOf_streak. repeat split.
  intros. apply fetchesOf_same_request, emptyRetryLoop_same_request.
Qed.
End EmptyResponses.

Example backoff_first_three :
  (fun k => 500 * 2 ^ Z.of_nat k)%Z <$> seq 0 3 = [500; 1000; 2000]%Z.
Proof. reflexivity. Qed.

Lemma earlier_assoc (a b c : option Z) :
  earlier (earlier a b) c = earlier a (earlier b c).
Proof. destruct a, b, c; cbn; f_equal; lia. Qed.

Section RateLimitProofs.
Context {W : Type}.
Variable D : Deps.
Variable E : Env W.
Variable req : AnthropicRequest.

#[local] Abbreviation resetOf := (resetOf D).

#[local] Abbreviation keep429 := (keep429 D).

Lemma endpointLoop_all429 fuel acct token project endpoints :
  forall resps lastError w wf,
    allAnswer429 D E req token project endpoints resps w wf ->
    endpointLoop D E req fuel acct token (buildCloudCodeRequest D req project)
                 endpoints lastError w =
    mkRun (Normal (Go (keep429 lastError resps))) wf
          (streamFetch D req token project <$> endpoints) [].
Proof.
  induction endpoints as [|endpoint rest IH]; intros [|resp more] lastError w wf H;
    cbn [allAnswer429] in H; try contradiction.
  - subst wf. reflexivity.
  - destruct H as (Hst & w' & Hfetch & Hrest).
    cbn [endpointLoop].
    assert (Htry :
      endpointTry D E req fuel acct token (buildCloudCodeRequest D req project)
                  endpoint lastError w =
      mkRun (Normal (Go (keep429 lastError [resp]))) w'
            [streamFetch D req token project endpoint] []).
    { unfold endpointTry.
      rewrite (bind_normal _ _ _ _ _ _ _ (doFetch_ok E _ _ _ _ _ _ Hfetch)).
      unfold ok. rewrite Hst. cbn [negb andb Z.leb Z.eqb Z.compare
                                   Pos.compare Pos.compare_cont Pos.eqb].
      norm_run. reflexivity. }
    erewrite bind_normal by (apply tryCatch_normal; exact Htry).
    cbv beta iota.
    rewrite (IH more _ w' wf Hrest). norm_run. reflexivity.
Qed.

Lemma offered_nonzero (r : option Z) : r <> Some 0%Z -> offered r = r.
Proof.
  unfold offered. destruct r as [x|]; [|reflexivity]. intros H. cbn.
  destruct (Z.eqb_spec x 0); [congruence | reflexivity].
Qed.

(** One 429 answer: what [lastError] offers afterwards is the earlier of
    what it offered and what the answer offers. *)
Lemma replaces429_step (resp : Response) (text : string) (old new : option Z) :
  offered (if replaces429 (Last429 resp text old) new then new else old)
  = earlier (offered old) (offered new).
Proof.
  unfold offered, replaces429, resetTruthy, resetLt.
  destruct old as [c|], new as [x|]; cbn;
    repeat (match goal with
            | |- context [(?a =? ?b)%Z] => destruct (Z.eqb_spec a b)
            | |- context [(?a <? ?b)%Z] => destruct (Z.ltb_spec a b)
            end; cbn);
    try reflexivity; try (f_equal; lia).
Qed.

(** The response kept in [lastError] carries the earliest offered reset. *)
Lemma keep429_kept (k : Response) (more : list Response) :
  exists kept,
    In kept (k :: more) /\
    keep429 (Last429 k (respText k) (resetOf k)) more
    = Last429 kept (respText kept) (resetOf kept) /\
    offered (resetOf kept)
    = earlier (offered (resetOf k))
              (earliestReset (offered <$> (resetOf <$> more))).
Proof.
  revert k. induction more as [|r more IH]; intros k.
  - exists k. split; [by left|]. split; [reflexivity|].
    cbn. by destruct (offered (resetOf k)).
  - pose proof (replaces429_step k (respText k) (resetOf k) (resetOf r)) as Hstep.
    cbn [keep429 foldl fmap list_fmap earliestReset foldr].
    set (b := replaces429 (Last429 k (respText k) (resetOf k)) (resetOf r)) in *.
    destruct (IH (if b then r else k)) as (kept & Hin & Hkeep & Hoff).
    exists kept. split; [|split].
    + destruct Hin as [<-|Hin]; [|by right; right].
      destruct b; [by right; left | by left].
    + rewrite <- Hkeep. unfold keep429. by destruct b.
    + rewrite Hoff, <- earlier_assoc, <- Hstep. by destruct b.
Qed.

Lemma keep429_first (resps : list Response) :
  resps <> [] ->
  exists kept,
    In kept resps /\
    keep429 LastNone resps = Last429 kept (respText kept) (resetOf kept) /\
    offered (resetOf kept) = earliestReset (offered <$> (resetOf <$> resps)).
Proof.
  destruct resps as [|k more]; [congruence|]. intros _.
  destruct (keep429_kept k more) as (kept & Hin & Hkeep & Hoff).
  exists kept. split; [exact Hin|]. split; [exact Hkeep | exact Hoff].
Qed.

Lemma offered_all_nonzero (resps : list Response) :
  Forall (fun resp => resetOf resp <> Some 0%Z) resps ->
  offered <$> (resetOf <$> resps) = resetOf <$> resps.
Proof.
  induction 1 as [|r more Hr _ IH]; [reflexivity|].
  cbn. by rewrite IH, offered_nonzero.
Qed.

Lemma allAnswer429_length token project endpoints resps w wf :
  allAnswer429 D E req token project endpoints resps w wf ->
  List.length resps = List.length endpoints.
Proof.
  revert resps w. induction endpoints as [|e rest IH]; intros [|r more] w H;
    cbn in H; try contradiction; [reflexivity|].
  destruct H as (_ & w' & _ & H). cbn. f_equal. eauto.
Qed.

(** Claim C4.  When every endpoint of the list answers 429 in an attempt, the
    account is marked rate-limited with the reset time of one of those
    responses, which is the earliest among the reset times they offered,
    and the attempt loop goes on to its next iteration (a new account
    selection) in the world so marked. *)
Theorem all_429_marks_earliest_reset fallbackEnabled self fuel n w acct token
        project resps wf :
  AllEndpoints429 D E req w acct token project resps wf ->
  exists kept,
    In kept resps /\
    offered (resetOf kept) = earliestReset (offered <$> (resetOf <$> resps)) /\
    (Forall (fun resp => resetOf resp <> Some 0%Z) resps ->
     resetOf kept = earliestReset (resetOf <$> resps)) /\
    attemptLoop D E req fallbackEnabled self fuel (S n) w =
    after (CPickSticky (model req)
           :: CGetToken (email acct)
           :: CGetProject (email acct)
           :: (streamFetch D req token project
                 <$> ANTIGRAVITY_ENDPOINT_FALLBACKS D)
           ++ [CMarkRateLimited (email acct) (resetOf kept) (model req)]) []
          (attemptLoop D E req fallbackEnabled self fuel n
             (markRateLimited E (email acct) (resetOf kept) (model req) wf)).
Proof.
  intros [Hne (waitMs & w1 & w2 & w3 & Hpick & Htok & Hproj & Hall) Hclass].
  assert (Hresps : resps <> []).
  { apply allAnswer429_length in Hall. destruct resps; [|congruence].
    destruct (ANTIGRAVITY_ENDPOINT_FALLBACKS D); [congruence|discriminate]. }
  destruct (keep429_first resps Hresps) as (kept & Hin & Hkeep & Hoff).
  exists kept. split; [exact Hin|]. split; [exact Hoff|]. split.
  { intros Hnz. rewrite <- (offered_all_nonzero resps Hnz), <- Hoff.
    symmetry. apply offered_nonzero.
    rewrite Forall_forall in Hnz. apply Hnz. by apply list_elem_of_In. }
  erewrite attemptLoop_continues;
    [ | eapply selectAccount_sticky; exact Hpick | ].
  - reflexivity.
  - unfold tryCatch, attemptTry.
    rewrite (bind_normal _ _ _ _ _ _ _ (doGetToken_ok E _ _ _ _ Htok)).
    rewrite (bind_normal _ _ _ _ _ _ _ (doGetProject_ok E _ _ _ _ _ Hproj)).
    rewrite (bind_normal _ _ _ _ _ _ _
               (endpointLoop_all429 _ _ _ _ _ _ _ _ _ Hall)).
    rewrite Hkeep.
    rewrite (bind_normal _ _ _ _ _ _ _ (doMarkRateLimited_run E _ _ _ _)).
    norm_run. unfold attemptCatch. rewrite Hclass. norm_run. reflexivity.
Qed.
End RateLimitProofs.

(** ** Rendering of 5xx status codes *)

Lemma ofZ_5xx_table :
  forallb (fun k => String.prefix "5" (JsString.ofZ (500 + Z.of_nat k)))
          (seq 0 100) = true.
Proof. vm_compute. reflexivity. Qed.

Lemma ofZ_5xx (status : Z) :
  (500 <= status <= 599)%Z -> String.prefix "5" (JsString.ofZ status) = true.
Proof.
  intros H. pose proof ofZ_5xx_table as Ht.
  rewrite forallb_forall in Ht.
  specialize (Ht (Z.to_nat (status - 500))).
  replace (500 + Z.of_nat (Z.to_nat (status - 500)))%Z with status in Ht by lia.
  apply Ht. apply in_seq. lia.
Qed.

Lemma prefix_head (a b : ascii) (rest : string) :
  String.prefix (String a EmptyString) (String b rest) = true -> a = b.
Proof.
  cbn [String.prefix]. destruct (Ascii.ascii_dec a b); [auto | discriminate].
Qed.

Lemma looksLike5xx_apiError (status : Z) (errorText : string) :
  (500 <= status <= 599)%Z -> looksLike5xx (apiError status errorText) = true.
Proof.
  intros H. unfold looksLike5xx, apiError, Error. cbn [message].
  apply orb_true_iff. left. apply orb_true_iff. left.
  pose proof (ofZ_5xx status H) as Hp.
  destruct (JsString.ofZ status) as [|c rest]; [discriminate|].
  apply prefix_head in Hp. subst c.
  unfold JsString.includes. cbn [append String.prefix].
  repeat (destruct (Ascii.ascii_dec _ _) as [_|Hne]; [|exfalso; by apply Hne]).
  destruct rest; reflexivity.
Qed.

Section SelectionProofs.
Context {W : Type}.
Variable D : Deps.
Variable E : Env W.
Variable req : AnthropicRequest.
Variable fallbackEnabled : bool.

Lemma selectWhenNone_exhausted self w :
  isAllRateLimited E (model req) w = true ->
  (MAX_WAIT_BEFORE_ERROR_MS D < getMinWaitTimeMs E (model req) w)%Z ->
  selectWhenNone D E req fallbackEnabled self w =
  mkRun (Throws (resourceExhausted D req
                   (getMinWaitTimeMs E (model req) w)
                   (toISOString D (dateNow E w
                                   + getMinWaitTimeMs E (model req) w))))
        w [] [].
Proof.
  intros Hall Hwait. unfold selectWhenNone.
  erewrite bind_normal by reflexivity. cbv beta. rewrite Hall.
  erewrite bind_throws; [reflexivity|].
  erewrite bind_normal by reflexivity.
  erewrite bind_normal by reflexivity. cbv beta.
  replace (MAX_WAIT_BEFORE_ERROR_MS D <? getMinWaitTimeMs E (model req) w)%Z
    with true by lia.
  reflexivity.
Qed.

(** Claim C5.  When the sticky selection offers no account and no wait, all
    accounts are rate-limited for the model and the minimum wait exceeds
    [MAX_WAIT_BEFORE_ERROR_MS], the attempt ends at once with the
    RESOURCE_EXHAUSTED error that carries the wait and the next-available
    time: the block that handles the exhausted pool makes no call at all,
    so nothing is slept and no fallback is tried, and the world is the one
    the selection left.  This holds at every iteration of the attempt loop,
    and so for the call as a whole. *)
Theorem exhausted_pool_fails_fast w waitMs w1 :
  pickStickyAccount E (model req) w = ((None, waitMs), w1) ->
  (waitMs <= 0)%Z ->
  isAllRateLimited E (model req) w1 = true ->
  (MAX_WAIT_BEFORE_ERROR_MS D < getMinWaitTimeMs E (model req) w1)%Z ->
  let allWaitMs := getMinWaitTimeMs E (model req) w1 in
  let resetTime := toISOString D (dateNow E w1 + allWaitMs) in
  let error :=
    Error ("RESOURCE_EXHAUSTED: Rate limited on " ++ model req
           ++ ". Quota will reset after " ++ formatDuration D allWaitMs
           ++ ". Next available: " ++ resetTime) in
  (forall self,
     selectWhenNone D E req fallbackEnabled self w1 =
     mkRun (Throws error) w1 [] []) /\
  (forall self fuel n,
     attemptLoop D E req fallbackEnabled self fuel (S n) w =
     mkRun (Throws error) w1 [CPickSticky (model req)] []) /\
  (forall fuel,
     let r := sendMessageStream D E (S fuel) req fallbackEnabled w in
     r = mkRun (Throws error) w1
               [CEnter (model req) fallbackEnabled; CPickSticky (model req)] []
     /\ sleepsOf (calls r) = []).
Proof.
  intros Hpick Hwait Hall Hmin. cbn zeta.
  assert (Hloop : forall self fuel n,
    attemptLoop D E req fallbackEnabled self fuel (S n) w =
    mkRun (Throws (resourceExhausted D req
                     (getMinWaitTimeMs E (model req) w1)
                     (toISOString D (dateNow E w1
                                     + getMinWaitTimeMs E (model req) w1))))
          w1 [CPickSticky (model req)] []).
  { intros self fuel n. cbn [attemptLoop]. unfold selectAccount.
    erewrite bind_throws; [reflexivity|].
    rewrite (bind_normal _ _ _ _ _ _ _ (doPickSticky_run E _ _)).
    rewrite Hpick. cbn [fst snd].
    replace (0 <? waitMs)%Z with false by lia.
    erewrite bind_normal by reflexivity. cbv beta iota.
    rewrite (selectWhenNone_exhausted _ _ Hall Hmin). reflexivity. }
  split; [intros self; exact (selectWhenNone_exhausted self w1 Hall Hmin)|].
  split; [exact Hloop|]. intros fuel.
  rewrite sendMessageStream_unfold.
  destruct (maxAttempts_pos D E w) as [n ->].
  rewrite Hloop. split; reflexivity.
Qed.
End SelectionProofs.

Section SoftFailure.
Context {W : Type}.
Variable D : Deps.
Variable E : Env W.
Variable req : AnthropicRequest.
Variable fallbackEnabled : bool.
Variable self : AnthropicRequest -> bool -> M W unit.

Lemma attemptCatch_5xx status errorText w :
  (500 <= status <= 599)%Z ->
  isRateLimitError D (apiError status errorText) = false ->
  isAuthError D (apiError status errorText) = false ->
  attemptCatch D E req (apiError status errorText) w =
  mkRun (Normal (Go tt)) (pickNext E (model req) w).2
        [CPickNext (model req)] [].
Proof.
  intros Hs Hrl Hauth. unfold attemptCatch.
  rewrite Hrl, Hauth, (looksLike5xx_apiError _ _ Hs).
  rewrite (bind_normal _ _ _ _ _ _ _ (doPickNext_run E _ _)).
  reflexivity.
Qed.

Lemma attemptCatch_never_throws_5xx status errorText w x :
  outcome (attemptCatch D E req (apiError status errorText) w) = Throws x ->
  ~ (500 <= status <= 599)%Z.
Proof.
  intros Hthrow Hs. unfold attemptCatch in Hthrow.
  rewrite (looksLike5xx_apiError _ _ Hs) in Hthrow.
  destruct (isRateLimitError D _); [discriminate|].
  destruct (isAuthError D _); discriminate.
Qed.

Lemma attemptCatch_5xx_continues status errorText w :
  (500 <= status <= 599)%Z ->
  exists cs w',
    attemptCatch D E req (apiError status errorText) w
    = mkRun (Normal (Go tt)) w' cs [].
Proof.
  intros Hs. unfold attemptCatch.
  destruct (isRateLimitError D _); [by eexists _, _|].
  destruct (isAuthError D _); [by eexists _, _|].
  rewrite (looksLike5xx_apiError _ _ Hs).
  rewrite (bind_normal _ _ _ _ _ _ _ (doPickNext_run E _ _)).
  by eexists _, _.
Qed.

Lemma attemptCatch_claimed x w :
  isRateLimitError D x = true \/ isAuthError D x = true ->
  attemptCatch D E req x w = mkRun (Normal (Go tt)) w [] [].
Proof.
  intros H. unfold attemptCatch.
  destruct (isRateLimitError D x); [reflexivity|].
  destruct (isAuthError D x); [reflexivity|].
  destruct H; discriminate.
Qed.

Lemma attemptCatch_soft x w :
  isRateLimitError D x = false ->
  isAuthError D x = false ->
  JsString.includes "API error 5" (message x)
  || JsString.includes "500" (message x)
  || JsString.includes "503" (message x) = true ->
  attemptCatch D E req x w =
  mkRun (Normal (Go tt)) (pickNext E (model req) w).2
        [CPickNext (model req)] [].
Proof.
  intros Hrl Hauth Hmsg. unfold attemptCatch, looksLike5xx.
  rewrite Hrl, Hauth, Hmsg.
  rewrite (bind_normal _ _ _ _ _ _ _ (doPickNext_run E _ _)).
  reflexivity.
Qed.

End SoftFailure.

(** ** Where the source has no bound: the empty-response loop *)

Lemma outcome_after {W A} c e (r : Run W A) : outcome (after c e r) = outcome r.
Proof. reflexivity. Qed.

Lemma outcome_bind_diverges {W A B} (m : M W A) (k : A -> M W B) w :
  outcome (m w) = Diverges -> outcome ((m ≫= k) w) = Diverges.
Proof. intros H. unfold mbind, M_bind. rewrite H. reflexivity. Qed.

Lemma outcome_tryCatch_diverges {W A} (m : M W A) h w :
  outcome (m w) = Diverges -> outcome (tryCatch m h w) = Diverges.
Proof. intros H. unfold tryCatch. rewrite H. exact H. Qed.

Lemma flapping_stream t resp m :
  streamSSEResponse Sim.env resp m (Sim.flapping t)
  = (([], Some Sim.emptyError), Sim.flapping t).
Proof. reflexivity. Qed.

Lemma flapping_fetch_503 t url hdrs body :
  (t mod 1500 = 500)%Z ->
  fetch Sim.env url hdrs body (Sim.flapping t)
  = (inr (mkResponse 503 [] "overloaded"), Sim.flapping t).
Proof.
  intros H. cbn [fetch Sim.env Sim.flapping Sim.upstream Sim.clock].
  rewrite H. reflexivity.
Qed.

Lemma flapping_fetch_ok t url hdrs body :
  (t mod 1500 = 0)%Z ->
  fetch Sim.env url hdrs body (Sim.flapping t) = (inr Sim.okEmpty, Sim.flapping t).
Proof.
  intros H. cbn [fetch Sim.env Sim.flapping Sim.upstream Sim.clock].
  rewrite H. reflexivity.
Qed.

(** With an upstream that answers every other re-fetch with 503, the counter
    of the empty-response loop never advances: each iteration ends where it
    began, 1.5 s later. *)
Lemma flapping_iteration fuel url token payload t :
  (t mod 1500 = 0)%Z ->
  emptyRetryLoop Sim.deps Sim.env Sim.request (S fuel) Sim.alice url token payload
                 0 Sim.okEmpty (Sim.flapping t)
  = after [CStream Sim.okEmpty (model Sim.request);
           CSleep 500;
           CFetch url (streamHeaders Sim.deps Sim.request token)
                  (JSON_stringify Sim.deps payload);
           CSleep 1000;
           CFetch url (streamHeaders Sim.deps Sim.request token)
                  (JSON_stringify Sim.deps payload)] []
          (emptyRetryLoop Sim.deps Sim.env Sim.request fuel Sim.alice url token
                          payload 0 Sim.okEmpty (Sim.flapping (t + 1500))).
Proof.
  intros Ht. cbn [emptyRetryLoop].
  change (MAX_EMPTY_RESPONSE_RETRIES Sim.deps <? 0)%Z with false. cbv iota.
  rewrite (bind_normal _ _ _ _ _ _ _ (doStream_run Sim.env _ _ _)).
  rewrite flapping_stream. cbn [fst snd].
  change (isEmptyResponseError Sim.deps Sim.emptyError) with true.
  change (MAX_EMPTY_RESPONSE_RETRIES Sim.deps <=? 0)%Z with false.
  cbn [negb]. cbv iota.
  rewrite (bind_normal _ _ _ _ _ _ _ (doSleep_run Sim.env _ _)).
  change (sleep Sim.env (500 * 2 ^ 0) (Sim.flapping t))
    with (Sim.flapping (t + 500)).
  assert (H1 : ((t + 500) mod 1500 = 500)%Z)
    by (Z.to_euclidean_division_equations; lia).
  rewrite (bind_normal _ _ _ _ _ _ _
             (doFetch_ok Sim.env _ _ _ _ _ _ (flapping_fetch_503 _ _ _ _ H1))).
  change (ok (mkResponse 503 [] "overloaded")) with false.
  change (status (mkResponse 503 [] "overloaded")) with 503%Z.
  cbn [negb Z.eqb Z.leb Z.compare Pos.eqb Pos.compare Pos.compare_cont].
  cbv iota.
  rewrite (bind_normal _ _ _ _ _ _ _ (doSleep_run Sim.env _ _)).
  change (sleep Sim.env 1000 (Sim.flapping (t + 500)))
    with (Sim.flapping (t + 500 + 1000)).
  replace (t + 500 + 1000)%Z with (t + 1500)%Z by lia.
  assert (H2 : ((t + 1500) mod 1500 = 0)%Z)
    by (Z.to_euclidean_division_equations; lia).
  rewrite (bind_normal _ _ _ _ _ _ _
             (doFetch_ok Sim.env _ _ _ _ _ _ (flapping_fetch_ok _ _ _ _ H2))).
  change (ok Sim.okEmpty) with true. cbv iota.
  replace (0 - 1 + 1)%Z with 0%Z by lia.
  rewrite !after_after. reflexivity.
Qed.

Lemma flapping_loop_spins fuel url token payload t :
  (t mod 1500 = 0)%Z ->
  outcome (emptyRetryLoop Sim.deps Sim.env Sim.request fuel Sim.alice url token
                          payload 0 Sim.okEmpty (Sim.flapping t)) = Diverges.
Proof.
  revert t. induction fuel as [|fuel IH]; intros t Ht; [reflexivity|].
  rewrite (flapping_iteration fuel url token payload t Ht), outcome_after.
  apply IH. Z.to_euclidean_division_equations; lia.
Qed.

(** No amount of fuel lets the call end: the handler never returns and
    never throws in that world. *)
Lemma flapping_request_never_ends fuel :
  outcome (sendMessageStream Sim.deps Sim.env fuel Sim.request false
                             (Sim.flapping 0)) = Diverges.
Proof.
  destruct fuel as [|fuel]; [reflexivity|].
  rewrite sendMessageStream_unfold, outcome_after.
  change (Z.to_nat (maxAttempts Sim.deps Sim.env (Sim.flapping 0))) with 5.
  cbn [attemptLoop].
  erewrite bind_normal by (eapply selectAccount_sticky; reflexivity).
  rewrite outcome_after. apply outcome_bind_diverges, outcome_tryCatch_diverges.
  unfold attemptTry.
  erewrite bind_normal by (eapply doGetToken_ok; reflexivity).
  erewrite bind_normal by (eapply doGetProject_ok; reflexivity).
  rewrite !outcome_after. apply outcome_bind_diverges.
  change (ANTIGRAVITY_ENDPOINT_FALLBACKS Sim.deps) with [Sim.daily; Sim.prod].
  cbn [endpointLoop].
  apply outcome_bind_diverges, outcome_tryCatch_diverges.
  unfold endpointTry.
  erewrite bind_normal
    by (eapply doFetch_ok; apply flapping_fetch_ok; reflexivity).
  change (ok Sim.okEmpty) with true. cbn [negb]. cbv iota.
  rewrite outcome_after. apply outcome_bind_diverges.
  apply flapping_loop_spins. reflexivity.
Qed.

Example fallback_does_not_chain :
  let r := sendMessageStream Sim.deps Sim.env 3 Sim.opusRequest true
                             Sim.unavailable in
  outcome r = Throws (Error "Max retries exceeded") /\
  enters (calls r)
  = [("claude-opus-4-5-thinking", true); ("gemini-3-pro-high", false)] /\
  countPicks (calls r) = 10.
Proof. vm_compute. repeat split; reflexivity. Qed.

(** ** Runs in the simulated environment *)

Example unauthorized_run_attempts :
  ownAttempts (calls (sendMessageStream Sim.deps Sim.env 3 Sim.request false
                                        Sim.unauthorized)) = 5.
Proof. vm_compute. reflexivity. Qed.

Example unauthorized_run_calls :
  triedAccounts (calls (sendMessageStream Sim.deps Sim.env 3 Sim.request false
                                          Sim.unauthorized))
  = replicate 5 "alice@example.com".
Proof. vm_compute. reflexivity. Qed.



Example crowd_run :
  triedAccounts (calls (sendMessageStream Sim.deps Sim.env 3 Sim.request false
                                          Sim.crowd))
  = ["alice@example.com"; "bob@example.com"; "carol@example.com";
     "dan@example.com"; "eve@example.com"; "alice@example.com"].
Proof. vm_compute. reflexivity. Qed.



Lemma silent_scenario :
  EmptyResponseScenario Sim.deps Sim.env Sim.request Sim.silent Sim.alice
    "token-of-alice@example.com" "project-1" Sim.daily Sim.okEmpty
    [Sim.okEmpty; Sim.okEmpty] Sim.silent.
Proof.
  split.
  - eexists. reflexivity.
  - reflexivity.
  - do 4 eexists. repeat split; reflexivity.
  - reflexivity.
  - cbn [emptyStreak]. repeat split; try reflexivity;
      try (eexists; split; reflexivity).
    + eexists. split; [reflexivity|]. repeat split; try reflexivity;
        try (eexists; split; reflexivity).
      eexists. split; [reflexivity|]. repeat split; try reflexivity.
      eexists; split; reflexivity.
Defined.

Lemma empty_streak_yields_fallback_witness :
  let r := sendMessageStream Sim.deps Sim.env 4 Sim.request false Sim.silent in
  outcome r = Normal tt /\
  streamsOf (calls r) = [Sim.okEmpty; Sim.okEmpty; Sim.okEmpty] /\
  (exists messageId, events r = fallbackEvents messageId "claude-sonnet-4-5") /\
  oneTextBlockMessage (events r).
Proof.
  apply (empty_streak_yields_fallback Sim.deps Sim.env Sim.request 4 false
           Sim.silent Sim.alice "token-of-alice@example.com" "project-1"
           Sim.daily Sim.okEmpty [Sim.okEmpty; Sim.okEmpty] Sim.silent).
  - exact silent_scenario.
  - cbn. lia.
Defined.

Lemma empty_retry_backoff_doubles_witness :
  let r := sendMessageStream Sim.deps Sim.env 4 Sim.request false Sim.silent in
  sleepsOf (calls r) = [500; 1000]%Z /\
  fetchesOf (calls r)
  = replicate 3 ("https://daily.example/v1internal:streamGenerateContent?alt=sse",
                 [("Authorization", "Bearer token-of-alice@example.com");
                  ("Accept", "text/event-stream")],
                 "payload-for-project-1").
Proof.
  destruct (empty_retry_backoff_doubles Sim.deps Sim.env Sim.request 4 false
              Sim.silent Sim.alice "token-of-alice@example.com" "project-1"
              Sim.daily Sim.okEmpty [Sim.okEmpty; Sim.okEmpty] Sim.silent)
    as (Hsleeps & Hfetches & _).
  - exact silent_scenario.
  - cbn. lia.
  - split; [exact Hsleeps | exact Hfetches].
Defined.

Lemma all_429_marks_earliest_reset_witness :
  exists cs w',
    attemptLoop Sim.deps Sim.env Sim.request false (fun _ _ => diverge) 1 2
                Sim.throttled
    = after (cs ++ [CMarkRateLimited "alice@example.com" (Some 30000%Z)
                                     "claude-sonnet-4-5"]) []
            (attemptLoop Sim.deps Sim.env Sim.request false
                         (fun _ _ => diverge) 1 1 w')
    /\ Sim.limited w' = [("alice@example.com", 30000%Z)].
Proof.
  destruct (all_429_marks_earliest_reset Sim.deps Sim.env Sim.request false
              (fun _ _ => diverge) 1 1 Sim.throttled Sim.alice
              "token-of-alice@example.com" "project-1"
              [Sim.quota60; Sim.quota30] Sim.throttled)
    as (kept & _ & _ & Hexact & Hrun).
  - split.
    + discriminate.
    + do 4 eexists. repeat split; try reflexivity;
        eexists; split; try reflexivity.
      repeat split; try reflexivity. eexists; split; reflexivity.
    + intros errorText. vm_compute. reflexivity.
  - assert (Hkept : resetOf Sim.deps kept = Some 30000%Z).
    { rewrite Hexact; [reflexivity|].
      repeat constructor; vm_compute; discriminate. }
    rewrite Hkept in Hrun.
    eexists [_; _; _; _; _], _. split; [exact Hrun | reflexivity].
Defined.

Lemma exhausted_pool_fails_fast_witness :
  let r := sendMessageStream Sim.deps Sim.env 2 Sim.request true Sim.exhausted in
  outcome r =
    Throws (Error ("RESOURCE_EXHAUSTED: Rate limited on claude-sonnet-4-5. "
                   ++ "Quota will reset after 300000ms. "
                   ++ "Next available: T+300000")) /\
  sleepsOf (calls r) = [].
Proof.
  destruct (exhausted_pool_fails_fast Sim.deps Sim.env Sim.request true
              Sim.exhausted 0%Z Sim.exhausted) as (_ & _ & H).
  - reflexivity.
  - lia.
  - reflexivity.
  - vm_compute. reflexivity.
  - destruct (H 1) as [Hr Hs]. split; [rewrite Hr; reflexivity | exact Hs].
Defined.


(* ===================================================================== *)
(** * Part III. Further properties                                       *)
(* ===================================================================== *)

(** ** Model listing and quotas *)

Lemma ofZ_inj (a b : Z) : JsString.ofZ a = JsString.ofZ b -> a = b.
Proof.
  unfold JsString.ofZ. intros H.
  assert (Hnil : forall z, Z.to_int z <> Decimal.Pos Decimal.Nil /\
                           Z.to_int z <> Decimal.Neg Decimal.Nil).
  { intros z. split; intros Hz;
      pose proof (DecimalZ.of_to z) as Hof; rewrite Hz in Hof;
      cbn in Hof; subst z; discriminate. }
  apply (f_equal NilZero.int_of_string) in H.
  rewrite !NilZero.isi in H by apply Hnil.
  injection H as H. apply (f_equal Z.of_int) in H.
  by rewrite !DecimalZ.of_to in H.
Qed.

Lemma ofNat_inj (i j : nat) : JsString.ofNat i = JsString.ofNat j -> i = j.
Proof. unfold JsString.ofNat. intros H%ofZ_inj. lia. Qed.

Lemma NoDup_indexed_names {A} (l : list A) :
  NoDup (imap (fun i x => (JsString.ofNat i, x)) l).*1.
Proof.
  apply NoDup_alt. intros i j k Hi Hj.
  rewrite list_lookup_fmap in Hi, Hj.
  rewrite list_lookup_imap in Hi, Hj.
  destruct (l !! i) as [x|] eqn:Hx; [|discriminate].
  destruct (l !! j) as [y|] eqn:Hy; [|discriminate].
  cbn in Hi, Hj. injection Hi as Hi. injection Hj as Hj.
  apply ofNat_inj. congruence.
Qed.

Section ModelsProofs.
Import Models.
Context {Num W : Type}.
Variable num_truthy : Num -> bool.
Variable fetch : Request -> W -> Fetched Num * W.
Variable JSON_stringify : JsVal Num -> string.
Variable ENDPOINTS : list string.
Variable HEADERS : gmap string string.
Variable getModelFamily : string -> string.
Variable ownEntries : gmap string (JsVal Num) -> list (string * JsVal Num).
Variable epochAt : nat -> Num.

#[local] Abbreviation tryModels :=
  (tryModelsEndpoint fetch JSON_stringify HEADERS).
#[local] Abbreviation loopModels := (modelsLoop fetch JSON_stringify HEADERS).
#[local] Abbreviation failModels :=
  (modelsEndpointsFail fetch JSON_stringify HEADERS).
#[local] Abbreviation afterModels :=
  (modelsWorldAfter fetch JSON_stringify HEADERS).
#[local] Abbreviation supported := (isSupportedModel getModelFamily).
#[local] Abbreviation entriesOf := (Object_entries ownEntries).

#[local] Abbreviation answerModels :=
  (modelsAnswerAt fetch JSON_stringify HEADERS).
#[local] Abbreviation afterRequest :=
  (modelsWorldAfterRequest fetch JSON_stringify HEADERS).

(** One iteration of the loop, read off the network's answer. *)
Lemma tryModels_answer e token w :
  tryModels e token w = (answerModels e token w, afterRequest e token w).
Proof.
  unfold tryModelsEndpoint, modelsAnswerAt, modelsWorldAfterRequest.
  destruct (fetch _ w) as [[|okk st json] w']; cbn [fst snd];
    [reflexivity|]. destruct okk; cbn [negb]; [|reflexivity].
  by destruct json.
Qed.

Lemma modelsLoop_app pre post token w :
  failModels pre token w ->
  loopModels (pre ++ post) token w
  = loopModels post token (afterModels pre token w).
Proof.
  revert w. induction pre as [|e pre IH]; intros w; [reflexivity|].
  cbn [modelsEndpointsFail app modelsLoop]. intros [Hf Hrest].
  unfold modelsWorldAfter. cbn [foldl].
  rewrite tryModels_answer, Hf. apply IH. exact Hrest.
Qed.

Lemma modelsLoop_fails endpoints token w :
  (loopModels endpoints token w).1 = inl AllEndpointsFailed
  <-> failModels endpoints token w.
Proof.
  revert w. induction endpoints as [|e rest IH]; intros w;
    cbn [modelsLoop modelsEndpointsFail]; [by split|].
  rewrite tryModels_answer.
  destruct (answerModels e token w) as [data|] eqn:Ht; cbn [fst snd].
  - split; [discriminate|]. by intros [? _].
  - rewrite IH. split; [by split|]. by intros [_ ?].
Qed.

Lemma modelsLoop_thrown endpoints token w e :
  (loopModels endpoints token w).1 = inl e -> e = AllEndpointsFailed.
Proof.
  revert w. induction endpoints as [|e' rest IH]; intros w;
    cbn [modelsLoop]; [by intros [= <-]|].
  destruct (tryModels e' token w) as [[data|] w'] eqn:Ht; cbn [fst];
    [discriminate | apply IH].
Qed.

Lemma modelsLoop_all_fail endpoints token w :
  failModels endpoints token w ->
  loopModels endpoints token w
  = (inl AllEndpointsFailed, afterModels endpoints token w).
Proof.
  revert w. induction endpoints as [|e rest IH]; intros w; [reflexivity|].
  cbn [modelsEndpointsFail modelsLoop]. intros [Hf Hrest].
  rewrite tryModels_answer, Hf. unfold modelsWorldAfter. cbn [foldl].
  by apply IH.
Qed.

(** Property X2.
    [fetchAvailableModels] returns the body of the first endpoint, in the
    order of the list, that answers ok with a body that parses: when the
    endpoints before [e] give no answer and [e] answers [data], the result
    is [data], and the state of the world is the one [e]'s request left, so
    no endpoint after [e] is contacted. *)
Theorem fetchAvailableModels_first_answer pre e post data token w :
  ENDPOINTS = (pre ++ e :: post)%list ->
  failModels pre token w ->
  answerModels e token (afterModels pre token w) = Some data ->
  fetchAvailableModels fetch JSON_stringify ENDPOINTS HEADERS token w
  = (inr data, afterRequest e token (afterModels pre token w)).
Proof.
  intros -> Hpre He. unfold fetchAvailableModels.
  rewrite modelsLoop_app by exact Hpre. cbn [modelsLoop].
  by rewrite tryModels_answer, He.
Qed.

(** Property X3.
    [fetchAvailableModels] throws exactly when no endpoint answers (each
    request is rejected, or its response is not ok, or its body does not
    parse); it has then asked every endpoint, and the error is the one it
    raises itself after the loop. *)
Theorem fetchAvailableModels_throws_iff token w :
  let result :=
    fetchAvailableModels fetch JSON_stringify ENDPOINTS HEADERS token w in
  (result.1 = inl AllEndpointsFailed <-> failModels ENDPOINTS token w) /\
  (failModels ENDPOINTS token w ->
   result = (inl AllEndpointsFailed, afterModels ENDPOINTS token w)) /\
  (forall e, result.1 = inl e -> e = AllEndpointsFailed) /\
  (ENDPOINTS = [] -> result.1 = inl AllEndpointsFailed).
Proof.
  cbn zeta. unfold fetchAvailableModels. split; [|split; [|split]].
  - apply modelsLoop_fails.
  - apply modelsLoop_all_fail.
  - intros e. apply modelsLoop_thrown.
  - intros ->. reflexivity.
Qed.

(** *** Quotas *)

Lemma orNull_defined (v : JsVal Num) : orNull v <> VUndef.
Proof. by destruct v. Qed.

Lemma NoDup_Object_entries (v : JsVal Num) :
  (forall m, ownEntries m ≡ₚ map_to_list m) ->
  NoDup (entriesOf v).*1.
Proof.
  intros Hperm. destruct v; cbn [Object_entries fmap list_fmap];
    try apply NoDup_nil_2; try apply NoDup_indexed_names.
  rewrite (Hperm m). apply NoDup_fst_map_to_list.
Qed.

Lemma quotaLoop_spec entries q0 q :
  quotaLoop num_truthy getModelFamily entries q0 = inr q ->
  NoDup entries.*1 ->
  (forall id, id ∈ entries.*1 -> q0 !! id = None) ->
  forall id v,
    q !! id = Some v <-> q0 !! id = Some v \/ hasQuota num_truthy getModelFamily entries id v.
Proof.
  revert q0. induction entries as [|[id0 md0] rest IH]; intros q0 Hq Hnd Hfresh id v.
  - cbn in Hq. injection Hq as <-. split; [by left|].
    intros [H|(_ & _ & md & Hin & _)]; [exact H|]. by apply elem_of_nil in Hin.
  - cbn [fmap list_fmap fst] in Hnd. apply NoDup_cons in Hnd as [Hnotin Hnd].
    assert (Hcons : forall id v, hasQuota num_truthy getModelFamily ((id0, md0) :: rest) id v <->
              (id = id0 /\ id <> "__proto__" /\ supported id = true /\
               truthy num_truthy (fieldOf md0 "quotaInfo") = true /\
               v = quotaOf (fieldOf md0 "quotaInfo"))
              \/ hasQuota num_truthy getModelFamily rest id v).
    { intros id' v'. unfold hasQuota. split.
      - intros (Hp & Hs & md & Hin & Ht & Hv).
        apply elem_of_cons in Hin as [[= -> ->]|Hin]; [left; auto|].
        right. eauto 10.
      - intros [(-> & Hp & Hs & Ht & Hv)|(Hp & Hs & md & Hin & Ht & Hv)].
        + repeat split; auto. exists md0. split; [left|auto].
        + repeat split; auto. exists md. split; [by right|auto]. }
    assert (Hrest_ne : forall v, hasQuota num_truthy getModelFamily rest id0 v -> False).
    { intros v' (_ & _ & md & Hin & _). apply Hnotin.
      apply list_elem_of_fmap. by exists (id0, md). }
    cbn [quotaLoop] in Hq. rewrite Hcons.
    destruct (supported id0) eqn:Hs0; cbn [negb] in Hq.
    2:{ rewrite (IH q0 Hq Hnd); [|intros; apply Hfresh; by right].
        split; [intros [?|?]; auto|].
        intros [?|[(-> & _ & Hs & _)|?]]; auto. congruence. }
    destruct (getProp md0 "quotaInfo") as [qi|] eqn:Hqi; [|discriminate].
    assert (Hfield : fieldOf md0 "quotaInfo" = qi).
    { destruct md0; cbn in Hqi; try discriminate; by injection Hqi. }
    rewrite Hfield.
    destruct (truthy num_truthy qi) eqn:Htq.
    2:{ rewrite (IH q0 Hq Hnd); [|intros; apply Hfresh; by right].
        split; [intros [?|?]; auto|].
        intros [?|[(-> & _ & _ & Ht & _)|?]]; auto. congruence. }
    unfold assign in Hq.
    destruct (String.eqb id0 "__proto__") eqn:Hproto.
    { apply String.eqb_eq in Hproto.
      rewrite (IH q0 Hq Hnd); [|intros; apply Hfresh; by right].
      split; [intros [?|?]; auto|].
      intros [?|[(-> & Hp & _)|?]]; auto. congruence. }
    apply String.eqb_neq in Hproto.
    rewrite (IH _ Hq Hnd).
    2:{ intros id' Hin. rewrite lookup_insert_ne.
        - apply Hfresh. by right.
        - intros <-. by apply Hnotin. }
    destruct (decide (id = id0)) as [->|Hne].
    + rewrite lookup_insert_eq, (Hfresh id0) by (by left).
      split.
      * intros [[= <-]|Hr]; [|by destruct (Hrest_ne _ Hr)].
        right. left. auto.
      * intros [?|[(_ & _ & _ & _ & ->)|Hr]]; [discriminate|by left|].
        by destruct (Hrest_ne _ Hr).
    + rewrite lookup_insert_ne by congruence.
      split; [intros [?|?]; auto|].
      intros [?|[(-> & _)|?]]; auto. congruence.
Qed.

Lemma Object_entries_falsy (v : JsVal Num) :
  truthy num_truthy v = false -> entriesOf v = [].
Proof.
  destruct v as [| |b|n|s|l|m]; cbn [truthy Object_entries]; try done.
  destruct s; [reflexivity|discriminate].
Qed.

Lemma models_falsy (data : JsVal Num) :
  truthy num_truthy data = false -> entriesOf (fieldOf data "models") = [].
Proof. destruct data; cbn [truthy fieldOf Object_entries]; done. Qed.

Lemma quotasOf_spec data quotas :
  (forall m, ownEntries m ≡ₚ map_to_list m) ->
  quotasOf num_truthy getModelFamily ownEntries data = inr quotas ->
  forall id v,
    quotas !! id = Some v <->
    hasQuota num_truthy getModelFamily (entriesOf (fieldOf data "models")) id v.
Proof.
  intros Hperm Hq id v. unfold quotasOf in Hq.
  assert (Hnone : entriesOf (fieldOf data "models") = [] ->
                  (inr ∅ : Thrown + _) = inr quotas ->
                  (quotas !! id = Some v <->
                   hasQuota num_truthy getModelFamily
                            (entriesOf (fieldOf data "models")) id v)).
  { intros -> [= <-]. rewrite lookup_empty. split; [discriminate|].
    intros (_ & _ & md & Hin & _). by apply elem_of_nil in Hin. }
  destruct (truthy num_truthy data) eqn:Hd; cbn [negb] in Hq;
    [|by apply Hnone; [apply models_falsy|]].
  destruct (truthy num_truthy (fieldOf data "models")) eqn:Hm; cbn [negb] in Hq;
    [|by apply Hnone; [apply Object_entries_falsy|]].
  rewrite (quotaLoop_spec _ _ _ Hq);
    [| by apply NoDup_Object_entries | intros; apply lookup_empty].
  rewrite lookup_empty. split; [intros [?|?]; [discriminate|auto] | by right].
Qed.

(** *** The model list *)

Lemma describeFrom_spec k entries l :
  describeFrom num_truthy epochAt k entries = inr l ->
  l = imap (fun i e => modelEntry num_truthy epochAt (k + i) e.1
                                  (fieldOf e.2 "displayName")) entries.
Proof.
  revert k l. induction entries as [|[id md] rest IH]; intros k l;
    cbn [describeFrom]; [by intros [= <-]|].
  destruct (getProp md "displayName") as [dn|] eqn:Hdn; [|discriminate].
  destruct (describeFrom num_truthy epochAt (S k) rest) as [|tail] eqn:Ht;
    [discriminate|].
  intros [= <-]. cbn [imap]. rewrite Nat.add_0_r. f_equal.
  - destruct md; cbn in Hdn; try discriminate; by injection Hdn as <-.
  - rewrite (IH _ _ Ht). apply imap_ext. intros i e _. cbn. do 2 f_equal. lia.
Qed.

Lemma describeFrom_throws k entries e :
  describeFrom num_truthy epochAt k entries = inl e
  <-> e = TypeError /\ Exists (fun e => isNullish e.2 = true) entries.
Proof.
  revert k e. induction entries as [|[id md] rest IH]; intros k e;
    cbn [describeFrom].
  - split; [discriminate|]. intros [_ H]. inversion H.
  - rewrite Exists_cons. cbn [snd].
    destruct (getProp md "displayName") as [dn|] eqn:Hdn.
    + assert (Hmd : isNullish md = false) by (by destruct md).
      rewrite Hmd.
      destruct (describeFrom num_truthy epochAt (S k) rest) as [e'|tail] eqn:Ht.
      * split.
        -- intros [= <-]. apply IH in Ht as [-> Hex]. auto.
        -- intros [-> _]. apply IH in Ht as [-> _]. reflexivity.
      * split; [discriminate|]. intros [-> [?|Hex]]; [discriminate|].
        assert (Hi : describeFrom num_truthy epochAt (S k) rest = inl TypeError)
          by (apply IH; auto). congruence.
    + assert (Hmd : isNullish md = true) by (by destruct md).
      split; [intros [= <-]; auto | by intros [-> _]].
Qed.

Lemma quotaLoop_throws entries q0 e :
  quotaLoop num_truthy getModelFamily entries q0 = inl e
  <-> e = TypeError /\
      Exists (fun e => supported e.1 = true /\ isNullish e.2 = true) entries.
Proof.
  revert q0. induction entries as [|[id md] rest IH]; intros q0;
    cbn [quotaLoop].
  - split; [discriminate|]. intros [_ H]. inversion H.
  - assert (Hskip : forall q,
      (supported id = true /\ isNullish md = true -> False) ->
      quotaLoop num_truthy getModelFamily rest q = inl e <->
      e = TypeError /\
      Exists (fun e => supported e.1 = true /\ isNullish e.2 = true)
             ((id, md) :: rest)).
    { intros q Hno. rewrite IH, Exists_cons. cbn [fst snd].
      split; [intros [-> Hex]; auto|].
      intros [-> [Hex|Hex]]; [by destruct Hno|auto]. }
    destruct (supported id) eqn:Hs; cbn [negb].
    2:{ apply Hskip. intros [? _]. discriminate. }
    destruct md; cbn [getProp];
      try (split; [intros [= <-]; split; [reflexivity|by left]|by intros [-> _]]);
      (match goal with |- context [truthy ?f ?x] => destruct (truthy f x) end;
       apply Hskip; intros [_ ?]; discriminate).
Qed.

Lemma shownEntries_NoDup data :
  (forall m, ownEntries m ≡ₚ map_to_list m) ->
  NoDup (shownEntries getModelFamily ownEntries data).*1.
Proof.
  intros Hperm. unfold shownEntries.
  pose proof (NoDup_Object_entries (fieldOf data "models") Hperm) as Hnd.
  induction (entriesOf (fieldOf data "models")) as [|[id md] rest IH];
    [constructor|].
  cbn [fmap list_fmap fst] in Hnd. apply NoDup_cons in Hnd as [Hnotin Hnd].
  cbn [List.filter fst]. destruct (supported id); [|by apply IH].
  cbn [fmap list_fmap fst]. apply NoDup_cons. split; [|by apply IH].
  intros Hin. apply Hnotin. apply list_elem_of_fmap in Hin as ([id' md'] & -> & Hin).
  apply list_elem_of_fmap. exists (id', md'). split; [reflexivity|].
  apply list_elem_of_In, filter_In in Hin as [Hin _]. by apply list_elem_of_In.
Qed.

Lemma idsOf_imap (entries : list (string * JsVal Num)) k :
  idsOf (imap (fun i e => modelEntry num_truthy epochAt (k + i) e.1
                                     (fieldOf e.2 "displayName")) entries)
  = (fun e => VStr e.1) <$> entries.
Proof.
  revert k. induction entries as [|e rest IH]; intros k; [reflexivity|].
  cbn [imap idsOf fmap list_fmap]. f_equal.
  specialize (IH (S k)). unfold idsOf in IH. rewrite <- IH.
  f_equal. apply imap_ext. intros i x _. cbn. do 2 f_equal. lia.
Qed.

Lemma listOf_shown data l :
  listOf num_truthy getModelFamily ownEntries epochAt data = inr l ->
  l = imap (fun i e => modelEntry num_truthy epochAt (0 + i) e.1
                                  (fieldOf e.2 "displayName"))
           (shownEntries getModelFamily ownEntries data).
Proof.
  unfold listOf, shownEntries.
  destruct (truthy num_truthy data) eqn:Hd; cbn [negb];
    [|rewrite models_falsy by done; by intros [= <-]].
  destruct (truthy num_truthy (fieldOf data "models")) eqn:Hm; cbn [negb];
    [|rewrite Object_entries_falsy by done; by intros [= <-]].
  apply describeFrom_spec.
Qed.

Lemma listOf_throws data e :
  listOf num_truthy getModelFamily ownEntries epochAt data = inl e
  <-> e = TypeError /\
      Exists (fun e => isNullish e.2 = true)
             (shownEntries getModelFamily ownEntries data).
Proof.
  unfold listOf, shownEntries.
  destruct (truthy num_truthy data) eqn:Hd; cbn [negb].
  2:{ rewrite models_falsy by done. cbn.
      split; [discriminate|]. intros [_ H]. inversion H. }
  destruct (truthy num_truthy (fieldOf data "models")) eqn:Hm; cbn [negb].
  2:{ rewrite Object_entries_falsy by done. cbn.
      split; [discriminate|]. intros [_ H]. inversion H. }
  apply describeFrom_throws.
Qed.

Lemma quotasOf_throws data e :
  quotasOf num_truthy getModelFamily ownEntries data = inl e
  <-> e = TypeError /\
      Exists (fun e => isNullish e.2 = true)
             (shownEntries getModelFamily ownEntries data).
Proof.
  unfold quotasOf, shownEntries.
  destruct (truthy num_truthy data) eqn:Hd; cbn [negb].
  2:{ rewrite models_falsy by done. cbn.
      split; [discriminate|]. intros [_ H]. inversion H. }
  destruct (truthy num_truthy (fieldOf data "models")) eqn:Hm; cbn [negb].
  2:{ rewrite Object_entries_falsy by done. cbn.
      split; [discriminate|]. intros [_ H]. inversion H. }
  rewrite quotaLoop_throws.
  split; intros [-> Hex]; (split; [reflexivity|]);
    apply Exists_exists; apply Exists_exists in Hex as ([id md] & Hin & Hx).
  - destruct Hx as [Hs Hn]. exists (id, md). split; [|exact Hn].
    apply list_elem_of_In, filter_In. split; [by apply list_elem_of_In|exact Hs].
  - apply list_elem_of_In, filter_In in Hin as [Hin Hs].
    exists (id, md). split; [by apply list_elem_of_In|by split].
Qed.

Lemma not_null_no_throw {A} (shown : list (string * JsVal Num))
      (r : Thrown + A) :
  (forall e, r = inl e ->
             e = TypeError /\ Exists (fun e => isNullish e.2 = true) shown) ->
  Forall (fun e => isNullish e.2 = false) shown ->
  exists a, r = inr a.
Proof.
  intros Hthrow Hall. destruct r as [e|a]; [|by exists a].
  destruct (Hthrow e eq_refl) as [_ Hex].
  apply Exists_exists in Hex as (x & Hin & Hn).
  rewrite Forall_forall in Hall. specialize (Hall x Hin). congruence.
Qed.

(** *** Quotas and the model list *)

(** Property X4.
    [getModelQuotas] passes on the error of [fetchAvailableModels]; it
    throws a TypeError when the data of a supported model is [null]; and
    otherwise it reports a quota for exactly the supported models of the
    fetched answer that carry a [quotaInfo] (the name '__proto__' apart,
    which an assignment cannot add), never for an unsupported model; each
    entry has the two fields [remainingFraction] and [resetTime] and
    nothing else, [null] where the answer has none. *)
Theorem getModelQuotas_reports_supported token w fetched w' :
  (forall m, ownEntries m ≡ₚ map_to_list m) ->
  fetchAvailableModels fetch JSON_stringify ENDPOINTS HEADERS token w
  = (fetched, w') ->
  let result :=
    getModelQuotas num_truthy fetch JSON_stringify ENDPOINTS HEADERS
                   getModelFamily ownEntries token w in
  match fetched with
  | inl e => result = (inl e, w')
  | inr data =>
      let shown := shownEntries getModelFamily ownEntries data in
      (Exists (fun e => isNullish e.2 = true) shown ->
       result = (inl TypeError, w')) /\
      (Forall (fun e => isNullish e.2 = false) shown ->
       exists quotas,
         result = (inr quotas, w') /\
         (forall id v,
            quotas !! id = Some v <->
            hasQuota num_truthy getModelFamily
                     (entriesOf (fieldOf data "models")) id v) /\
         (forall id v,
            quotas !! id = Some v ->
            isSupportedModel getModelFamily id = true /\
            exists remaining reset,
              v = VObj (<["resetTime" := reset]>
                       (<["remainingFraction" := remaining]> ∅)) /\
              remaining <> VUndef /\ reset <> VUndef))
  end.
Proof.
  intros Hperm Hf. cbn zeta. unfold getModelQuotas. rewrite Hf.
  destruct fetched as [e|data]; [reflexivity|]. split.
  - intros Hex.
    assert (Hq : quotasOf num_truthy getModelFamily ownEntries data
                 = inl TypeError) by (apply quotasOf_throws; auto).
    by rewrite Hq.
  - intros Hall.
    destruct (not_null_no_throw _
                (quotasOf num_truthy getModelFamily ownEntries data)
                (fun e => proj1 (quotasOf_throws data e)) Hall)
      as [quotas Hq].
    exists quotas. rewrite Hq. split; [reflexivity|].
    pose proof (quotasOf_spec data quotas Hperm Hq) as Hspec.
    split; [exact Hspec|].
    intros id v Hv. apply Hspec in Hv as (_ & Hs & md & _ & _ & ->).
    split; [exact Hs|].
    unfold quotaOf. eexists _, _. split; [reflexivity|].
    split; apply orNull_defined.
Qed.

(** Property X5.
    [listModels] passes on the error of [fetchAvailableModels]; it throws
    a TypeError when the data of a supported model is [null]; and
    otherwise it lists the supported models of the fetched answer, each
    once, in the order of the answer, and no unsupported one; each with
    object 'model', owner 'anthropic', and as description the display name
    or, when that is missing or empty, the model id. *)
Theorem listModels_lists_supported token w fetched w' :
  (forall m, ownEntries m ≡ₚ map_to_list m) ->
  fetchAvailableModels fetch JSON_stringify ENDPOINTS HEADERS token w
  = (fetched, w') ->
  let result :=
    listModels num_truthy fetch JSON_stringify ENDPOINTS HEADERS
               getModelFamily ownEntries epochAt token w in
  match fetched with
  | inl e => result = (inl e, w')
  | inr data =>
      let shown := shownEntries getModelFamily ownEntries data in
      (Exists (fun e => isNullish e.2 = true) shown ->
       result = (inl TypeError, w')) /\
      (Forall (fun e => isNullish e.2 = false) shown ->
       exists l,
         result = (inr (modelList l), w') /\
         idsOf l = (fun e => VStr e.1) <$> shown /\
         NoDup (idsOf l) /\
         Forall (fun e => supported e.1 = true) shown /\
         Forall2 (fun e a =>
                    fieldOf a "object" = VStr "model" /\
                    fieldOf a "owned_by" = VStr "anthropic" /\
                    fieldOf a "description"
                    = jsOr num_truthy (fieldOf e.2 "displayName") (VStr e.1))
                 shown l)
  end.
Proof.
  intros Hperm Hf. cbn zeta. unfold listModels. rewrite Hf.
  destruct fetched as [e|data]; [reflexivity|]. split.
  - intros Hex.
    assert (Hl : listOf num_truthy getModelFamily ownEntries epochAt data
                 = inl TypeError) by (apply listOf_throws; auto).
    by rewrite Hl.
  - intros Hall.
    destruct (not_null_no_throw _
                (listOf num_truthy getModelFamily ownEntries epochAt data)
                (fun e => proj1 (listOf_throws data e)) Hall)
      as [l Hl].
    exists l. rewrite Hl. split; [reflexivity|].
    rewrite (listOf_shown data l Hl).
    set (shown := shownEntries getModelFamily ownEntries data).
    rewrite (idsOf_imap shown 0).
    split; [reflexivity|]. split; [|split].
    + pose proof (shownEntries_NoDup data Hperm) as Hnd. fold shown in Hnd.
      change ((fun e : string * JsVal Num => VStr e.1) <$> shown)
        with ((@VStr Num ∘ fst) <$> shown).
      rewrite list_fmap_compose.
      apply NoDup_fmap; [by intros ?? [= ->]|exact Hnd].
    + apply Forall_forall. intros x Hx. unfold shown, shownEntries in Hx.
      apply list_elem_of_In, filter_In in Hx as [_ Hx]. exact Hx.
    + apply Forall2_same_length_lookup. split; [by rewrite length_imap|].
      intros i x a Hx Ha. rewrite list_lookup_imap, Hx in Ha.
      cbn in Ha. injection Ha as <-. by repeat split.
Qed.

(** Property X6.
    [listModels] and [getModelQuotas] agree on one answer: one throws (a
    TypeError, for a supported model whose data is [null]) exactly when
    the other does, and otherwise every model that has a quota entry is in
    the model list. *)
Theorem listModels_covers_quotas data :
  (forall m, ownEntries m ≡ₚ map_to_list m) ->
  (forall e,
     quotasOf num_truthy getModelFamily ownEntries data = inl e
     <-> listOf num_truthy getModelFamily ownEntries epochAt data = inl e) /\
  (forall quotas l,
     quotasOf num_truthy getModelFamily ownEntries data = inr quotas ->
     listOf num_truthy getModelFamily ownEntries epochAt data = inr l ->
     forall id, is_Some (quotas !! id) -> VStr id ∈ idsOf l).
Proof.
  intros Hperm. split.
  - intros e. by rewrite quotasOf_throws, listOf_throws.
  - intros quotas l Hq Hl id [v Hv].
    apply (quotasOf_spec data quotas Hperm Hq) in Hv
      as (_ & Hs & md & Hin & _).
    rewrite (listOf_shown data l Hl), idsOf_imap.
    apply list_elem_of_fmap. exists (id, md). split; [reflexivity|].
    apply list_elem_of_In, filter_In. split; [by apply list_elem_of_In|exact Hs].
Qed.

End ModelsProofs.



(** ** The model API on sample answers *)

Lemma fetchAvailableModels_first_answer_witness :
  Models.fetchAvailableModels (Sample.secondAnswers SampleModels.answer)
    (fun _ => EmptyString) SampleModels.endpoints ∅ "token" tt
  = (inr SampleModels.answer, tt).
Proof.
  apply (fetchAvailableModels_first_answer
           (Sample.secondAnswers SampleModels.answer) (fun _ => EmptyString)
           SampleModels.endpoints ∅
           ["https://daily.example"] "https://prod.example" []
           SampleModels.answer "token" tt).
  - reflexivity.
  - split; [reflexivity | exact I].
  - reflexivity.
Defined.


Example sample_quotas :
  SampleModels.quotas
  = inr (<["gemini-3-flash" :=
            VObj (<["resetTime" := VNull]> (<["remainingFraction" := VNull]> ∅))]>
        (<["claude-sonnet-4-5" :=
            VObj (<["resetTime" := VStr "2026-01-01T00:00:00Z"]>
                 (<["remainingFraction" := VNum 1%Z]> ∅))]> ∅)).
Proof. vm_compute. reflexivity. Qed.

Example sample_listed :
  match SampleModels.listed with
  | inr l =>
      Permutation (Models.idsOf l)
                  [VStr "claude-sonnet-4-5"; VStr "gemini-3-flash"] /\
      Forall (fun a => truthy Sample.zTruthy (fieldOf a "description") = true) l
  | inl _ => False
  end.
Proof.
  vm_compute.
  split; [first [reflexivity | apply perm_swap] | repeat constructor].
Qed.

Lemma getModelQuotas_reports_supported_witness :
  exists quotas,
    SampleModels.fetchedQuotas = (inr quotas, tt) /\
    forall id v,
      quotas !! id = Some v ->
      Models.isSupportedModel SampleModels.family id = true /\
      exists remaining reset,
        v = VObj (<["resetTime" := reset]>
                 (<["remainingFraction" := remaining]> ∅)) /\
        remaining <> VUndef /\ reset <> VUndef.
Proof.
  edestruct (getModelQuotas_reports_supported Sample.zTruthy
               (Sample.secondAnswers SampleModels.answer)
               (fun _ => EmptyString) SampleModels.endpoints ∅
               SampleModels.family SampleModels.entries "token" tt
               (inr SampleModels.answer) tt)
    as [_ H];
    [ intros m; reflexivity | vm_compute; reflexivity | ].
  destruct H as (quotas & Hres & _ & Hshape).
  - vm_compute. repeat constructor.
  - exists quotas. split; [exact Hres | exact Hshape].
Defined.

Lemma listModels_lists_supported_witness :
  exists l,
    SampleModels.fetchedList = (inr (Models.modelList l), tt) /\
    Models.idsOf l = [VStr "gemini-3-flash"; VStr "claude-sonnet-4-5"] /\
    NoDup (Models.idsOf l).
Proof.
  edestruct (listModels_lists_supported Sample.zTruthy
               (Sample.secondAnswers SampleModels.answer)
               (fun _ => EmptyString) SampleModels.endpoints ∅
               SampleModels.family SampleModels.entries (fun k => Z.of_nat k)
               "token" tt (inr SampleModels.answer) tt)
    as [_ H];
    [ intros m; reflexivity | vm_compute; reflexivity | ].
  destruct H as (l & Hres & Hids & Hnd & _).
  - vm_compute. repeat constructor.
  - exists l. split; [exact Hres|]. split; [|exact Hnd].
    rewrite Hids. vm_compute. reflexivity.
Defined.

Lemma listModels_covers_quotas_witness :
  exists quotas l,
    SampleModels.quotas = inr quotas /\
    SampleModels.listed = inr l /\
    forall id, is_Some (quotas !! id) -> VStr id ∈ Models.idsOf l.
Proof.
  eexists _, _. split; [vm_compute; reflexivity|].
  split; [vm_compute; reflexivity|].
  apply (listModels_covers_quotas Sample.zTruthy SampleModels.family
           SampleModels.entries (fun k => Z.of_nat k) SampleModels.answer).
  - intros m. reflexivity.
  - vm_compute. reflexivity.
  - vm_compute. reflexivity.
Defined.

(** ** Saving accounts *)

Section SavingProofs.
Import Saving.
Context {Num : Type}.
Variable num_truthy : Num -> bool.
Variable num_json : Num -> JsVal Num.
Variable num_zero : Num.
Variable geLength : JsVal Num -> nat -> bool.

Lemma getProp_Some (acc v : JsVal Num) (k : string) :
  getProp acc k = Some v -> isNullish acc = false /\ v = fieldOf acc k.
Proof. destruct acc; cbn; intros [= <-] || discriminate; by split. Qed.

Lemma saveAccountEntry_nullish (acc : JsVal Num) :
  saveAccountEntry num_truthy acc = None <-> isNullish acc = true.
Proof.
  unfold saveAccountEntry. destruct acc; cbn; split; congruence.
Qed.

Lemma isStr_spec (literal : string) (v : JsVal Num) :
  isStr literal v = true <-> v = VStr literal.
Proof.
  destruct v; cbn; try (split; congruence).
  rewrite String.eqb_eq. split; congruence.
Qed.

Lemma saveAccountEntry_saved (acc e : JsVal Num) :
  saveAccountEntry num_truthy acc = Some e -> savedFrom acc e.
Proof.
  unfold saveAccountEntry. intros H.
  assert (Hn : isNullish acc = false) by (destruct acc; done).
  rewrite !getProp_not_nullish in H by exact Hn.
  cbn [mbind option_bind] in H. injection H as <-.
  unfold savedFrom. split; [|repeat split; read_named; reflexivity].
  eexists. split; [reflexivity|].
  rewrite !dom_insert_L, dom_empty_L. unfold savedNames.
  cbn [list_to_set foldr]. set_solver.
Qed.

Lemma mapM_saved (accs entries : list (JsVal Num)) :
  mapM (saveAccountEntry num_truthy) accs = Some entries ->
  Forall2 savedFrom accs entries.
Proof.
  intros H. apply mapM_Some in H.
  eapply Forall2_impl; [exact H|]. apply saveAccountEntry_saved.
Qed.

Lemma mapM_save_is_Some (accs : list (JsVal Num)) :
  Forall (fun acc => isNullish acc = false) accs ->
  exists entries,
    mapM (saveAccountEntry num_truthy) accs = Some entries /\
    Forall2 (fun acc e => saveAccountEntry num_truthy acc = Some e)
            accs entries.
Proof.
  intros Hall.
  assert (Hs : is_Some (mapM (saveAccountEntry num_truthy) accs)).
  { apply mapM_is_Some. eapply Forall_impl; [exact Hall|].
    intros acc Hn. cbn.
    destruct (saveAccountEntry num_truthy acc) eqn:He; [eauto|].
    apply saveAccountEntry_nullish in He. congruence. }
  destruct Hs as [entries Hm]. exists entries. split; [exact Hm|].
  by apply mapM_Some.
Qed.



(** *** Reading back what was saved *)

#[local] Abbreviation kept :=
  (fun x : JsVal Num => match x with
                        | VUndef => None
                        | _ => Some (jsonValue num_json x)
                        end).

Ltac read_back :=
  cbn [fieldOf spread];
  rewrite ?lookup_omap;
  repeat first [ rewrite lookup_insert_eq
               | rewrite lookup_insert_ne by (intro; discriminate) ];
  rewrite ?lookup_omap;
  repeat first [ rewrite lookup_insert_eq
               | rewrite lookup_insert_ne by (intro; discriminate) ];
  cbn [default mbind option_bind].

Lemma reload_entry (acc e : JsVal Num) :
  saveAccountEntry num_truthy acc = Some e ->
  exists a,
    loadAccountEntry num_truthy (jsonValue num_json e) = Some a /\
    reloadedFrom acc a.
Proof.
  unfold saveAccountEntry. intros H.
  assert (Hn : isNullish acc = false) by (destruct acc; done).
  rewrite !getProp_not_nullish in H by exact Hn.
  cbn [mbind option_bind] in H. injection H as <-.
  cbn [jsonValue]. unfold loadAccountEntry. cbn [getProp mbind option_bind].
  eexists. split; [reflexivity|].
  unfold reloadedFrom. repeat split.
  - intros s Hs. read_back. rewrite Hs. reflexivity.
  - intros s Hs. read_back. rewrite Hs. reflexivity.
  - read_back. by destruct (notStrictlyFalse (fieldOf acc "enabled")).
  - read_back. reflexivity.
  - read_back. reflexivity.
  - intros t Hs Ht. read_back. rewrite Hs, Ht. reflexivity.
  - intros t Hs Ht. read_back. rewrite Hs, Ht. reflexivity.
  - intros Hs. read_back.
    destruct (isStr "oauth" (fieldOf acc "source")) eqn:Hi; [|reflexivity].
    apply isStr_spec in Hi. contradiction.
  - intros Hs. read_back.
    destruct (isStr "manual" (fieldOf acc "source")) eqn:Hi; [|reflexivity].
    apply isStr_spec in Hi. contradiction.
Qed.

Lemma reload_entries (accs entries : list (JsVal Num)) :
  Forall2 (fun acc e => saveAccountEntry num_truthy acc = Some e) accs entries ->
  exists loaded,
    mapM (loadAccountEntry num_truthy) (jsonValue num_json <$> entries)
    = Some loaded /\
    Forall2 reloadedFrom accs loaded.
Proof.
  induction 1 as [|acc e accs entries He _ (loaded & Hl & Hall)].
  - exists []. split; [reflexivity|constructor].
  - destruct (reload_entry acc e He) as (a & Ha & Hr).
    exists (a :: loaded). split; [|by constructor].
    cbn [fmap list_fmap]. apply mapM_Some. constructor; [exact Ha|].
    by apply mapM_Some.
Qed.


(** *** The default account *)


End SavingProofs.

Section EnvSaved.
Import Saving.
Context {Num : Type}.
Variable num_truthy : Num -> bool.
Variable JSON_parse : string -> option (JsVal Num).
Variable isoAt : nat -> string.

Lemma entryAccount_saved (k : nat) (acc : JsVal Num) :
  entryAccepted num_truthy acc = true ->
  exists e,
    saveAccountEntry num_truthy (entryAccount num_truthy isoAt k acc) = Some e /\
    savedCredential num_truthy acc e.
Proof.
  intros Hacc.
  unfold entryAccepted in Hacc. apply andb_prop in Hacc as [_ Hcred].
  set (rt := entryRefreshToken num_truthy acc) in *.
  set (ak := entryApiKey num_truthy acc) in *.
  set (a := entryAccount num_truthy isoAt k acc).
  assert (Hsrc : fieldOf a "source"
                 = VStr (if truthy num_truthy ak then "manual" else "oauth"))
    by (unfold a, entryAccount, envAccount; read_named; reflexivity).
  assert (Hk : fieldOf a "apiKey" = ak)
    by (unfold a, entryAccount, envAccount; read_named; reflexivity).
  assert (Hr : fieldOf a "refreshToken" = rt)
    by (unfold a, entryAccount, envAccount; read_named; reflexivity).
  assert (He : fieldOf a "email" = fieldOf acc "email")
    by (unfold a, entryAccount, envAccount; read_named; reflexivity).
  assert (Hn : isNullish a = false) by reflexivity.
  clearbody a.
  unfold saveAccountEntry. rewrite !getProp_not_nullish by exact Hn.
  cbn [mbind option_bind]. eexists. split; [reflexivity|].
  unfold savedCredential. fold ak. fold rt.
  split; [read_named; exact He|].
  split; [read_named; reflexivity|].
  split; intros Hak; rewrite Hak in *.
  - repeat split; read_named; rewrite ?Hk, ?Hsrc; cbn; congruence.
  - cbn [orb] in Hcred. rewrite orb_false_r in Hcred.
    repeat split; read_named; rewrite ?Hr, ?Hsrc; cbn; congruence.
Qed.

Lemma imap_saved (P : JsVal Num -> JsVal Num -> Prop)
      (g : nat -> JsVal Num -> JsVal Num) (l : list (JsVal Num)) :
  (forall k acc, acc ∈ l ->
     exists e, saveAccountEntry num_truthy (g k acc) = Some e /\ P acc e) ->
  exists saved,
    mapM (saveAccountEntry num_truthy) (imap g l) = Some saved /\
    Forall2 P l saved.
Proof.
  revert g. induction l as [|acc l IH]; intros g Hg.
  - exists []. split; [reflexivity | constructor].
  - destruct (Hg 0 acc) as (e & He & HP); [by left|].
    destruct (IH (g ∘ S)) as (saved & Hm & Hall).
    { intros k acc' Hin. apply Hg. by right. }
    exists (e :: saved). split; [|by constructor].
    cbn [imap]. apply mapM_Some. constructor; [exact He|].
    by apply mapM_Some.
Qed.

End EnvSaved.

(** ** Loading: the fields that are not normalised *)

Section LoadedFields.
Context {Num : Type}.
Variable num_truthy : Num -> bool.
Variable num_zero : Num.
Variable geLength : JsVal Num -> nat -> bool.

Lemma loadAccountEntry_passes (acc a : JsVal Num) :
  loadAccountEntry num_truthy acc = Some a -> passesOtherFields acc a.
Proof.
  intros H m ->. unfold loadAccountEntry in H.
  cbn [getProp mbind option_bind spread] in H. injection H as <-.
  eexists. split; [reflexivity|]. intros k Hnot.
  rewrite !lookup_insert_ne
    by (intros <-; apply Hnot; cbn; intuition congruence).
  reflexivity.
Qed.

End LoadedFields.

(** ** Saving on sample accounts *)


Example saved_entry_fields :
  match SampleSaving.saved with
  | Some config =>
      match fieldOf config "accounts" with
      | VArr [h; i] =>
          [fieldOf h "apiKey"; fieldOf h "refreshToken";
           fieldOf h "sessionCookie"; fieldOf i "refreshToken";
           fieldOf i "isInvalid"]
          = [VStr "sk-3"; VUndef; VUndef; VStr "rt-3"; VBool true]
      | _ => False
      end
  | None => False
  end.
Proof. vm_compute. reflexivity. Qed.


Example reloaded_sample :
  match SampleSaving.saved with
  | Some config =>
      (fun a => [fieldOf a "email"; fieldOf a "apiKey";
                 fieldOf a "refreshToken"; fieldOf a "isInvalid"])
      <$> accounts (loadAccounts Sample.zTruthy 0%Z Sample.zGeLength
                      (FileJson (Saving.jsonValue VNum config)))
      = [[VStr "heidi@example.com"; VStr "sk-3"; VUndef; VBool false];
         [VStr "ivan@example.com"; VUndef; VStr "rt-3"; VBool false]]
  | None => False
  end.
Proof. vm_compute. reflexivity. Qed.


Example env_account_saved_sample :
  (fun e => [fieldOf e "email"; fieldOf e "apiKey"; fieldOf e "refreshToken";
             fieldOf e "fromEnv"])
  <$> default [] (mapM (Saving.saveAccountEntry Sample.zTruthy)
                       SampleSaving.fromEnv)
  = [ [VStr "judy@example.com"; VStr "sk-4"; VUndef; VUndef] ].
Proof. vm_compute. reflexivity. Qed.

(** ** The streaming handler: endpoint answers *)

Section EndpointAnswerProofs.
Context {W : Type}.
Variable D : Deps.
Variable E : Env W.
Variable req : AnthropicRequest.

Lemma endpoint_notOk fuel acct token project endpoint lastError w resp w' :
  fetch E (streamUrl endpoint) (streamHeaders D req token)
        (streamBody D req project) w = (inr resp, w') ->
  ok resp = false ->
  tryCatch (endpointTry D E req fuel acct token
                        (buildCloudCodeRequest D req project)
                        endpoint lastError)
           (endpointCatch D) w
  = mkRun (Normal (Go (notOkLastError D lastError resp)))
          (notOkWorld E acct resp w')
          (notOkCalls D req acct token project endpoint resp) [].
Proof.
  intros Hfetch Hok. apply tryCatch_normal. unfold endpointTry.
  rewrite (bind_normal _ _ _ _ _ _ _ (doFetch_ok E _ _ _ _ _ _ Hfetch)).
  rewrite Hok. cbn [negb].
  unfold notOkLastError, notOkWorld, notOkCalls, streamFetch, streamBody, resetOf.
  destruct (status resp =? 401)%Z.
  - rewrite (bind_normal _ _ _ _ _ _ _ (doClearTokenCache_run E _ _)).
    rewrite (bind_normal _ _ _ _ _ _ _ (doClearProjectCache_run E _ _)).
    norm_run. reflexivity.
  - destruct (status resp =? 429)%Z; [norm_run; reflexivity|].
    destruct (500 <=? status resp)%Z.
    + rewrite (bind_normal _ _ _ _ _ _ _ (doSleep_run E _ _)).
      norm_run. reflexivity.
    + erewrite bind_normal by reflexivity. norm_run. reflexivity.
Qed.

Lemma endpointLoop_notOk fuel acct token project pre post :
  forall resps lastError w wf,
    allAnswerNotOk D E req acct token project pre resps w wf ->
    endpointLoop D E req fuel acct token (buildCloudCodeRequest D req project)
                 (pre ++ post) lastError w =
    after (answersCalls D req acct token project pre resps) []
          (endpointLoop D E req fuel acct token
                        (buildCloudCodeRequest D req project)
                        post (lastErrorAfter D lastError resps) wf).
Proof.
  induction pre as [|endpoint rest IH]; intros [|resp more] lastError w wf H;
    cbn [allAnswerNotOk] in H; try contradiction.
  - subst wf. cbn [app answersCalls lastErrorAfter foldl].
    by rewrite after_nil.
  - destruct H as (Hok & w' & Hfetch & Hrest).
    cbn [app endpointLoop].
    rewrite (bind_normal _ _ _ _ _ _ _
               (endpoint_notOk fuel acct token project endpoint lastError
                               w resp w' Hfetch Hok)).
    cbv beta iota. rewrite (IH more _ _ wf Hrest).
    rewrite after_after. cbn [answersCalls lastErrorAfter foldl app].
    reflexivity.
Qed.

Lemma allAnswerNotOk_length acct token project endpoints resps w wf :
  allAnswerNotOk D E req acct token project endpoints resps w wf ->
  List.length resps = List.length endpoints.
Proof.
  revert resps w. induction endpoints as [|e rest IH]; intros [|r more] w H;
    cbn in H; try contradiction; [reflexivity|].
  destruct H as (_ & w' & _ & Hrest). cbn. f_equal. eauto.
Qed.

Lemma answersCalls_harmless acct token project endpoints resps :
  Forall (fun c => penalises c = false)
         (answersCalls D req acct token project endpoints resps).
Proof.
  revert resps. induction endpoints as [|e rest IH]; intros [|r more];
    cbn [answersCalls]; [constructor|constructor|constructor|].
  apply Forall_app. split; [|apply IH].
  unfold notOkCalls, streamFetch. constructor; [reflexivity|].
  destruct (status r =? 401)%Z; [repeat constructor|].
  destruct (status r =? 429)%Z; [constructor|].
  destruct (500 <=? status r)%Z; repeat constructor.
Qed.

Lemma attemptTry_answers fuel acct w1 token w2 project w3 resps wf :
  getTokenForAccount E acct w1 = (inr token, w2) ->
  getProjectForAccount E acct token w2 = (inr project, w3) ->
  allAnswerNotOk D E req acct token project
                 (ANTIGRAVITY_ENDPOINT_FALLBACKS D) resps w3 wf ->
  attemptTry D E req fuel acct w1
  = after (CGetToken (email acct) :: CGetProject (email acct)
           :: answersCalls D req acct token project
                           (ANTIGRAVITY_ENDPOINT_FALLBACKS D) resps) []
          (verdict E req acct (lastErrorAfter D LastNone resps) wf).
Proof.
  intros Htok Hproj Hans. unfold attemptTry.
  rewrite (bind_normal _ _ _ _ _ _ _ (doGetToken_ok E _ _ _ _ Htok)).
  rewrite (bind_normal _ _ _ _ _ _ _ (doGetProject_ok E _ _ _ _ _ Hproj)).
  pose proof (endpointLoop_notOk fuel acct token project
                (ANTIGRAVITY_ENDPOINT_FALLBACKS D) [] resps LastNone w3 wf Hans)
    as Hloop.
  rewrite app_nil_r in Hloop. cbn [endpointLoop] in Hloop.
  unfold mret, M_ret, after in Hloop. cbn in Hloop.
  rewrite app_nil_r in Hloop.
  rewrite (bind_normal _ _ _ _ _ _ _ Hloop).
  rewrite after_after. cbn [app].
  unfold verdict. destruct (lastErrorAfter D LastNone resps) as [|r0 text reset|e].
  - norm_run. reflexivity.
  - rewrite (bind_normal _ _ _ _ _ _ _ (doMarkRateLimited_run E _ _ _ _)).
    norm_run. reflexivity.
  - norm_run. reflexivity.
Qed.

Lemma lastErrorAfter_from429 seen resps lastError :
  from429 D seen lastError ->
  from429 D (seen ++ resps) (lastErrorAfter D lastError resps).
Proof.
  revert seen lastError. induction resps as [|r more IH]; intros seen le Hle.
  - rewrite app_nil_r. exact Hle.
  - cbn [lastErrorAfter foldl].
    replace (seen ++ r :: more)%list with ((seen ++ [r]) ++ more)%list
      by (by rewrite <- app_assoc).
    apply IH. unfold notOkLastError.
    assert (Hweak : from429 D (seen ++ [r]) le).
    { destruct le; cbn in *; auto. destruct Hle as (? & ? & ? & ?).
      repeat split; auto. apply in_or_app. by left. }
    destruct (status r =? 401)%Z; [exact Hweak|].
    destruct (Z.eqb_spec (status r) 429); [|exact I].
    destruct (replaces429 le (resetOf D r)); [|exact Hweak].
    cbn. repeat split; auto. apply in_or_app. right. by left.
Qed.

Lemma lastErrorAfter_401 resps lastError :
  Forall (fun r => status r = 401%Z) resps ->
  lastErrorAfter D lastError resps = lastError.
Proof.
  induction 1 as [|r more Hr _ IH]; [reflexivity|].
  cbn [lastErrorAfter foldl]. unfold notOkLastError at 2.
  rewrite Hr. cbn. exact IH.
Qed.

Lemma lastErrorAfter_last before r trailing :
  Forall (fun r => status r = 401%Z) trailing ->
  status r <> 401%Z ->
  let lastError := lastErrorAfter D LastNone (before ++ r :: trailing) in
  if (status r =? 429)%Z then
    exists kept,
      In kept (before ++ r :: trailing) /\ status kept = 429%Z /\
      lastError = Last429 kept (respText kept) (resetOf D kept)
  else lastError = LastErr (apiError (status r) (respText r)).
Proof.
  intros Htr Hr. cbn zeta. unfold lastErrorAfter.
  rewrite foldl_app. cbn [foldl].
  fold (lastErrorAfter D LastNone before).
  fold (lastErrorAfter D (notOkLastError D (lastErrorAfter D LastNone before) r)
                       trailing).
  rewrite (lastErrorAfter_401 trailing _ Htr).
  pose proof (lastErrorAfter_from429 [] before LastNone I) as Hinv.
  cbn [app] in Hinv.
  unfold notOkLastError.
  destruct (Z.eqb_spec (status r) 401); [contradiction|].
  destruct (Z.eqb_spec (status r) 429) as [H429|]; [|reflexivity].
  destruct (replaces429 (lastErrorAfter D LastNone before) (resetOf D r)) eqn:Hrep.
  - exists r. split; [apply in_or_app; right; by left|]. by split.
  - destruct (lastErrorAfter D LastNone before) as [|kept text reset|e];
      try discriminate.
    destruct Hinv as (Hin & Hst & -> & ->).
    exists kept. split; [apply in_or_app; by left|]. by split.
Qed.

(** Property X13.
    When every endpoint answers and no answer is ok, the last answer that
    is not a 401 decides how the attempt ends: with no such answer the
    attempt ends silently; a 429 marks the account rate-limited, with the
    reset time of one of the 429 answers, and raises 'Rate limited: ...';
    any other status raises 'API error <status>: <text>' for that answer,
    whatever the endpoints before it answered. *)
Theorem last_answer_decides fuel acct w1 token w2 project w3 resps wf :
  getTokenForAccount E acct w1 = (inr token, w2) ->
  getProjectForAccount E acct token w2 = (inr project, w3) ->
  allAnswerNotOk D E req acct token project
                 (ANTIGRAVITY_ENDPOINT_FALLBACKS D) resps w3 wf ->
  let lastError := lastErrorAfter D LastNone resps in
  attemptTry D E req fuel acct w1
  = after (CGetToken (email acct) :: CGetProject (email acct)
           :: answersCalls D req acct token project
                           (ANTIGRAVITY_ENDPOINT_FALLBACKS D) resps) []
          (verdict E req acct lastError wf) /\
  (Forall (fun r => status r = 401%Z) resps -> lastError = LastNone) /\
  (forall before r trailing,
     resps = (before ++ r :: trailing)%list ->
     Forall (fun r => status r = 401%Z) trailing ->
     status r <> 401%Z ->
     if (status r =? 429)%Z then
       exists kept,
         In kept resps /\ status kept = 429%Z /\
         lastError = Last429 kept (respText kept) (resetOf D kept)
     else lastError = LastErr (apiError (status r) (respText r))).
Proof.
  intros Htok Hproj Hans. cbn zeta. split; [|split].
  - by apply (attemptTry_answers fuel acct w1 token w2 project w3).
  - apply lastErrorAfter_401.
  - intros before r trailing -> Htr Hr.
    by apply lastErrorAfter_last.
Qed.

End EndpointAnswerProofs.

Section EndpointScenarios.
Context {W : Type}.
Variable D : Deps.
Variable E : Env W.
Variable req : AnthropicRequest.
Variable fallbackEnabled : bool.

#[local] Abbreviation ENDPOINTS := (ANTIGRAVITY_ENDPOINT_FALLBACKS D).

Lemma emptyRetryLoop_completes fuel acct url token payload resp w evs w' :
  (0 <= MAX_EMPTY_RESPONSE_RETRIES D)%Z ->
  streamSSEResponse E resp (model req) w = ((evs, None), w') ->
  emptyRetryLoop D E req (S fuel) acct url token payload 0 resp w
  = mkRun (Normal Return) w' [CStream resp (model req)] evs.
Proof.
  intros Hmax Hs. cbn [emptyRetryLoop].
  replace (MAX_EMPTY_RESPONSE_RETRIES D <? 0)%Z with false by lia.
  rewrite (bind_normal _ _ _ _ _ _ _ (doStream_run E _ _ _)).
  rewrite Hs. cbn [fst snd]. norm_run. reflexivity.
Qed.

(** Property X14.
    A later endpoint serves the stream: when the endpoints before
    [endpoint] answer without being ok (401, 429, 4xx or 5xx) and
    [endpoint] answers ok with a stream that completes, the call returns
    normally and yields exactly the events of that stream; the earlier
    failures leave no trace on the pool: the account is not marked
    rate-limited, even after a 429, and no rotation is forced. *)
Theorem later_endpoint_serves_the_stream fuel w acct token project w3
        pre endpoint post resps w4 resp w5 evs w6 :
  attemptStarts E req w acct token project w3 ->
  ENDPOINTS = (pre ++ endpoint :: post)%list ->
  allAnswerNotOk D E req acct token project pre resps w3 w4 ->
  fetch E (streamUrl endpoint) (streamHeaders D req token)
        (streamBody D req project) w4 = (inr resp, w5) ->
  ok resp = true ->
  (0 <= MAX_EMPTY_RESPONSE_RETRIES D)%Z ->
  streamSSEResponse E resp (model req) w5 = ((evs, None), w6) ->
  2 <= fuel ->
  let r := sendMessageStream D E fuel req fallbackEnabled w in
  outcome r = Normal tt /\
  final r = w6 /\
  events r = evs /\
  calls r = (CEnter (model req) fallbackEnabled :: startCalls req acct
             ++ answersCalls D req acct token project pre resps
             ++ [streamFetch D req token project endpoint;
                 CStream resp (model req)])%list /\
  Forall (fun c => penalises c = false) (calls r).
Proof.
  intros (waitMs & w1 & w2 & Hpick & Htok & Hproj) Hends Hpre Hfetch Hok Hmax
         Hstream Hfuel.
  destruct fuel as [|[|fuel]]; [lia|lia|].
  assert (Hrun :
    sendMessageStream D E (S (S fuel)) req fallbackEnabled w
    = mkRun (Normal tt) w6
        (CEnter (model req) fallbackEnabled :: startCalls req acct
         ++ answersCalls D req acct token project pre resps
         ++ [streamFetch D req token project endpoint;
             CStream resp (model req)])%list evs).
  { rewrite sendMessageStream_unfold.
    destruct (maxAttempts_pos D E w) as [n ->].
    pose proof (emptyRetryLoop_completes (fuel) acct (streamUrl endpoint) token
                  (buildCloudCodeRequest D req project) resp w5 evs w6
                  Hmax Hstream) as Hloop.
    pose proof (endpointTry_streams D E req (S fuel) acct token project endpoint
                  (lastErrorAfter D LastNone resps) w4 resp w5 _ _ _
                  Hfetch Hok Hloop) as Htry.
    pose proof (endpointLoop_returns D E req (S fuel) acct token _ endpoint post
                  _ w4 _ _ _ Htry) as Hpost.
    pose proof (endpointLoop_notOk D E req (S fuel) acct token project pre
                  (endpoint :: post) resps LastNone w3 w4 Hpre) as Hall.
    rewrite Hpost, <- Hends in Hall. cbn [after outcome final calls events] in Hall.
    pose proof (attemptTry_returns D E req (S fuel) acct w1 token w2 project w3
                  _ _ _ Htok Hproj Hall) as Hatt.
    erewrite attemptLoop_returns;
      [ | eapply selectAccount_sticky; exact Hpick | exact Hatt ].
    cbn [after outcome final calls events app startCalls].
    reflexivity. }
  cbn zeta. rewrite Hrun. cbn [outcome final calls events].
  repeat split.
  constructor; [reflexivity|]. apply Forall_app. split; [repeat constructor|].
  apply Forall_app. split; [apply answersCalls_harmless|repeat constructor].
Qed.

Lemma answersCalls_401 acct token project endpoints resps :
  List.length resps = List.length endpoints ->
  Forall (fun r => status r = 401%Z) resps ->
  answersCalls D req acct token project endpoints resps
  = endpoints ≫= (fun endpoint =>
                    [streamFetch D req token project endpoint;
                     CClearTokenCache (email acct);
                     CClearProjectCache (email acct)]).
Proof.
  revert resps. induction endpoints as [|endpoint rest IH];
    intros [|r more] Hlen H401; try discriminate; [reflexivity|].
  apply Forall_cons in H401 as [Hr H401]. injection Hlen as Hlen.
  cbn [answersCalls mbind list_bind]. unfold notOkCalls. rewrite Hr.
  cbn [Z.eqb Pos.eqb app]. f_equal. f_equal. f_equal. by apply IH.
Qed.

(** Property X15.
    A client error is reported at once: when the last answer that is not
    a 401 has a status other than 429 and no endpoint answers ok, and the
    error 'API error <status>: <text>' is claimed by no classifier and
    its message contains none of 'API error 5', '500' and '503',
    [sendMessageStream] throws that error in
    its first attempt: no other account is tried, nothing is marked and
    nothing is yielded. *)
Theorem client_error_surfaces_at_once fuel w acct token project w3 resps
        before r trailing wf :
  attemptStarts E req w acct token project w3 ->
  allAnswerNotOk D E req acct token project ENDPOINTS resps w3 wf ->
  resps = (before ++ r :: trailing)%list ->
  Forall (fun r => status r = 401%Z) trailing ->
  status r <> 401%Z -> status r <> 429%Z ->
  let e := apiError (status r) (respText r) in
  isRateLimitError D e = false ->
  isAuthError D e = false ->
  JsString.includes "API error 5" (message e)
  || JsString.includes "500" (message e)
  || JsString.includes "503" (message e) = false ->
  isNetworkError D e = false ->
  sendMessageStream D E (S fuel) req fallbackEnabled w
  = mkRun (Throws e) wf
          (CEnter (model req) fallbackEnabled :: startCalls req acct
           ++ answersCalls D req acct token project ENDPOINTS resps)%list [].
Proof.
  intros (waitMs & w1 & w2 & Hpick & Htok & Hproj) Hans -> Htr H401 H429 e
         Hrl Hauth H5xx Hnet.
  rewrite sendMessageStream_unfold.
  destruct (maxAttempts_pos D E w) as [n ->].
  pose proof (attemptTry_answers D E req fuel acct w1 token w2 project w3 _ wf
                Htok Hproj Hans) as Hatt.
  pose proof (lastErrorAfter_last D before r trailing Htr H401) as Hlast.
  cbn zeta in Hlast.
  destruct (Z.eqb_spec (status r) 429); [contradiction|].
  rewrite Hlast in Hatt. cbn [verdict after outcome final calls events] in Hatt.
  fold e in Hatt.
  erewrite attemptLoop_throws;
    [ | eapply selectAccount_sticky; exact Hpick
      | erewrite tryCatch_throws by exact Hatt;
        unfold attemptCatch, looksLike5xx; rewrite Hrl, Hauth, H5xx, Hnet;
        reflexivity ].
  cbn [after outcome final calls events app startCalls].
  rewrite !app_nil_r. reflexivity.
Qed.

(** Property X16.
    401 on every endpoint ends the attempt without an error: the token
    and project caches of the account are cleared once per endpoint, the
    account is neither marked nor rotated away from, and the attempt loop
    goes on to its next iteration, one attempt spent. *)
Theorem unauthorized_everywhere_ends_attempt self fuel n w acct token project
        w3 resps wf :
  attemptStarts E req w acct token project w3 ->
  allAnswerNotOk D E req acct token project ENDPOINTS resps w3 wf ->
  Forall (fun r => status r = 401%Z) resps ->
  let cs := (startCalls req acct
             ++ answersCalls D req acct token project ENDPOINTS resps)%list in
  attemptLoop D E req fallbackEnabled self fuel (S n) w
  = after cs [] (attemptLoop D E req fallbackEnabled self fuel n wf) /\
  answersCalls D req acct token project ENDPOINTS resps
  = ENDPOINTS ≫= (fun endpoint =>
                    [streamFetch D req token project endpoint;
                     CClearTokenCache (email acct);
                     CClearProjectCache (email acct)]) /\
  Forall (fun c => penalises c = false) cs.
Proof.
  intros (waitMs & w1 & w2 & Hpick & Htok & Hproj) Hans H401. cbn zeta.
  split; [|split].
  - pose proof (attemptTry_answers D E req fuel acct w1 token w2 project w3 _ wf
                  Htok Hproj Hans) as Hatt.
    rewrite (lastErrorAfter_401 D resps LastNone H401) in Hatt.
    cbn [verdict after outcome final calls events] in Hatt.
    erewrite attemptLoop_continues;
      [ | eapply selectAccount_sticky; exact Hpick
        | apply tryCatch_normal; exact Hatt ].
    cbn [app startCalls]. rewrite !app_nil_r. reflexivity.
  - apply answersCalls_401; [|exact H401].
    by apply allAnswerNotOk_length in Hans.
  - apply Forall_app. split; [repeat constructor|apply answersCalls_harmless].
Qed.

End EndpointScenarios.

(** ** The streaming handler: soft failures, fallback, partial output *)

Lemma includes_app_r (needle a b : string) :
  JsString.includes needle b = true ->
  JsString.includes needle (a ++ b) = true.
Proof.
  intros H. induction a as [|c a IH]; [exact H|].
  change (JsString.includes needle (String c a ++ b))
    with (String.prefix needle (String c (a ++ b))
          || JsString.includes needle (a ++ b)).
  rewrite IH. apply orb_true_r.
Qed.

Lemma bind_after {W A B} (m m' : M W A) (k : A -> M W B) w c e w' :
  m w = after c e (m' w') ->
  (m ≫= k) w = after c e ((m' ≫= k) w').
Proof.
  intros H. unfold mbind, M_bind. rewrite H. unfold after.
  cbn [outcome final calls events].
  destruct (outcome (m' w')); cbn [outcome final calls events];
    by rewrite ?app_assoc.
Qed.

Lemma bind_same {W A B} (m m' : M W A) (k : A -> M W B) w :
  m w = m' w -> (m ≫= k) w = (m' ≫= k) w.
Proof. intros H. unfold mbind, M_bind. by rewrite H. Qed.

Section SoftAndFallback.
Context {W : Type}.
Variable D : Deps.
Variable E : Env W.
Variable req : AnthropicRequest.

#[local] Abbreviation ENDPOINTS := (ANTIGRAVITY_ENDPOINT_FALLBACKS D).

(** Property X17.
    The test for a soft failure reads the text of the error, not the
    status: an upstream error of any status (a 400, say) whose body
    mentions '500' or '503' is handled like a 5xx: unless a classifier
    claims it first, the handler rotates to the next account and goes on
    with the next attempt instead of reporting the error. *)
Theorem error_text_mentioning_500_is_soft status errorText w :
  JsString.includes "500" errorText = true
  \/ JsString.includes "503" errorText = true ->
  let e := apiError status errorText in
  JsString.includes "API error 5" (message e)
  || JsString.includes "500" (message e)
  || JsString.includes "503" (message e) = true /\
  (isRateLimitError D e = false -> isAuthError D e = false ->
   attemptCatch D E req e w
   = mkRun (Normal (Go tt)) (pickNext E (model req) w).2
           [CPickNext (model req)] []).
Proof.
  intros Hin. cbn zeta.
  assert (H5 : looksLike5xx (apiError status errorText) = true).
  { unfold looksLike5xx, apiError, Error. cbn [message].
    destruct Hin as [Hin|Hin].
    - apply orb_true_iff. left. apply orb_true_iff. right.
      apply includes_app_r, includes_app_r, includes_app_r. exact Hin.
    - apply orb_true_iff. right.
      apply includes_app_r, includes_app_r, includes_app_r. exact Hin. }
  split; [exact H5|]. intros Hrl Hauth.
  unfold attemptCatch. rewrite Hrl, Hauth, H5.
  rewrite (bind_normal _ _ _ _ _ _ _ (doPickNext_run E _ _)).
  norm_run. reflexivity.
Qed.

Lemma selectWhenNone_not_limited fallbackEnabled self w :
  isAllRateLimited E (model req) w = false ->
  selectWhenNone D E req fallbackEnabled self w
  = (flow ← tryFallback D req fallbackEnabled self;
     match flow with
     | Return => mret Return
     | Go _ => throw (Error "No accounts available")
     end) w.
Proof.
  intros Hall. unfold selectWhenNone.
  erewrite bind_normal by reflexivity. cbv beta. rewrite Hall.
  erewrite bind_normal by reflexivity. by rewrite !after_nil.
Qed.

Lemma selectAccount_none fallbackEnabled self w waitMs w1 :
  pickStickyAccount E (model req) w = ((None, waitMs), w1) ->
  (waitMs <= 0)%Z ->
  selectAccount D E req fallbackEnabled self w
  = after [CPickSticky (model req)] []
          (selectWhenNone D E req fallbackEnabled self w1).
Proof.
  intros Hpick Hwait. unfold selectAccount.
  rewrite (bind_normal _ _ _ _ _ _ _ (doPickSticky_run E _ _)).
  rewrite Hpick. cbn [fst snd].
  replace (0 <? waitMs)%Z with false by lia.
  erewrite bind_normal by reflexivity. by rewrite after_nil.
Qed.

(** Property X18.
    With no account to use and the pool not rate-limited as a whole, the
    fallback model takes over when fallback is enabled and the model has
    one: the call is the nested call for the fallback model, with fallback
    disabled, after the one selection that failed; what the nested call
    yields, returns or throws is what the call yields, returns or throws.
    Without fallback the call throws 'No accounts available' at once. *)
Theorem fallback_takes_over_without_account fuel w waitMs w1 :
  pickStickyAccount E (model req) w = ((None, waitMs), w1) ->
  (waitMs <= 0)%Z ->
  isAllRateLimited E (model req) w1 = false ->
  (forall fallbackModel,
     getFallbackModel D (model req) = Some fallbackModel ->
     fallbackModel <> EmptyString ->
     sendMessageStream D E (S fuel) req true w
     = after [CEnter (model req) true; CPickSticky (model req)] []
             (sendMessageStream D E fuel (withModel req fallbackModel)
                                false w1)) /\
  sendMessageStream D E (S fuel) req false w
  = mkRun (Throws (Error "No accounts available")) w1
          [CEnter (model req) false; CPickSticky (model req)] [].
Proof.
  intros Hpick Hwait Hall. split.
  - intros fallbackModel Hfb Hne.
    rewrite sendMessageStream_unfold.
    destruct (maxAttempts_pos D E w) as [n ->]. cbn [attemptLoop].
    rewrite (bind_after _ _ _ _ _ _ _
               (selectAccount_none true _ w waitMs w1 Hpick Hwait)).
    rewrite (bind_same _ _ _ _ (selectWhenNone_not_limited true _ w1 Hall)).
    rewrite after_after. cbn [app]. f_equal.
    unfold tryFallback. rewrite Hfb.
    apply String.eqb_neq in Hne. rewrite Hne.
    set (nested := sendMessageStream D E fuel (withModel req fallbackModel)
                                     false).
    unfold mbind, M_bind, after, mret, M_ret, throw.
    cbn [outcome final calls events app].
    destruct (nested w1) as [[[]| |] wn cn en];
      cbn [outcome final calls events app]; rewrite ?app_nil_r; reflexivity.
  - rewrite sendMessageStream_unfold.
    destruct (maxAttempts_pos D E w) as [n ->]. cbn [attemptLoop].
    rewrite (bind_after _ _ _ _ _ _ _
               (selectAccount_none false _ w waitMs w1 Hpick Hwait)).
    rewrite (bind_same _ _ _ _ (selectWhenNone_not_limited false _ w1 Hall)).
    reflexivity.
Qed.

(** Property X19.
    Output is not rolled back on failover: when the stream of the first
    endpoint yields some events and then fails (with an error that is
    neither an empty response nor a rate limit), the handler moves on to
    the next endpoint, and the caller receives the events of the failed
    stream followed by those of the stream that completes. *)
Theorem partial_output_is_not_rolled_back fuel fallbackEnabled w acct token
        project w3 first second rest resp1 w4 evs1 err w5 resp2 w6 evs2 w7 :
  attemptStarts E req w acct token project w3 ->
  ENDPOINTS = first :: second :: rest ->
  fetch E (streamUrl first) (streamHeaders D req token)
        (streamBody D req project) w3 = (inr resp1, w4) ->
  ok resp1 = true ->
  streamSSEResponse E resp1 (model req) w4 = ((evs1, Some err), w5) ->
  isEmptyResponseError D err = false ->
  isRateLimitError D err = false ->
  fetch E (streamUrl second) (streamHeaders D req token)
        (streamBody D req project) w5 = (inr resp2, w6) ->
  ok resp2 = true ->
  streamSSEResponse E resp2 (model req) w6 = ((evs2, None), w7) ->
  (0 <= MAX_EMPTY_RESPONSE_RETRIES D)%Z ->
  2 <= fuel ->
  let r := sendMessageStream D E fuel req fallbackEnabled w in
  outcome r = Normal tt /\
  events r = (evs1 ++ evs2)%list /\
  streamsOf (calls r) = [resp1; resp2].
Proof.
  intros (waitMs & w1 & w2 & Hpick & Htok & Hproj) Hends Hf1 Hok1 Hs1 Hemp Hrl
         Hf2 Hok2 Hs2 Hmax Hfuel.
  destruct fuel as [|[|fuel]]; [lia|lia|].
  assert (Hrun :
    sendMessageStream D E (S (S fuel)) req fallbackEnabled w
    = mkRun (Normal tt) w7
        [CEnter (model req) fallbackEnabled; CPickSticky (model req);
         CGetToken (email acct); CGetProject (email acct);
         streamFetch D req token project first; CStream resp1 (model req);
         streamFetch D req token project second; CStream resp2 (model req)]
        (evs1 ++ evs2)).
  { rewrite sendMessageStream_unfold.
    destruct (maxAttempts_pos D E w) as [n ->].
    assert (Hfirst :
      tryCatch (endpointTry D E req (S fuel) acct token
                            (buildCloudCodeRequest D req project) first LastNone)
               (endpointCatch D) w3
      = mkRun (Normal (Go (LastErr err))) w5
              [streamFetch D req token project first; CStream resp1 (model req)]
              evs1).
    { erewrite tryCatch_throws.
      2:{ unfold endpointTry.
          rewrite (bind_normal _ _ _ _ _ _ _ (doFetch_ok E _ _ _ _ _ _ Hf1)).
          rewrite Hok1. cbn [negb].
          erewrite bind_throws; [reflexivity|].
          cbn [emptyRetryLoop].
          replace (MAX_EMPTY_RESPONSE_RETRIES D <? 0)%Z with false by lia.
          rewrite (bind_normal _ _ _ _ _ _ _ (doStream_run E _ _ _)).
          rewrite Hs1. cbn [fst snd]. rewrite Hemp. cbn [negb].
          reflexivity. }
      unfold endpointCatch. rewrite Hrl, Hemp. norm_run. reflexivity. }
    pose proof (emptyRetryLoop_completes D E req fuel acct (streamUrl second)
                  token (buildCloudCodeRequest D req project) resp2 w6 evs2 w7
                  Hmax Hs2) as Hloop.
    pose proof (endpointTry_streams D E req (S fuel) acct token project second
                  (LastErr err) w5 resp2 w6 _ _ _ Hf2 Hok2 Hloop) as Htry.
    pose proof (endpointLoop_returns D E req (S fuel) acct token _ second rest
                  _ w5 _ _ _ Htry) as Hpost.
    assert (Hall :
      endpointLoop D E req (S fuel) acct token
                   (buildCloudCodeRequest D req project) ENDPOINTS LastNone w3
      = mkRun (Normal Return) w7
              [streamFetch D req token project first; CStream resp1 (model req);
               streamFetch D req token project second; CStream resp2 (model req)]
              (evs1 ++ evs2)).
    { rewrite Hends. cbn [endpointLoop].
      rewrite (bind_normal _ _ _ _ _ _ _ Hfirst). cbv beta iota.
      cbn [endpointLoop] in Hpost. rewrite Hpost. reflexivity. }
    pose proof (attemptTry_returns D E req (S fuel) acct w1 token w2 project w3
                  _ _ _ Htok Hproj Hall) as Hatt.
    erewrite attemptLoop_returns;
      [ | eapply selectAccount_sticky; exact Hpick | exact Hatt ].
    reflexivity. }
  cbn zeta. rewrite Hrun. cbn [outcome final calls events].
  repeat split.
Qed.

End SoftAndFallback.

(** ** The streaming handler: where requests go *)

Section ConfiguredEndpoints.
Context {W : Type}.
Variable D : Deps.
Variable E : Env W.

#[local] Abbreviation ENDPOINTS := (ANTIGRAVITY_ENDPOINT_FALLBACKS D).
#[local] Abbreviation configured := (Forall (toConfiguredEndpoint D)).

Lemma doFetch_configured endpoint hdrs body :
  In endpoint ENDPOINTS ->
  Runs configured (doFetch E (streamUrl endpoint) hdrs body).
Proof.
  intros Hin. unfold doFetch.
  apply Runs_bind; [apply _| |intros; apply Runs_liftE; apply _].
  apply Runs_call; try apply _. constructor; [|constructor].
  cbn. exists endpoint. split; [exact Hin | reflexivity].
Qed.

Section OneRequest.
Variable req : AnthropicRequest.

Lemma emptyRetryLoop_configured fuel acct endpoint token payload k resp :
  In endpoint ENDPOINTS ->
  Runs configured
       (emptyRetryLoop D E req fuel acct (streamUrl endpoint) token payload
                       k resp).
Proof.
  intros Hin.
  eapply Runs_impl; [|apply emptyRetryLoop_same_request].
  intros cs Hcs. eapply Forall_impl; [exact Hcs|].
  intros [] Hc; try exact I. destruct Hc as (-> & _ & _).
  cbn. exists endpoint. split; [exact Hin | reflexivity].
Qed.

Lemma endpointTry_configured fuel acct token payload endpoint lastError :
  In endpoint ENDPOINTS ->
  Runs configured
       (endpointTry D E req fuel acct token payload endpoint lastError).
Proof.
  intros Hin. unfold endpointTry.
  pose proof (doFetch_configured endpoint) as Hf.
  pose proof (emptyRetryLoop_configured fuel acct endpoint token payload) as Hl.
  unfold doClearTokenCache, doClearProjectCache, doSleep.
  repeat first [ runs_step | apply Hf; exact Hin | apply Hl; exact Hin ].
Qed.

Lemma endpointLoop_configured fuel acct token payload endpoints lastError :
  (forall endpoint, In endpoint endpoints -> In endpoint ENDPOINTS) ->
  Runs configured
       (endpointLoop D E req fuel acct token payload endpoints lastError).
Proof.
  revert lastError. induction endpoints as [|endpoint rest IH];
    intros lastError Hsub; cbn [endpointLoop].
  - (apply Runs_ret; apply _).
  - apply Runs_bind; [apply _| |].
    + apply Runs_tryCatch; [apply _| |].
      * apply endpointTry_configured. apply Hsub. by left.
      * intros e. unfold endpointCatch. runs.
    + intros [|lastError']; [(apply Runs_ret; apply _)|].
      apply IH. intros ep Hep. apply Hsub. by right.
Qed.

Lemma attempt_configured fuel acct :
  Runs configured
       (tryCatch (attemptTry D E req fuel acct) (attemptCatch D E req)).
Proof.
  pose proof (fun token payload =>
                endpointLoop_configured fuel acct token payload ENDPOINTS
                                        LastNone (fun _ H => H)) as Hloop.
  apply Runs_tryCatch; [apply _| |].
  - unfold attemptTry, doGetToken, doGetProject, doMarkRateLimited.
    repeat first [ runs_step | apply Hloop ].
  - intros e. unfold attemptCatch, doPickNext, doSleep. runs.
Qed.

Section Nested.
Variable fallbackEnabled : bool.
Variable self : AnthropicRequest -> bool -> M W unit.
Hypothesis self_configured : forall r b, Runs configured (self r b).

Lemma tryFallback_configured :
  Runs configured (tryFallback D req fallbackEnabled self).
Proof.
  unfold tryFallback.
  repeat first [ runs_step | apply self_configured ].
Qed.

Lemma selectAccount_configured :
  Runs configured (selectAccount D E req fallbackEnabled self).
Proof.
  pose proof tryFallback_configured as Hfb.
  unfold selectAccount, selectWhenNone, doPickSticky, doSleep, doClearExpired,
    doGetCurrentSticky, doPickNext, doResetAll.
  repeat first [ runs_step | apply Hfb ].
Qed.

Lemma attemptLoop_configured fuel n :
  Runs configured (attemptLoop D E req fallbackEnabled self fuel n).
Proof.
  induction n as [|n IH]; cbn [attemptLoop].
  - pose proof tryFallback_configured as Hfb. unfold afterLoop.
    repeat first [ runs_step | apply Hfb ].
  - apply Runs_bind; [apply _|apply selectAccount_configured|].
    intros [|acct]; [(apply Runs_ret; apply _)|].
    apply Runs_bind; [apply _|apply attempt_configured|].
    intros [|u]; [(apply Runs_ret; apply _)|apply IH].
Qed.
End Nested.
End OneRequest.

(** Property X20.
    Whatever the pool and the upstream do, every request the handler
    sends, in the call itself and in a nested fallback call, goes to the
    streaming URL of one of the configured endpoints. *)
Theorem requests_go_to_configured_endpoints fuel req fallbackEnabled w :
  Forall (toConfiguredEndpoint D)
         (calls (sendMessageStream D E fuel req fallbackEnabled w)).
Proof.
  revert req fallbackEnabled w.
  induction fuel as [|fuel IH]; intros req fallbackEnabled w;
    [constructor|].
  rewrite sendMessageStream_unfold. cbn [after calls app].
  constructor; [exact I|].
  apply attemptLoop_configured. intros r b w'. apply IH.
Qed.

End ConfiguredEndpoints.

(** ** The streaming handler: a rate limit met while retrying, and the
       wait for a rate-limited pool *)

Section RetryAndWait.
Context {W : Type}.
Variable D : Deps.
Variable E : Env W.
Variable req : AnthropicRequest.
Variable fallbackEnabled : bool.
Variable self : AnthropicRequest -> bool -> M W unit.

#[local] Abbreviation ENDPOINTS := (ANTIGRAVITY_ENDPOINT_FALLBACKS D).

(** Property X21.
    A 429 met while retrying an empty response: when the first stream is
    empty and the request re-issued after the first backoff is answered
    429, the account is marked rate-limited with the reset time of that
    answer and, the error raised being recognised as a rate limit, the
    attempt ends there: the remaining endpoints are not tried for this
    account, no rotation is forced, and the attempt loop goes on. *)
Theorem rate_limit_during_empty_retry fuel n w acct token project w3
        endpoint rest resp w4 evs e w5 resp' w6 :
  attemptStarts E req w acct token project w3 ->
  ENDPOINTS = endpoint :: rest ->
  fetch E (streamUrl endpoint) (streamHeaders D req token)
        (streamBody D req project) w3 = (inr resp, w4) ->
  ok resp = true ->
  streamSSEResponse E resp (model req) w4 = ((evs, Some e), w5) ->
  isEmptyResponseError D e = true ->
  (0 < MAX_EMPTY_RESPONSE_RETRIES D)%Z ->
  fetch E (streamUrl endpoint) (streamHeaders D req token)
        (streamBody D req project) (sleep E 500 w5) = (inr resp', w6) ->
  status resp' = 429%Z ->
  isRateLimitError D
    (Error ("429 RESOURCE_EXHAUSTED during retry: " ++ respText resp')) = true ->
  attemptLoop D E req fallbackEnabled self (S fuel) (S n) w
  = after (startCalls req acct
           ++ [streamFetch D req token project endpoint;
               CStream resp (model req);
               CSleep 500;
               streamFetch D req token project endpoint;
               CMarkRateLimited (email acct) (resetOf D resp') (model req)])
          evs
          (attemptLoop D E req fallbackEnabled self (S fuel) n
             (markRateLimited E (email acct) (resetOf D resp') (model req) w6)).
Proof.
  intros (waitMs & w1 & w2 & Hpick & Htok & Hproj) Hends Hf Hok Hs Hemp Hmax
         Hf' H429 Hrl.
  set (err := Error ("429 RESOURCE_EXHAUSTED during retry: " ++ respText resp'))
    in *.
  set (wm := markRateLimited E (email acct) (resetOf D resp') (model req) w6).
  assert (Hloop :
    emptyRetryLoop D E req (S fuel) acct (streamUrl endpoint) token
                   (buildCloudCodeRequest D req project) 0 resp w4
    = mkRun (Throws err) wm
            [CStream resp (model req); CSleep 500;
             streamFetch D req token project endpoint;
             CMarkRateLimited (email acct) (resetOf D resp') (model req)]
            evs).
  { cbn [emptyRetryLoop].
    replace (MAX_EMPTY_RESPONSE_RETRIES D <? 0)%Z with false by lia.
    rewrite (bind_normal _ _ _ _ _ _ _ (doStream_run E _ _ _)).
    rewrite Hs. cbn [fst snd]. rewrite Hemp. cbn [negb].
    replace (MAX_EMPTY_RESPONSE_RETRIES D <=? 0)%Z with false by lia.
    change (500 * 2 ^ 0)%Z with 500%Z.
    rewrite (bind_normal _ _ _ _ _ _ _ (doSleep_run E _ _)).
    rewrite (bind_normal _ _ _ _ _ _ _ (doFetch_ok E _ _ _ _ _ _ Hf')).
    unfold ok. rewrite H429.
    cbn [negb andb Z.leb Z.eqb Z.compare Pos.compare Pos.compare_cont Pos.eqb].
    rewrite (bind_normal _ _ _ _ _ _ _ (doMarkRateLimited_run E _ _ _ _)).
    norm_run. reflexivity. }
  assert (Htry :
    tryCatch (endpointTry D E req (S fuel) acct token
                          (buildCloudCodeRequest D req project) endpoint LastNone)
             (endpointCatch D) w3
    = mkRun (Throws err) wm
            [streamFetch D req token project endpoint;
             CStream resp (model req); CSleep 500;
             streamFetch D req token project endpoint;
             CMarkRateLimited (email acct) (resetOf D resp') (model req)]
            evs).
  { erewrite tryCatch_throws.
    2:{ unfold endpointTry.
        rewrite (bind_normal _ _ _ _ _ _ _ (doFetch_ok E _ _ _ _ _ _ Hf)).
        rewrite Hok. cbn [negb].
        erewrite bind_throws by exact Hloop. reflexivity. }
    unfold endpointCatch. rewrite Hrl. norm_run. reflexivity. }
  assert (Hatt :
    tryCatch (attemptTry D E req (S fuel) acct) (attemptCatch D E req) w1
    = mkRun (Normal (Go tt)) wm
            [CGetToken (email acct); CGetProject (email acct);
             streamFetch D req token project endpoint;
             CStream resp (model req); CSleep 500;
             streamFetch D req token project endpoint;
             CMarkRateLimited (email acct) (resetOf D resp') (model req)]
            evs).
  { erewrite tryCatch_throws.
    2:{ unfold attemptTry.
        rewrite (bind_normal _ _ _ _ _ _ _ (doGetToken_ok E _ _ _ _ Htok)).
        rewrite (bind_normal _ _ _ _ _ _ _ (doGetProject_ok E _ _ _ _ _ Hproj)).
        rewrite Hends. cbn [endpointLoop].
        erewrite bind_throws; [reflexivity|].
        erewrite bind_throws by exact Htry. reflexivity. }
    unfold attemptCatch. rewrite Hrl. norm_run. reflexivity. }
  erewrite attemptLoop_continues;
    [ | eapply selectAccount_sticky; exact Hpick | exact Hatt ].
  reflexivity.
Qed.


(** Property X23.
    The wait for a rate-limited pool: when no account is offered, every
    account is rate-limited and the shortest wait does not exceed
    [MAX_WAIT_BEFORE_ERROR_MS], the handler sleeps that wait and 500 ms
    more, clears the expired limits and selects again; when that still
    gives no account it resets all rate limits and selects once more, and
    the attempt goes on with the account found: no error is raised. *)
Theorem short_wait_then_optimistic_reset w waitMs w1 w3 acct w5 :
  pickStickyAccount E (model req) w = ((None, waitMs), w1) ->
  (waitMs <= 0)%Z ->
  isAllRateLimited E (model req) w1 = true ->
  let allWaitMs := getMinWaitTimeMs E (model req) w1 in
  (allWaitMs <= MAX_WAIT_BEFORE_ERROR_MS D)%Z ->
  pickNext E (model req)
           (clearExpiredLimits E (sleep E 500 (sleep E allWaitMs w1)))
  = (None, w3) ->
  pickNext E (model req) (resetAllRateLimits E w3) = (Some acct, w5) ->
  selectAccount D E req fallbackEnabled self w
  = mkRun (Normal (Go acct)) w5
          [CPickSticky (model req); CSleep allWaitMs; CSleep 500;
           CClearExpired; CPickNext (model req); CResetAll;
           CPickNext (model req)] [].
Proof.
  intros Hpick Hwait Hall allWaitMs Hmax Hnone Hsome.
  rewrite (selectAccount_none D E req fallbackEnabled self w waitMs w1 Hpick Hwait).
  unfold selectWhenNone.
  erewrite bind_normal by reflexivity. cbv beta. rewrite Hall.
  erewrite bind_normal.
  2:{ erewrite bind_normal by reflexivity.
      erewrite bind_normal by reflexivity. cbv beta.
      fold allWaitMs.
      replace (MAX_WAIT_BEFORE_ERROR_MS D <? allWaitMs)%Z with false by lia.
      rewrite (bind_normal _ _ _ _ _ _ _ (doSleep_run E _ _)).
      rewrite (bind_normal _ _ _ _ _ _ _ (doSleep_run E _ _)).
      rewrite (bind_normal _ _ _ _ _ _ _ (doClearExpired_run E _)).
      rewrite (bind_normal _ _ _ _ _ _ _ (doPickNext_run E _ _)).
      rewrite Hnone. cbn [fst snd].
      rewrite (bind_normal _ _ _ _ _ _ _ (doResetAll_run E _)).
      rewrite doPickNext_run, Hsome. cbn [fst snd].
      norm_run. reflexivity. }
  norm_run. reflexivity.
Qed.

End RetryAndWait.

(** ** The streaming handler on scripted upstreams *)

Lemma scripted_start (upstream : Z -> string -> JsError + Response) :
  attemptStarts Scripted.env Sim.request (Scripted.world upstream) Sim.alice
    "token-of-alice@example.com" "project-1" (Scripted.world upstream).
Proof. do 3 eexists. repeat split; reflexivity. Defined.

Lemma later_endpoint_serves_the_stream_witness :
  let r := sendMessageStream Sim.deps Scripted.env 2 Sim.request false
                             Scripted.secondServes in
  outcome r = Normal tt /\
  events r = [Scripted.started; Scripted.stopped] /\
  Forall (fun c => penalises c = false) (calls r).
Proof.
  edestruct (later_endpoint_serves_the_stream Sim.deps Scripted.env Sim.request
               false 2 Scripted.secondServes Sim.alice
               "token-of-alice@example.com" "project-1" Scripted.secondServes
               [Sim.daily] Sim.prod [] [Scripted.quota60]
               Scripted.secondServes Scripted.helloResponse
               Scripted.secondServes [Scripted.started; Scripted.stopped]
               Scripted.secondServes)
    as (Hout & _ & Hev & _ & Hcalls).
  - apply scripted_start.
  - reflexivity.
  - split; [reflexivity|]. eexists. split; reflexivity.
  - reflexivity.
  - reflexivity.
  - vm_compute. discriminate.
  - reflexivity.
  - lia.
  - split; [exact Hout | split; [exact Hev | exact Hcalls]].
Defined.

Lemma last_answer_decides_witness :
  outcome (attemptTry Sim.deps Scripted.env Sim.request 1 Sim.alice
                      Scripted.badRequest)
  = Throws (apiError 400 "bad request").
Proof.
  edestruct (last_answer_decides Sim.deps Scripted.env Sim.request 1 Sim.alice
               Scripted.badRequest "token-of-alice@example.com"
               Scripted.badRequest "project-1" Scripted.badRequest
               [Scripted.quota60; Scripted.badRequestResponse]
               Scripted.badRequest)
    as (Hrun & _ & _).
  - reflexivity.
  - reflexivity.
  - split; [reflexivity|]. eexists. split; [reflexivity|].
    split; [reflexivity|]. eexists. split; reflexivity.
  - rewrite Hrun. reflexivity.
Defined.

Lemma client_error_surfaces_at_once_witness :
  let r := sendMessageStream Sim.deps Scripted.env 1 Sim.request false
                             Scripted.badRequest in
  outcome r = Throws (apiError 400 "bad request") /\
  events r = [] /\
  countPicks (calls r) = 1.
Proof.
  cbn zeta.
  rewrite (client_error_surfaces_at_once Sim.deps Scripted.env Sim.request
             false 0 Scripted.badRequest Sim.alice
             "token-of-alice@example.com" "project-1" Scripted.badRequest
             [Scripted.quota60; Scripted.badRequestResponse]
             [Scripted.quota60] Scripted.badRequestResponse []
             Scripted.badRequest).
  - repeat split.
  - apply scripted_start.
  - split; [reflexivity|]. eexists. split; [reflexivity|].
    split; [reflexivity|]. eexists. split; reflexivity.
  - reflexivity.
  - constructor.
  - vm_compute. discriminate.
  - vm_compute. discriminate.
  - reflexivity.
  - reflexivity.
  - reflexivity.
  - reflexivity.
Defined.

Lemma unauthorized_everywhere_ends_attempt_witness :
  attemptLoop Sim.deps Sim.env Sim.request false (fun _ _ => diverge) 1 2
              Sim.unauthorized
  = after [CPickSticky "claude-sonnet-4-5";
           CGetToken "alice@example.com"; CGetProject "alice@example.com";
           streamFetch Sim.deps Sim.request "token-of-alice@example.com"
                       "project-1" Sim.daily;
           CClearTokenCache "alice@example.com";
           CClearProjectCache "alice@example.com";
           streamFetch Sim.deps Sim.request "token-of-alice@example.com"
                       "project-1" Sim.prod;
           CClearTokenCache "alice@example.com";
           CClearProjectCache "alice@example.com"] []
          (attemptLoop Sim.deps Sim.env Sim.request false (fun _ _ => diverge)
                       1 1 Sim.unauthorized).
Proof.
  edestruct (unauthorized_everywhere_ends_attempt Sim.deps Sim.env Sim.request
               false (fun _ _ => diverge) 1 1 Sim.unauthorized Sim.alice
               "token-of-alice@example.com" "project-1" Sim.unauthorized
               [mkResponse 401 [] "unauthorized"; mkResponse 401 [] "unauthorized"]
               Sim.unauthorized)
    as (Hrun & _ & _).
  - do 3 eexists. repeat split; reflexivity.
  - split; [reflexivity|]. eexists. split; [reflexivity|].
    split; [reflexivity|]. eexists. split; reflexivity.
  - repeat constructor.
  - exact Hrun.
Defined.

Lemma error_text_mentioning_500_is_soft_witness :
  attemptCatch Sim.deps Sim.env Sim.request
               (apiError 400 "max_tokens must not exceed 500") Sim.unauthorized
  = mkRun (Normal (Go tt))
          (pickNext Sim.env "claude-sonnet-4-5" Sim.unauthorized).2
          [CPickNext "claude-sonnet-4-5"] [].
Proof.
  apply (error_text_mentioning_500_is_soft Sim.deps Sim.env Sim.request 400
           "max_tokens must not exceed 500" Sim.unauthorized).
  - left. vm_compute. reflexivity.
  - vm_compute. reflexivity.
  - vm_compute. reflexivity.
Defined.

Lemma fallback_takes_over_without_account_witness :
  sendMessageStream Sim.deps Scripted.env 2 Sim.opusRequest true Scripted.nobody
  = after [CEnter "claude-opus-4-5-thinking" true;
           CPickSticky "claude-opus-4-5-thinking"] []
          (sendMessageStream Sim.deps Scripted.env 1
             (withModel Sim.opusRequest "gemini-3-pro-high") false
             Scripted.nobody)
  /\ outcome (sendMessageStream Sim.deps Scripted.env 2 Sim.opusRequest true
                                Scripted.nobody)
     = Throws (Error "No accounts available").
Proof.
  edestruct (fallback_takes_over_without_account Sim.deps Scripted.env
               Sim.opusRequest 1 Scripted.nobody 0%Z Scripted.nobody)
    as (Hfb & _).
  - reflexivity.
  - lia.
  - reflexivity.
  - split.
    + apply Hfb; [reflexivity | discriminate].
    + vm_compute. reflexivity.
Defined.

Lemma partial_output_is_not_rolled_back_witness :
  let r := sendMessageStream Sim.deps Scripted.env 2 Sim.request false
                             Scripted.breaksThenServes in
  outcome r = Normal tt /\
  events r = [Scripted.started; Scripted.started; Scripted.stopped] /\
  streamsOf (calls r) = [Scripted.partialResponse; Scripted.helloResponse].
Proof.
  apply (partial_output_is_not_rolled_back Sim.deps Scripted.env Sim.request
           2 false Scripted.breaksThenServes Sim.alice
           "token-of-alice@example.com" "project-1" Scripted.breaksThenServes
           Sim.daily Sim.prod [] Scripted.partialResponse
           Scripted.breaksThenServes [Scripted.started] Scripted.brokenStream
           Scripted.breaksThenServes Scripted.helloResponse
           Scripted.breaksThenServes [Scripted.started; Scripted.stopped]
           Scripted.breaksThenServes).
  - apply scripted_start.
  - reflexivity.
  - reflexivity.
  - reflexivity.
  - reflexivity.
  - reflexivity.
  - reflexivity.
  - reflexivity.
  - reflexivity.
  - reflexivity.
  - vm_compute. discriminate.
  - lia.
Defined.

Lemma rate_limit_during_empty_retry_witness :
  exists w' evs cs,
    attemptLoop Sim.deps Scripted.env Sim.request false (fun _ _ => diverge)
                1 2 Scripted.emptyThenLimited
    = after (cs ++ [CMarkRateLimited "alice@example.com" (Some 30000%Z)
                                     "claude-sonnet-4-5"]) evs
            (attemptLoop Sim.deps Scripted.env Sim.request false
                         (fun _ _ => diverge) 1 1 w')
    /\ Sim.limited w' = [("alice@example.com", 30500%Z)].
Proof.
  exists (markRateLimited Scripted.env "alice@example.com" (Some 30000%Z)
            "claude-sonnet-4-5"
            (sleep Scripted.env 500 Scripted.emptyThenLimited)),
         [],
         (startCalls Sim.request Sim.alice
          ++ [streamFetch Sim.deps Sim.request "token-of-alice@example.com"
                          "project-1" Sim.daily;
              CStream Sim.okEmpty "claude-sonnet-4-5"; CSleep 500;
              streamFetch Sim.deps Sim.request "token-of-alice@example.com"
                          "project-1" Sim.daily])%list.
  split.
  - rewrite (rate_limit_during_empty_retry Sim.deps Scripted.env Sim.request
               false (fun _ _ => diverge) 0 1 Scripted.emptyThenLimited
               Sim.alice "token-of-alice@example.com" "project-1"
               Scripted.emptyThenLimited Sim.daily [Sim.prod] Sim.okEmpty
               Scripted.emptyThenLimited [] Sim.emptyError
               Scripted.emptyThenLimited Sim.quota30
               (sleep Scripted.env 500 Scripted.emptyThenLimited)).
    + reflexivity.
    + apply scripted_start.
    + reflexivity.
    + reflexivity.
    + reflexivity.
    + reflexivity.
    + reflexivity.
    + reflexivity.
    + reflexivity.
    + reflexivity.
    + reflexivity.
  - reflexivity.
Defined.

Lemma short_wait_then_optimistic_reset_witness :
  selectAccount Sim.deps Scripted.env Sim.request false (fun _ _ => diverge)
                Scripted.limitedForLong
  = mkRun (Normal (Go Sim.alice))
          (resetAllRateLimits Scripted.env
             (clearExpiredLimits Scripted.env
                (sleep Scripted.env 500
                   (sleep Scripted.env 1000 Scripted.limitedForLong))))
          [CPickSticky "claude-sonnet-4-5"; CSleep 1000; CSleep 500;
           CClearExpired; CPickNext "claude-sonnet-4-5"; CResetAll;
           CPickNext "claude-sonnet-4-5"] [].
Proof.
  apply (short_wait_then_optimistic_reset Sim.deps Scripted.env Sim.request
           false (fun _ _ => diverge) Scripted.limitedForLong 0%Z
           Scripted.limitedForLong
           (clearExpiredLimits Scripted.env
              (sleep Scripted.env 500
                 (sleep Scripted.env 1000 Scripted.limitedForLong)))).
  - reflexivity.
  - lia.
  - reflexivity.
  - vm_compute. discriminate.
  - reflexivity.
  - reflexivity.
Defined.

